(** * Candles prediction generator: trend analysis, price projection, batch
    driver and CSV serializer of [prediction-generator.js], embedded in Rocq.

    Numbers.  A JavaScript number is an IEEE 754 binary64 value; it is
    modelled by Rocq's primitive [float] (the same format, rounded to
    nearest even), so every function below evaluates to the number the
    script computes, [NaN], the infinities and the two zeros included.
    Timestamps and array lengths are integers and are kept in [Z] and [nat];
    a timestamp that is [NaN] is [None].

    Effects.  [Math.random()] is a sequence of draws indexed by the number
    of calls made so far; a function that calls it threads that count.  A
    [TypeError] is [None].  The clock ([getNextTimestamps]) and the network
    ([fetchOHLCData]) are read by the caller: [generatePredictions] takes
    their results as arguments, and [generatePredictions_fetching] is the
    whole function, from what the clock gave and what became of the two
    requests.  Of [main] the model keeps the decision it takes on its
    arguments, of [previewPredictions] the rows of the table.

    Objects.  A candle, a trend and a prediction are records.  The two
    object literals used as tables by interval token are association lists,
    looked up the way property access does: own properties first, then the
    members every object inherits from [Object.prototype]. *)

From Stdlib Require Import ZArith List String Ascii Bool Lia.
From Stdlib Require Import DecimalString Sorted Permutation.
From Stdlib Require Uint63 DecimalN DecimalPos.
From Stdlib Require Import Floats.
Import ListNotations.

Set Warnings "-inexact-float".
Local Open Scope list_scope.
Local Open Scope string_scope.
Local Open Scope Z_scope.

(* ================================================================== *)
(** ** JavaScript built-ins used by the generator *)
(* ================================================================== *)

Module JS.

(** [array.length] and loop counters as numbers. *)
Definition of_nat (n : nat) : float := of_uint63 (Uint63.of_Z (Z.of_nat n)).

(** [ToBoolean] on a number: [NaN], [+0] and [-0] are falsy. *)
Definition truthy (x : float) : bool :=
  negb (PrimFloat.is_nan x || PrimFloat.is_zero x).

(** [Math.max(a, b)]: [NaN] if either argument is [NaN]; [+0] is larger
    than [-0]. *)
Definition Math_max (a b : float) : float :=
  if PrimFloat.is_nan a || PrimFloat.is_nan b then nan
  else if (a <? b)%float then b
  else if (b <? a)%float then a
  else if PrimFloat.get_sign a then b else a.

(** [Math.min(a, b)]: [NaN] if either argument is [NaN]; [-0] is smaller
    than [+0]. *)
Definition Math_min (a b : float) : float :=
  if PrimFloat.is_nan a || PrimFloat.is_nan b then nan
  else if (a <? b)%float then a
  else if (b <? a)%float then b
  else if PrimFloat.get_sign a then a else b.

(** [Math.max(...xs)] and [Math.min(...xs)]; on no argument they are
    [-Infinity] and [+Infinity]. *)
Definition Math_max_list (xs : list float) : float :=
  fold_left Math_max xs neg_infinity.

Definition Math_min_list (xs : list float) : float :=
  fold_left Math_min xs infinity.

(** [Math.pow(x, 2)]: the correctly rounded square. *)
Definition Math_pow2 (x : float) : float := (x * x)%float.

(** [xs.reduce((a, b) => a + b, 0)]. *)
Definition sum (xs : list float) : float := fold_left PrimFloat.add xs 0%float.

(** [array.slice(start, end)], [end] omitted when [None]; negative
    indices count from the end. *)
Definition slice {A : Type} (l : list A) (start : Z) (stop : option Z)
  : list A :=
  let len := Z.of_nat (List.length l) in
  let rel i := if i <? 0 then Z.max (len + i) 0 else Z.min i len in
  let k := rel start in
  let final := match stop with Some e => rel e | None => len end in
  firstn (Z.to_nat (Z.max (final - k) 0)) (skipn (Z.to_nat k) l).

(** [array[array.length - 1]]: [None] is [undefined]. *)
Definition last_elem {A : Type} (l : list A) : option A :=
  nth_error l (List.length l - 1).

(** *** Decimal rendering of numbers *)

(** Decimal digits of a non-negative integer. *)
Definition digits (n : Z) : string :=
  NilZero.string_of_uint (N.to_uint (Z.to_N n)).

Fixpoint zeros (n : nat) : string :=
  match n with
  | O => EmptyString
  | S n' => String "0" (zeros n')
  end.

(** The integer nearest to [m * 2^e * 10^f], the larger one on a tie. *)
Definition scaled_round (m : positive) (e : Z) (f : nat) : Z :=
  let num := Zpos m * 10 ^ Z.of_nat f in
  if 0 <=? e then num * 2 ^ e
  else (2 * num + 2 ^ (- e)) / 2 ^ (1 - e).

(** The number nearest to [s * 10^p] ([s > 0]): what [Number(text)]
    yields on the decimal text of [s * 10^p]. *)
Definition of_decimal (neg : bool) (s : positive) (p : Z) : float :=
  if 0 <=? p
  then SF2Prim (binary_normalize prec emax
                  (cond_Zopp neg (Zpos s * 10 ^ p)) 0 neg)
  else SF2Prim (SFdiv prec emax (S754_finite neg s 0)
                  (S754_finite false (Z.to_pos (10 ^ (- p))) 0)).

(** [m * 2^e < 10^n], on integers. *)
Definition lt_pow10 (m : positive) (e n : Z) : bool :=
  Zpos m * 2 ^ Z.max e 0 * 10 ^ Z.max (- n) 0
  <? 10 ^ Z.max n 0 * 2 ^ Z.max (- e) 0.

(** The least [n] in [lo, lo + fuel) with [m * 2^e < 10^n]. *)
Fixpoint decimal_exponent (fuel : nat) (m : positive) (e lo : Z) : Z :=
  match fuel with
  | O => lo
  | S fuel' =>
      if lt_pow10 m e lo then lo else decimal_exponent fuel' m e (lo + 1)
  end.

(** [floor (m * 2^e / 10^p)]. *)
Definition floor_scaled (m : positive) (e p : Z) : Z :=
  (Zpos m * 2 ^ Z.max e 0 * 10 ^ Z.max (- p) 0)
  / (2 ^ Z.max (- e) 0 * 10 ^ Z.max p 0).

(** Is [lo * 10^p] at least as close to [m * 2^e] as [(lo + 1) * 10^p]
    is ([Lt]: closer, [Eq]: a tie, [Gt]: farther). *)
Definition closer_low (m : positive) (e p lo : Z) : comparison :=
  let a := 2 * Zpos m * 2 ^ Z.max e 0 * 10 ^ Z.max (- p) 0 in
  let b := (2 * lo + 1) * (2 ^ Z.max (- e) 0 * 10 ^ Z.max p 0) in
  a ?= b.

(** Shortest digits [s] (with [k] digits tried in increasing order) and
    exponent [n] such that [s * 10^(n-k)] reads back as [x]; among the
    candidates of one length, the one nearest to [x]. *)
Fixpoint shortest (fuel : nat) (x : float) (m : positive) (e n0 k : Z)
  : Z * Z :=
  let p := n0 - k in
  let lo := floor_scaled m e p in
  let hi := lo + 1 in
  let ok_lo := (0 <? lo) && Leibniz.eqb (of_decimal false (Z.to_pos lo) p) x in
  let ok_hi := Leibniz.eqb (of_decimal false (Z.to_pos hi) p) x in
  let pick s := if s =? 10 ^ k then (1, n0 + 1) else (s, n0) in
  match fuel with
  | O => pick lo
  | S fuel' =>
      match ok_lo, ok_hi with
      | true, true =>
          match closer_low m e p lo with
          | Lt => pick lo
          | Gt => pick hi
          | Eq => if Z.even lo then pick lo else pick hi
          end
      | true, false => pick lo
      | false, true => pick hi
      | false, false => shortest fuel' x m e n0 (k + 1)
      end
  end.

(** [Number::toString] (radix 10) on a positive finite number given by
    its digits [s] and decimal exponent [n]. *)
Definition render_digits (s n : Z) : string :=
  let d := digits s in
  let k := Z.of_nat (String.length d) in
  if (-6 <? n) && (n <=? 21) then
    if k <=? n then d ++ zeros (Z.to_nat (n - k))
    else if 0 <? n then
      substring 0 (Z.to_nat n) d ++ "." ++
      substring (Z.to_nat n) (Z.to_nat (k - n)) d
    else "0." ++ zeros (Z.to_nat (- n)) ++ d
  else
    let ex := n - 1 in
    let sign := if 0 <=? ex then "+" else "-" in
    let mant := if k =? 1 then d
                else substring 0 1 d ++ "." ++
                     substring 1 (Z.to_nat (k - 1)) d in
    mant ++ "e" ++ sign ++ digits (Z.abs ex).

(** [String(x)] / [`${x}`] for a number.  The search for the decimal
    exponent starts just below [log10 (2^t)], where [2^t <= |x|]. *)
Definition Number_toString (x : float) : string :=
  match Prim2SF x with
  | S754_nan => "NaN"
  | S754_zero _ => "0"
  | S754_infinity s => if s then "-Infinity" else "Infinity"
  | S754_finite s m e =>
      let t := Zpos (digits2_pos m) + e - 1 in
      let n0 := decimal_exponent 8 m e (t * 30103 / 100000 - 1) in
      let '(d, n) := shortest 17 (abs x) m e n0 1 in
      (if s then "-" else "") ++ render_digits d n
  end%string.

(** *** [Number.prototype.toFixed] *)

(** Outcome of [x.toFixed(f)], before it is written out: either the
    number itself (not finite, or at least [1e21] in magnitude, which is
    written by [Number::toString]) or a sign and the integer [n] of
    [n / 10^f]. *)
Inductive fixed : Type :=
| FixedAsIs (x : float)
| FixedDigits (neg : bool) (n : Z) (f : nat).

Definition toFixed_parts (x : float) (f : nat) : fixed :=
  match Prim2SF x with
  | S754_zero _ => FixedDigits false 0 f
  | S754_finite s m e =>
      if (1e21 <=? abs x)%float then FixedAsIs x
      else FixedDigits s (scaled_round m e f) f
  | _ => FixedAsIs x
  end.

(** The text of [x.toFixed(f)]. *)
Definition fixed_string (r : fixed) : string :=
  match r with
  | FixedAsIs x => Number_toString x
  | FixedDigits neg n f =>
      let m := digits n in
      let m := if (String.length m <=? f)%nat
               then zeros (f + 1 - String.length m) ++ m else m in
      let k := String.length m in
      let body := if (f =? 0)%nat then m
                  else substring 0 (k - f) m ++ "." ++ substring (k - f) f m in
      (if neg then "-" else "") ++ body
  end%string.

Definition toFixed (x : float) (f : nat) : string :=
  fixed_string (toFixed_parts x f).

(** [Number(x.toFixed(f))]: the number nearest to the decimal written. *)
Definition fixed_number (r : fixed) : float :=
  match r with
  | FixedAsIs x => x
  | FixedDigits neg n f =>
      match n with
      | Zpos s => of_decimal neg s (- Z.of_nat f)
      | _ => if neg then neg_zero else zero
      end
  end.

Definition Number_toFixed (x : float) (f : nat) : float :=
  fixed_number (toFixed_parts x f).

(** [parseFloat(x)] on an argument that is already a number: the number
    read back from its text, so [-0] becomes [+0]. *)
Definition parseFloat (x : float) : float :=
  if PrimFloat.is_zero x then zero else x.

(** *** Property lookup on an object literal used as a table *)

(** What [table[key]] can be for an object literal: an own property, a
    member inherited from [Object.prototype] (a function, or the
    prototype itself for [__proto__]), or [undefined]. *)
Inductive property (A : Type) : Type :=
| Undefined
| Own (x : A)
| Inherited.
Arguments Undefined {A}.
Arguments Own {A} x.
Arguments Inherited {A}.

Definition Object_prototype_keys : list string :=
  [ "constructor"; "toString"; "toLocaleString"; "valueOf";
    "hasOwnProperty"; "isPrototypeOf"; "propertyIsEnumerable";
    "__proto__"; "__defineGetter__"; "__defineSetter__";
    "__lookupGetter__"; "__lookupSetter__" ].

Fixpoint own_lookup {A : Type} (table : list (string * A)) (key : string)
  : option A :=
  match table with
  | [] => None
  | (k, v) :: rest => if String.eqb k key then Some v else own_lookup rest key
  end.

Definition get {A : Type} (table : list (string * A)) (key : string)
  : property A :=
  match own_lookup table key with
  | Some v => Own v
  | None =>
      if existsb (String.eqb key) Object_prototype_keys
      then Inherited else Undefined
  end.

(** [v || d] followed by the conversion to a number that the
    multiplication applies: a function or an object converts to [NaN]. *)
Definition or_number (v : property float) (d : float) : float :=
  match v with
  | Undefined => d
  | Own x => if truthy x then x else d
  | Inherited => nan
  end.

End JS.

(* ================================================================== *)
(** ** Data model *)
(* ================================================================== *)

(** One OHLC candle as [normalizeOHLCData] and the test build it.  A missing
    [volume] property is [None]. *)
Module Candle.
Record t : Type := mk {
  timestamp : Z;
  open : float;
  high : float;
  low : float;
  close : float;
  volume : option float
}.
End Candle.

(** The two colours of a prediction: ['green'] is up, ['red'] is down. *)
Inductive Color : Type := green | red.

Definition Color_eqb (a b : Color) : bool :=
  match a, b with
  | green, green | red, red => true
  | _, _ => false
  end.

Definition Color_toString (c : Color) : string :=
  match c with green => "green" | red => "red" end.

Definition Color_toUpperCase (c : Color) : string :=
  match c with green => "GREEN" | red => "RED" end.

(** The [indicators] object of [analyzeTrend]. *)
Module Indicators.
Record t : Type := mk {
  momentum : Z;
  movingAverage : Z;
  volume : Z;
  volatility : float;
  supportResistance : Z
}.
End Indicators.

(** The object returned by [analyzeTrend]; the degenerate result carries no
    [indicators]. *)
Module Trend.
Record t : Type := mk {
  color : Color;
  confidence : float;
  priceChange : float;
  indicators : option Indicators.t;
  analysis : string
}.
End Trend.

(* ================================================================== *)
(** ** Trend analyzer *)
(* ================================================================== *)

(** [calculateMomentum]: mean of the close-to-close changes and its sign. *)
Fixpoint changes (closes : list float) : list float :=
  match closes with
  | a :: (b :: _) as rest => (b - a)%float :: changes rest
  | _ => []
  end.

Definition sign_signal (x : float) : Z :=
  if (0 <? x)%float then 1 else if (x <? 0)%float then -1 else 0.

Definition calculateMomentum (data : list Candle.t) : float * Z :=
  let ch := changes (map Candle.close data) in
  let avgChange := (JS.sum ch / JS.of_nat (List.length ch))%float in
  (avgChange, sign_signal avgChange).

(** [calculateMovingAverageTrend]: sign of (mean of the last 3 closes minus
    mean of the last 5 closes); no opinion below 5 candles. *)
Definition calculateMovingAverageTrend (data : list Candle.t) : Z :=
  if (List.length data <? 5)%nat then 0
  else
    let closes l := map Candle.close l in
    let shortMA := (JS.sum (closes (JS.slice data (-3) None)) / 3)%float in
    let longMA := (JS.sum (closes (JS.slice data (-5) None)) / 5)%float in
    if (longMA <? shortMA)%float then 1
    else if (shortMA <? longMA)%float then -1 else 0.

(** [d.volume && d.volume > 0] as a condition. *)
Definition has_positive_volume (d : Candle.t) : bool :=
  match Candle.volume d with
  | Some v => JS.truthy v && (0 <? v)%float
  | None => false
  end.

(** [d.volume || 0]. *)
Definition volume_or_zero (d : Candle.t) : float :=
  match Candle.volume d with
  | Some v => if JS.truthy v then v else 0%float
  | None => 0%float
  end.

(** [calculateVolumeTrend]: mean volume of the last 3 candles against the
    3 before them. *)
Definition calculateVolumeTrend (data : list Candle.t) : Z :=
  if negb (existsb has_positive_volume data) then 0
  else
    let recent := JS.slice data (-3) None in
    let older := JS.slice data (-6) (Some (-3)) in
    if (List.length older =? 0)%nat then 0
    else
      let vols l := fold_left (fun s d => (s + volume_or_zero d)%float) l 0%float in
      let recentAvgVol := (vols recent / JS.of_nat (List.length recent))%float in
      let olderAvgVol := (vols older / JS.of_nat (List.length older))%float in
      if (olderAvgVol * 1.1 <? recentAvgVol)%float then 1
      else if (recentAvgVol <? olderAvgVol * 0.9)%float then -1 else 0.

(** [calculateVolatility]: population standard deviation of the closes over
    their mean. *)
Definition calculateVolatility (data : list Candle.t) : float :=
  let prices := map Candle.close data in
  let n := JS.of_nat (List.length prices) in
  let avgPrice := (JS.sum prices / n)%float in
  let variance :=
    (fold_left (fun s price => (s + JS.Math_pow2 (price - avgPrice))%float)
       prices 0%float / n)%float in
  (sqrt variance / avgPrice)%float.

(** [findSupportResistance]: the signal of the result; [None] when
    [data[data.length - 1]] is [undefined] and reading [.close] throws. *)
Definition findSupportResistance (data : list Candle.t) : option Z :=
  match JS.last_elem data with
  | None => None
  | Some lastCandle =>
      let currentPrice := Candle.close lastCandle in
      let resistance := JS.Math_max_list (map Candle.high data) in
      let support := JS.Math_min_list (map Candle.low data) in
      let distanceToResistance :=
        ((resistance - currentPrice) / currentPrice)%float in
      let distanceToSupport :=
        ((currentPrice - support) / currentPrice)%float in
      Some (if (distanceToResistance <? 0.02)%float then -1
            else if (distanceToSupport <? 0.02)%float then 1
            else 0)
  end.

(** [generateAnalysisText]. *)
Definition generateAnalysisText (ind : Indicators.t) (color : Color)
  (confidence : float) : string :=
  let phrase (s : Z) (up down : string) : list string :=
    if 0 <? s then [up] else if s <? 0 then [down] else [] in
  let parts :=
    (phrase (Indicators.momentum ind) "bullish momentum" "bearish momentum"
     ++ phrase (Indicators.movingAverage ind) "MA uptrend" "MA downtrend"
     ++ phrase (Indicators.volume ind) "volume increase" "volume decrease"
     ++ phrase (Indicators.supportResistance ind) "near support" "near resistance")%list in
  let analysis :=
    if (0 <? List.length parts)%nat then String.concat ", " parts
    else "mixed signals" in
  Color_toUpperCase color ++ " (" ++ JS.toFixed (confidence * 100)%float 0
    ++ "%): " ++ analysis.

(** [s !== 0]: the signal has an opinion. *)
Definition has_opinion (s : Z) : bool := negb (s =? 0).

(** The non-zero signals, in the order momentum, moving average, volume,
    support/resistance. *)
Definition fuse (momentum maTrend volumeTrend supportResistance : Z) : list Z :=
  filter has_opinion [momentum; maTrend; volumeTrend; supportResistance].

(** [signals.filter(s => s > 0).length] and [signals.filter(s => s < 0).length]. *)
Definition count_bullish (signals : list Z) : nat :=
  List.length (filter (fun s => 0 <? s) signals).

Definition count_bearish (signals : list Z) : nat :=
  List.length (filter (fun s => s <? 0) signals).

(** [priceData.slice(-10)], the window [analyzeTrend] works on. *)
Definition recent_window (priceData : list Candle.t) : list Candle.t :=
  JS.slice priceData (-10) None.

(** [analyzeTrend]; [None] only if [findSupportResistance] throws. *)
Definition analyzeTrend (priceData : list Candle.t) : option Trend.t :=
  if (List.length priceData <? 3)%nat then
    Some (Trend.mk green 0.5%float 0%float None "Insufficient data")
  else
    let recent := recent_window priceData in
    let momentum := calculateMomentum recent in
    let maTrend := calculateMovingAverageTrend recent in
    let volumeTrend := calculateVolumeTrend recent in
    let volatility := calculateVolatility recent in
    match findSupportResistance recent with
    | None => None
    | Some supportResistance =>
        let indicators :=
          Indicators.mk (snd momentum) maTrend volumeTrend volatility
            supportResistance in
        let signals := fuse (snd momentum) maTrend volumeTrend supportResistance in
        let bullishCount := count_bullish signals in
        let bearishCount := count_bearish signals in
        let color := if (bearishCount <? bullishCount)%nat then green else red in
        let totalSignals := List.length signals in
        let agreement :=
          (abs (JS.of_nat bullishCount - JS.of_nat bearishCount)
           / JS.of_nat totalSignals)%float in
        let volatilityFactor := JS.Math_max 0.1 (1 - volatility * 2)%float in
        let confidence :=
          JS.Math_min 0.95
            (JS.Math_max 0.55
               (0.6 + agreement * 0.25 + volatilityFactor * 0.15)%float) in
        Some (Trend.mk color (JS.Number_toFixed confidence 2)
                (fst momentum) (Some indicators)
                (generateAnalysisText indicators color confidence))
    end.

(* ================================================================== *)
(** ** Price projector *)
(* ================================================================== *)

(** The object returned by [generatePricePrediction]. *)
Module PricePrediction.
Record t : Type := mk {
  color : Color;
  confidence : float;
  price : float;
  analysis : string;
  indicators : option Indicators.t
}.
End PricePrediction.

(** One element of the array built by [generatePredictions].  The timestamp
    is an integer number of seconds; [None] is [NaN]. *)
Module Prediction.
Record t : Type := mk {
  timestamp : option Z;
  color : Color;
  confidence : float;
  price : float;
  analysis : string;
  indicators : option Indicators.t
}.
End Prediction.

(** The timestamps of [getNextTimestamps], read from the clock by the
    caller. *)
Module NextTimestamps.
Record t : Type := mk { hourly : Z; daily : Z; weekly : Z }.
End NextTimestamps.

Definition volatilityMultiplier : list (string * float) :=
  [ ("hours", 0.025%float); ("days", 0.06%float); ("weeks", 0.12%float) ].

Definition intervalSeconds : list (string * Z) :=
  [ ("hours", 3600); ("days", 86400); ("weeks", 604800) ].

(** [predictedPrice * (volatilityMultiplier[interval] || 0.025)]. *)
Definition maxChange_for (predictedPrice : float) (interval : string) : float :=
  (predictedPrice
   * JS.or_number (JS.get volatilityMultiplier interval) 0.025)%float.

Section Randomness.

(** The values [Math.random()] returns, in call order. *)
Variable random : nat -> float.

(** A computation that draws random numbers and may throw: from the
    number of draws made so far to the result and the new count, [None]
    for an exception. *)
Definition Rand (A : Type) : Type := nat -> option (A * nat).

Definition ret {A : Type} (a : A) : Rand A := fun s => Some (a, s).

Definition bind {A B : Type} (m : Rand A) (k : A -> Rand B) : Rand B :=
  fun s => match m s with
           | Some (a, s') => k a s'
           | None => None
           end.

Definition throw {A : Type} : Rand A := fun _ => None.

Definition lift {A : Type} (o : option A) : Rand A :=
  match o with Some a => ret a | None => throw end.

Definition Math_random : Rand float := fun s => Some (random s, S s).

Notation "x <- m ;; k" := (bind m (fun x => k))
  (at level 61, m at next level, right associativity).

(** [generatePricePrediction]. *)
Definition generatePricePrediction (priceData : list Candle.t)
  (interval : string) : Rand PricePrediction.t :=
  if (List.length priceData =? 0)%nat then
    r1 <- Math_random ;;
    r2 <- Math_random ;;
    r3 <- Math_random ;;
    ret (PricePrediction.mk
           (if (0.5 <? r1)%float then green else red)
           (0.5 + r2 * 0.3)%float
           (45.0 + r3 * 10)%float
           "No historical data - random prediction"
           None)
  else
    latestCandle <- lift (JS.last_elem priceData) ;;
    trend <- lift (analyzeTrend priceData) ;;
    let predictedPrice := Candle.close latestCandle in
    let maxChange := maxChange_for predictedPrice interval in
    let trendStrength := (abs (Trend.priceChange trend) / predictedPrice)%float in
    let trendBias :=
      if Color_eqb (Trend.color trend) green then 1%float else (-1)%float in
    r <- Math_random ;;
    let randomComponent := ((r - 0.5) * 2 * maxChange * 0.4)%float in
    let trendComponent :=
      (maxChange * 0.4 * trendBias * JS.Math_min (trendStrength * 15) 1)%float in
    let confidenceComponent :=
      (maxChange * 0.2 * trendBias * (Trend.confidence trend - 0.5) * 2)%float in
    let predictedPrice :=
      (predictedPrice
       + (randomComponent + trendComponent + confidenceComponent))%float in
    let predictedPrice := JS.Math_max 0.1 predictedPrice in
    ret (PricePrediction.mk
           (Trend.color trend)
           (Trend.confidence trend)
           (JS.Number_toFixed predictedPrice 2)
           (Trend.analysis trend)
           (Trend.indicators trend)).

(** The [for] loop of [generatePredictions]: [n] iterations left, loop
    counter [i], the array built so far. *)
Fixpoint generatePredictions_loop (historicalData : list Candle.t)
  (interval : string) (baseTimestamp : Z) (n : nat) (i : Z)
  (predictions : list Prediction.t) : Rand (list Prediction.t) :=
  match n with
  | O => ret predictions
  | S n' =>
      let timestamp :=
        match JS.get intervalSeconds interval with
        | JS.Own seconds => Some (baseTimestamp + i * seconds)
        | _ => None
        end in
      prediction <- generatePricePrediction historicalData interval ;;
      generatePredictions_loop historicalData interval baseTimestamp n' (i + 1)
        (predictions
         ++ [Prediction.mk timestamp
               (PricePrediction.color prediction)
               (PricePrediction.confidence prediction)
               (PricePrediction.price prediction)
               (PricePrediction.analysis prediction)
               (PricePrediction.indicators prediction)])%list
  end.

(** [generatePredictions], after the clock has been read into
    [nextTimestamps] and the candles fetched into [historicalData]. *)
Definition generatePredictions (nextTimestamps : NextTimestamps.t)
  (historicalData : list Candle.t) (interval : string) (count : nat)
  : Rand (list Prediction.t) :=
  let baseTimestamp :=
    if String.eqb interval "hours" then NextTimestamps.hourly nextTimestamps
    else if String.eqb interval "days" then NextTimestamps.daily nextTimestamps
    else NextTimestamps.weekly nextTimestamps in
  generatePredictions_loop historicalData interval baseTimestamp count 0 [].

End Randomness.

(* ================================================================== *)
(** ** CSV serializer *)
(* ================================================================== *)

(** [`${p.timestamp}`]. *)
Definition timestamp_toString (t : option Z) : string :=
  match t with
  | None => "NaN"
  | Some z => (if z <? 0 then "-" else "") ++ JS.digits (Z.abs z)
  end.

Definition csv_headers : string := "timestamp,color,confidence,price".

Definition csv_row (p : Prediction.t) : string :=
  timestamp_toString (Prediction.timestamp p) ++ ","
  ++ Color_toString (Prediction.color p) ++ ","
  ++ JS.Number_toString (Prediction.confidence p) ++ ","
  ++ JS.Number_toString (Prediction.price p).

Definition newline : string := String (ascii_of_nat 10) EmptyString.

(** [predictionsToCSV]. *)
Definition predictionsToCSV (predictions : list Prediction.t) : string :=
  String.concat newline (csv_headers :: map csv_row predictions).

(* ================================================================== *)
(** ** Normalization of the fetched candles *)
(* ================================================================== *)

(** One row of the OHLC endpoint: milliseconds, open, high, low, close. *)
Module Raw.
Record t : Type := mk { ms : Z; o : float; h : float; l : float; c : float }.
End Raw.

Definition normalize_item (item : Raw.t) : Candle.t :=
  Candle.mk (Raw.ms item / 1000)
    (JS.parseFloat (Raw.o item)) (JS.parseFloat (Raw.h item))
    (JS.parseFloat (Raw.l item)) (JS.parseFloat (Raw.c item))
    (Some 0%float).

(** [array.sort((a, b) => a.timestamp - b.timestamp)]: a stable sort by
    ascending timestamp. *)
Fixpoint insert_by_timestamp (x : Candle.t) (l : list Candle.t) : list Candle.t :=
  match l with
  | [] => [x]
  | y :: rest =>
      if Candle.timestamp x <=? Candle.timestamp y then x :: l
      else y :: insert_by_timestamp x rest
  end.

Definition sort_by_timestamp (l : list Candle.t) : list Candle.t :=
  fold_right insert_by_timestamp [] l.

(** [normalizeOHLCData]. *)
Definition normalizeOHLCData (ohlcData : list Raw.t) : list Candle.t :=
  sort_by_timestamp (map normalize_item ohlcData).

(* ================================================================== *)
(** ** Notions the properties are stated with *)
(* ================================================================== *)

(** The three cadences, their interval tokens (the [name]s listed in
    [generateAllPredictionFiles]), their periods in seconds and their first
    aligned timestamp. *)
Inductive Cadence : Type := Hourly | Daily | Weekly.

Definition Cadence_token (c : Cadence) : string :=
  match c with Hourly => "hours" | Daily => "days" | Weekly => "weeks" end.

Definition Cadence_period (c : Cadence) : Z :=
  match c with Hourly => 3600 | Daily => 86400 | Weekly => 604800 end.

Definition Cadence_firstAligned (ts : NextTimestamps.t) (c : Cadence) : Z :=
  match c with
  | Hourly => NextTimestamps.hourly ts
  | Daily => NextTimestamps.daily ts
  | Weekly => NextTimestamps.weekly ts
  end.

(** The four indicator signals [analyzeTrend] fuses, on its window. *)
Definition indicator_signals (priceData : list Candle.t)
  : Z * Z * Z * option Z :=
  let recent := recent_window priceData in
  (snd (calculateMomentum recent), calculateMovingAverageTrend recent,
   calculateVolumeTrend recent, findSupportResistance recent).

Definition all_signals_zero (priceData : list Candle.t) : Prop :=
  indicator_signals priceData = (0, 0, 0, Some 0).

(** A candle as the test writes it, with [volume: 0]. *)
Definition candle (t : Z) (o h l c : float) : Candle.t :=
  Candle.mk t o h l c (Some 0%float).

(** The mock window of [test-prediction-generator.js]. *)
Definition mockData : list Candle.t :=
  [ candle 1000 45.0 46.0 44.5 45.5;
    candle 2000 45.5 47.0 45.0 46.2;
    candle 3000 46.2 47.5 46.0 46.8;
    candle 4000 46.8 47.8 46.5 47.2 ]%float.

(** Three identical candles: close 100 between a low of 90 and a high of
    110.  No indicator has an opinion on them. *)
Definition flatData : list Candle.t :=
  [ candle 1000 100 110 90 100;
    candle 2000 100 110 90 100;
    candle 3000 100 110 90 100 ]%float.

(** Ten candles with closes 1, 2, ..., 10. *)
Definition risingData : list Candle.t :=
  map (fun k => candle (Z.of_nat k) (JS.of_nat k) (JS.of_nat k + 1)%float
                  (JS.of_nat k - 1)%float (JS.of_nat k))
    (seq 1 10).

(** Does a number lie in the closed interval [lo, hi]; false on [NaN]. *)
Definition within (lo hi x : float) : bool :=
  (lo <=? x)%float && (x <=? hi)%float.

(** *** Texts and fields of the CSV *)

(** [text.split(sep)] for a one-character separator. *)
Fixpoint split_on (sep : ascii) (s : string) : list string :=
  match s with
  | EmptyString => [EmptyString]
  | String c rest =>
      if Ascii.eqb c sep then EmptyString :: split_on sep rest
      else match split_on sep rest with
           | [] => [String c EmptyString]
           | cur :: more => String c cur :: more
           end
  end.

(** Does every character of the text satisfy the test. *)
Fixpoint all_chars (f : ascii -> bool) (s : string) : bool :=
  match s with
  | EmptyString => true
  | String c rest => f c && all_chars f rest
  end.

Definition is_digit (c : ascii) : bool :=
  let n := nat_of_ascii c in (48 <=? n)%nat && (n <=? 57)%nat.

(** The characters a rendered number, timestamp or colour is made of:
    digits, letters, and the signs and point of a number. *)
Definition field_char (c : ascii) : bool :=
  let n := nat_of_ascii c in
  is_digit c
  || ((65 <=? n)%nat && (n <=? 90)%nat)
  || ((97 <=? n)%nat && (n <=? 122)%nat)
  || (n =? 43)%nat || (n =? 45)%nat || (n =? 46)%nat.

Definition field_text (s : string) : bool := all_chars field_char s.

(** The text ends in a point followed by exactly two digits. *)
Definition two_decimals (s : string) : bool :=
  match rev (list_ascii_of_string s) with
  | d2 :: d1 :: p :: _ => is_digit d2 && is_digit d1 && Ascii.eqb p "."
  | _ => false
  end.

Definition comma : ascii := ",".
Definition newline_char : ascii := ascii_of_nat 10.

(** The four fields of a row, as texts. *)
Definition csv_fields (p : Prediction.t) : list string :=
  [ timestamp_toString (Prediction.timestamp p);
    Color_toString (Prediction.color p);
    JS.Number_toString (Prediction.confidence p);
    JS.Number_toString (Prediction.price p) ].

(** *** Orderings and volumes of candles *)

Definition timestamp_le (a b : Candle.t) : Prop :=
  Candle.timestamp a <= Candle.timestamp b.

Definition zero_volume (c : Candle.t) : Prop :=
  Candle.volume c = Some 0%float.

(** *** Random draws and sample inputs *)

(** Every value of [Math.random()] is a number in [0, 1). *)
Definition unit_draws (random : nat -> float) : Prop :=
  forall n, (0 <=? random n)%float = true /\ (random n <? 1)%float = true.

(** The largest number below 1, [1 - 2^-53]. *)
Definition largest_draw : float := 0.9999999999999999%float.

(** The first aligned timestamps used in the examples. *)
Definition sampleTimestamps : NextTimestamps.t :=
  NextTimestamps.mk 1762066800 1762128000 1762732800.

(** *** Binary64 rounding, after [SpecFloat] *)

Local Abbreviation fexp := (SpecFloat.fexp prec emax).

(** [mrs] is [M] shifted right by [k] bits: quotient, round bit, sticky bit. *)
Definition shifted (M k : Z) (mrs : shr_record) : Prop :=
  0 <= shr_m mrs
  /\ exists rem t,
       M = shr_m mrs * 2 ^ k + rem
       /\ 0 <= rem < 2 ^ k
       /\ 2 * rem = t + (if shr_r mrs then 2 ^ k else 0)
       /\ 0 <= t < 2 ^ k
       /\ (shr_s mrs = true <-> t <> 0).

(** The result of rounding a positive [m * 2^e] given through the rounded
    mantissa [m2] at the target exponent [e1]. *)
Definition rounded_result (m2 e1 : Z) : spec_float :=
  if m2 =? 0 then S754_zero false
  else if m2 <? 2 ^ 53 then
    if e1 <=? 971 then S754_finite false (Z.to_pos m2) e1
    else S754_infinity false
  else
    if e1 + 1 <=? 971 then S754_finite false (Z.to_pos (2 ^ 52)) (e1 + 1)
    else S754_infinity false.

(* ================================================================== *)
(** ** The clock: [getNextTimestamps] *)
(* ================================================================== *)

(** A [Date] is its time value, an integer number of milliseconds since the
    epoch.  Local time is UTC plus [tza] milliseconds, the same offset over
    the days the function looks at (no daylight-saving change among them),
    and all time values stay within the range of [Date]. *)
Module Date.

Definition msPerHour : Z := 3600000.
Definition msPerDay : Z := 86400000.

(** [LocalTime(t)] and [UTC(t)]. *)
Definition LocalTime (tza t : Z) : Z := t + tza.
Definition UTC (tza t : Z) : Z := t - tza.

(** [Day(t)] and [WeekDay(t)]; day 0 was a Thursday and 0 is Sunday. *)
Definition Day (t : Z) : Z := t / msPerDay.
Definition WeekDay (t : Z) : Z := (Day t + 4) mod 7.

(** [d.getDay()]. *)
Definition getDay (tza t : Z) : Z := WeekDay (LocalTime tza t).

(** [d.setMinutes(0, 0, 0)]: the start of the local hour. *)
Definition setMinutes_zero (tza t : Z) : Z :=
  let l := LocalTime tza t in UTC tza (l - l mod msPerHour).

(** [d.setHours(d.getHours() + k)]: the hour moves, the minutes stay; hour
    24 is the first hour of the next day. *)
Definition addHours (tza t k : Z) : Z :=
  UTC tza (LocalTime tza t + k * msPerHour).

(** [d.setHours(0, 0, 0, 0)]: the local midnight that starts the day. *)
Definition setHours_zero (tza t : Z) : Z :=
  let l := LocalTime tza t in UTC tza (l - l mod msPerDay).

(** [d.setDate(d.getDate() + k)]: the day moves, across the end of a month
    if need be, and the time of day stays. *)
Definition addDays (tza t k : Z) : Z :=
  UTC tza (LocalTime tza t + k * msPerDay).

End Date.

(** [getNextTimestamps], for the clock reading [now]. *)
Definition getNextTimestamps (tza now : Z) : NextTimestamps.t :=
  let nextHour := Date.addHours tza (Date.setMinutes_zero tza now) 1 in
  let nextDay := Date.addDays tza (Date.setHours_zero tza now) 1 in
  let nextWeek := Date.setHours_zero tza now in
  let daysUntilMonday := Z.rem (8 - Date.getDay tza nextWeek) 7 in
  let nextWeek :=
    Date.addDays tza nextWeek
      (if daysUntilMonday =? 0 then 7 else daysUntilMonday) in
  NextTimestamps.mk (nextHour / 1000) (nextDay / 1000) (nextWeek / 1000).

(* ================================================================== *)
(** ** The network: [fetchOHLCData] and the whole of [generatePredictions] *)
(* ================================================================== *)

(** What [response.json()] comes to: a rejection when the body is not JSON,
    a falsy value ([null], [false], [0] or the empty string), a truthy
    value that is not an array (a number, [true], a string, an object; what
    matters of it is whether its [length] property is [0]), or an array.
    The items of an array are taken to be what the endpoint documents: rows
    of five numbers, the first an integer number of milliseconds. *)
Module Body.
Inductive t : Type :=
| Unparsable
| Falsy
| NotArray (lengthIsZero : bool)
| Rows (rows : list Raw.t).
End Body.

(** A response: the [ok] flag, the status, what [response.text()] comes to
    ([None] when it rejects) and what [response.json()] comes to. *)
Module Response.
Record t : Type := mk {
  ok : bool;
  status : Z;
  text : option string;
  json : Body.t
}.
End Response.

(** What [await fetch(url, ...)] comes to: a rejection (no network, no
    such host) or a response. *)
Inductive Fetched : Type :=
| Rejected
| Resolved (response : Response.t).

(** What [fetchOHLCData] throws: an [Error] the script builds, with its
    message; the reason a promise of the runtime rejected with; or the
    [TypeError] of calling [data.map] on a value that has no such
    method. *)
Inductive Thrown : Type :=
| ScriptError (message : string)
| Rejection
| NotAFunction.

(** [String(n)] for an integer. *)
Definition integer_toString (z : Z) : string :=
  (if z <? 0 then "-" else EmptyString) ++ JS.digits (Z.abs z).

(** [fetchOHLCData]: what it throws (the [catch] block logs and throws the
    same again), or the candles. *)
Definition fetchOHLCData (fetched : Fetched) : Thrown + list Candle.t :=
  match fetched with
  | Rejected => inl Rejection
  | Resolved response =>
      if negb (Response.ok response) then
        match Response.text response with
        | None => inl Rejection
        | Some errorText =>
            inl (ScriptError
                   ("HTTP " ++ integer_toString (Response.status response)
                    ++ ": " ++ errorText))
        end
      else
        match Response.json response with
        | Body.Unparsable => inl Rejection
        | Body.Falsy => inl (ScriptError "No OHLC data available")
        | Body.NotArray lengthIsZero =>
            if lengthIsZero then inl (ScriptError "No OHLC data available")
            else inl NotAFunction
        | Body.Rows data =>
            if (List.length data =? 0)%nat
            then inl (ScriptError "No OHLC data available")
            else inr (normalizeOHLCData data)
        end
  end.

(** The object [getCurrentPrice] returns ([None] is the [null] it returns
    on any failure), of which [generatePredictions] reads [price] and
    [change24h]; a property that is not a number (left out by the endpoint,
    or of another type) is [None]. *)
Module CurrentPrice.
Record t : Type := mk { price : option float; change24h : option float }.
End CurrentPrice.

(** Do the two log lines on the current price go through: [.toFixed(2)] on
    a property that is not a number throws. *)
Definition logCurrentPrice (currentPrice : option CurrentPrice.t) : option unit :=
  match currentPrice with
  | None => Some tt
  | Some cp =>
      match CurrentPrice.price cp, CurrentPrice.change24h cp with
      | Some _, Some _ => Some tt
      | _, _ => None
      end
  end.


(* ================================================================== *)
(** ** The preview table: [previewPredictions] *)
(* ================================================================== *)

(** Year, month and day of the month of a day number (proleptic Gregorian
    calendar, as [YearFromTime], [MonthFromTime] and [DateFromTime]). *)
Definition civil_from_days (days : Z) : Z * Z * Z :=
  let z := days + 719468 in
  let era := z / 146097 in
  let doe := z - era * 146097 in
  let yoe := (doe - doe / 1460 + doe / 36524 - doe / 146096) / 365 in
  let doy := doe - (365 * yoe + yoe / 4 - yoe / 100) in
  let mp := (5 * doy + 2) / 153 in
  let d := doy - (153 * mp + 2) / 5 + 1 in
  let m := if mp <? 10 then mp + 3 else mp - 9 in
  let y := yoe + era * 400 + (if m <=? 2 then 1 else 0) in
  (y, m, d).

(** A non-negative integer written with at least [w] digits. *)
Definition padStart (w : nat) (n : Z) : string :=
  let d := JS.digits n in JS.zeros (w - String.length d) ++ d.

(** [new Date(t).toISOString()]; [None] is the [RangeError] on a time value
    that is [NaN] or out of range. *)
Definition Date_toISOString (t : option Z) : option string :=
  match t with
  | None => None
  | Some t =>
      if 8640000000000000 <? Z.abs t then None
      else
        let '(y, m, d) := civil_from_days (Date.Day t) in
        let ms := t mod Date.msPerDay in
        let year :=
          if (0 <=? y) && (y <=? 9999) then padStart 4 y
          else (if y <? 0 then "-" else "+") ++ padStart 6 (Z.abs y) in
        Some (year ++ "-" ++ padStart 2 m ++ "-" ++ padStart 2 d ++ "T"
              ++ padStart 2 (ms / 3600000) ++ ":"
              ++ padStart 2 (ms / 60000 mod 60) ++ ":"
              ++ padStart 2 (ms / 1000 mod 60) ++ "."
              ++ padStart 3 (ms mod 1000) ++ "Z")
  end.

(** [text.replace(c, d)] for one-character strings: the first occurrence. *)
Fixpoint replace_first (c d : ascii) (s : string) : string :=
  match s with
  | EmptyString => EmptyString
  | String a rest =>
      if Ascii.eqb a c then String d rest else String a (replace_first c d rest)
  end.

Definition tab : string := String (ascii_of_nat 9) EmptyString.

(** The texts of the [conf] and [price] columns. *)
Definition preview_conf (p : Prediction.t) : string :=
  JS.toFixed (Prediction.confidence p * 100)%float 0 ++ "%".

Definition preview_price (p : Prediction.t) : string :=
  "$" ++ JS.toFixed (Prediction.price p) 2.

(** The line the callback of [forEach] logs for one prediction. *)
Definition preview_row (p : Prediction.t) : option string :=
  match Date_toISOString (option_map (Z.mul 1000) (Prediction.timestamp p)) with
  | None => None
  | Some iso =>
      let date := replace_first "T" " " (substring 0 16 iso) in
      let colorEmoji :=
        if Color_eqb (Prediction.color p) green then "🟢" else "🔴" in
      Some (date ++ tab ++ colorEmoji ++ " "
            ++ Color_toUpperCase (Prediction.color p) ++ tab ++ tab
            ++ preview_conf p ++ tab ++ preview_price p ++ tab
            ++ Prediction.analysis p)
  end.

(** [array.forEach] with a callback that logs one line and may throw. *)
Fixpoint preview_rows (predictions : list Prediction.t) : option (list string) :=
  match predictions with
  | [] => Some []
  | p :: rest =>
      match preview_row p with
      | None => None
      | Some line =>
          match preview_rows rest with
          | None => None
          | Some lines => Some (line :: lines)
          end
      end
  end.

Section Pipeline.

Variable random : nat -> float.

Notation "x <- m ;; k" := (bind m (fun x => k))
  (at level 61, m at next level, right associativity).

(** [generatePredictions] as a whole, from what [getNextTimestamps]
    returned and what became of the two requests. *)
Definition generatePredictions_fetching (nextTimestamps : NextTimestamps.t)
  (fetched : Fetched) (currentPrice : option CurrentPrice.t)
  (interval : string) (count : nat) : Rand (list Prediction.t) :=
  match fetchOHLCData fetched with
  | inl _ => throw
  | inr historicalData =>
      _ <- lift (logCurrentPrice currentPrice) ;;
      generatePredictions random nextTimestamps historicalData interval count
  end.

(** The rows [previewPredictions] logs, after the clock has been read and
    the candles fetched. *)
Definition previewPredictions (nextTimestamps : NextTimestamps.t)
  (historicalData : list Candle.t) (interval : string) (count : nat)
  : Rand (list string) :=
  predictions <-
    generatePredictions random nextTimestamps historicalData interval count ;;
  lift (preview_rows (JS.slice predictions 0 (Some (Z.of_nat count)))).




End Pipeline.

(* ================================================================== *)
(** ** The generator object and the command line *)
(* ================================================================== *)



Module Generator.
Record t : Type := mk {
  apiKey : option string;
  baseUrl : string;
  proBaseUrl : string;
  coinId : string;
  effectiveBaseUrl : string;
  headers : list (string * string)
}.
End Generator.







(* ================================================================== *)
(** ** Notions the further properties are stated with *)
(* ================================================================== *)

(** [baseTimestamp + i * intervalSeconds[interval]]; [None] is [NaN]. *)
Definition interval_timestamp (interval : string) (baseTimestamp i : Z)
  : option Z :=
  match JS.get intervalSeconds interval with
  | JS.Own seconds => Some (baseTimestamp + i * seconds)
  | _ => None
  end.

(** The draws one call of [generatePricePrediction] makes. *)
Definition draws_per_record (historicalData : list Candle.t) : nat :=
  if (List.length historicalData =? 0)%nat then 3%nat else 1%nat.

(** The record carries the direction, confidence, text and indicators of
    the trend. *)
Definition carries_trend (t : Trend.t) (p : Prediction.t) : Prop :=
  Prediction.color p = Trend.color t
  /\ Prediction.confidence p = Trend.confidence t
  /\ Prediction.analysis p = Trend.analysis t
  /\ Prediction.indicators p = Trend.indicators t.

(** Can [generatePredictions] work with what became of its two requests:
    the fetch resolved to an [ok] response whose body is an array of at
    least one row, and the current-price object is [null] or has both its
    price and its 24 h change as numbers. *)
Definition answers_usable (fetched : Fetched)
  (currentPrice : option CurrentPrice.t) : bool :=
  match fetched with
  | Rejected => false
  | Resolved response =>
      Response.ok response
      && match Response.json response with
         | Body.Rows (_ :: _) => true
         | _ => false
         end
  end
  && match logCurrentPrice currentPrice with
     | Some _ => true
     | None => false
     end.



(** The first field of every line of a CSV text after the header. *)
Definition csv_timestamps (csv : string) : list string :=
  map (fun line => hd EmptyString (split_on comma line))
    (tl (split_on newline_char csv)).


Definition same_timestamp (tau : Z) (c : Candle.t) : bool :=
  Candle.timestamp c =? tau.

(** Three candles with rising close and a volume that grows tenfold from
    one to the next. *)
Definition tradedData : list Candle.t :=
  [ Candle.mk 1000 45.0 46.0 44.5 45.5 (Some 5);
    Candle.mk 2000 45.5 47.0 45.0 46.2 (Some 50);
    Candle.mk 3000 46.2 47.5 46.0 46.8 (Some 500) ]%float.

(** [mrs] is the quotient of [N] by [P], with its round and sticky bits:
    the state of a division whose quotient has been shifted right. *)
Definition scaled (N P : Z) (mrs : shr_record) : Prop :=
  0 <= shr_m mrs
  /\ exists rem t,
       N = shr_m mrs * P + rem
       /\ 0 <= rem < P
       /\ 2 * rem = t + (if shr_r mrs then P else 0)
       /\ 0 <= t < P
       /\ (shr_s mrs = true <-> t <> 0).

(** The smallest price [generatePricePrediction] lets through. *)
Definition price_floor : float := 0.1%float.

(** A signal: bearish, no opinion, or bullish. *)
Definition is_signal (z : Z) : Prop := z = -1 \/ z = 0 \/ z = 1.

(** A candle with its timestamp and its open price blanked. *)
Definition without_time_and_open (c : Candle.t) : Candle.t :=
  Candle.mk 0 0%float (Candle.high c) (Candle.low c) (Candle.close c)
    (Candle.volume c).

(** The three records whose rows [README-predictions.md] shows under "CSV
    Format", and the text it shows for them. *)
Definition readmeRecords : list Prediction.t :=
  [ Prediction.mk (Some 1704067200) red 0.85%float 45.50%float
      "RED (85%): MA downtrend" None;
    Prediction.mk (Some 1704070800) green 0.92%float 46.20%float
      "GREEN (92%): MA uptrend" None;
    Prediction.mk (Some 1704074400) red 0.78%float 44.90%float
      "RED (78%): MA downtrend" None ].

Definition readmeCSV : string :=
  "timestamp,color,confidence,price" ++ newline
  ++ "1704067200,red,0.85,45.50" ++ newline
  ++ "1704070800,green,0.92,46.20" ++ newline
  ++ "1704074400,red,0.78,44.90".

(* ================================================================== *)
(** ** Rounding of binary64 operations on positive numbers *)
(* ================================================================== *)

(** The specification of the primitive operations ([SpecFloat], through the
    axioms of [FloatAxioms]) rounds an exact positive mantissa by shifting
    it right and rounding to nearest even.  The lemmas below bound that
    result by representable numbers, which gives the range of
    [c + r * d] for a draw [r] in [0, 1). *)

Lemma fexp_unfold (z : Z) : fexp z = Z.max (z - 53) (-1074).
Proof. reflexivity. Qed.

Lemma digits2_pos_size (p : positive) : digits2_pos p = Pos.size p.
Proof. induction p; cbn; congruence. Qed.

(** [2^(d-1) <= p < 2^d] for [d] the number of binary digits of [p]. *)
Lemma digits2_pos_bounds (p : positive) :
  2 ^ (Zpos (digits2_pos p) - 1) <= Zpos p < 2 ^ Zpos (digits2_pos p).
Proof.
  rewrite digits2_pos_size. split.
  - pose proof (Pos.size_le p) as H.
    assert (Hz : 2 ^ Zpos (Pos.size p) <= 2 * Zpos p).
    { rewrite <- Pos2Z.inj_pow. change (2 * Zpos p) with (Zpos (p~0)). exact H. }
    replace (Zpos (Pos.size p)) with (Zpos (Pos.size p) - 1 + 1) in Hz by lia.
    rewrite Z.pow_add_r in Hz by lia. lia.
  - pose proof (Pos.size_gt p) as H. rewrite <- Pos2Z.inj_pow. exact H.
Qed.

(** The number of digits is monotone in the value scaled by a power of 2. *)
Lemma digits_le_of_lt_pow2 (p : positive) (n : Z) :
  Zpos p < 2 ^ n -> Zpos (digits2_pos p) <= n.
Proof.
  intros H. pose proof (digits2_pos_bounds p) as [Hlo _].
  destruct (Z_lt_le_dec n (Zpos (digits2_pos p))) as [Hlt|]; [|assumption].
  exfalso.
  assert (0 <= n \/ n < 0) as [Hn|Hn] by lia.
  - assert (2 ^ n <= 2 ^ (Zpos (digits2_pos p) - 1))
      by (apply Z.pow_le_mono_r; lia).
    lia.
  - rewrite Z.pow_neg_r in H by assumption. lia.
Qed.

Lemma digits_ge_of_ge_pow2 (p : positive) (n : Z) :
  2 ^ n <= Zpos p -> n + 1 <= Zpos (digits2_pos p).
Proof.
  intros H. pose proof (digits2_pos_bounds p) as [_ Hhi].
  destruct (Z_lt_le_dec (Zpos (digits2_pos p)) (n + 1)) as [Hlt|]; [|assumption].
  exfalso.
  assert (2 ^ Zpos (digits2_pos p) <= 2 ^ n) by (apply Z.pow_le_mono_r; lia).
  lia.
Qed.

(** *** Right shifts with round and sticky bits *)

Lemma iter_pos_nat {A : Type} (f : A -> A) (p : positive) (x : A) :
  iter_pos f p x = Nat.iter (Pos.to_nat p) f x.
Proof.
  revert x. induction p as [p IH|p IH|]; intros x; cbn [iter_pos].
  - rewrite !IH, Pos2Nat.inj_xI.
    replace (S (2 * Pos.to_nat p)) with (Pos.to_nat p + (Pos.to_nat p + 1))%nat by lia.
    rewrite !Nat.iter_add. reflexivity.
  - rewrite !IH, Pos2Nat.inj_xO.
    replace (2 * Pos.to_nat p)%nat with (Pos.to_nat p + Pos.to_nat p)%nat by lia.
    rewrite Nat.iter_add. reflexivity.
  - reflexivity.
Qed.

Lemma shifted_init (M : Z) :
  0 <= M -> shifted M 0 (Build_shr_record M false false).
Proof.
  intros HM. split; [exact HM|]. exists 0, 0. cbn. repeat split; try lia; try discriminate.
Qed.

Lemma shifted_step (M k : Z) (mrs : shr_record) :
  0 <= k -> shifted M k mrs -> shifted M (k + 1) (shr_1 mrs).
Proof.
  intros Hk (Hm & rem & t & HM & Hrem & Ht & Htb & Hs).
  destruct mrs as [m r s]. cbn [shr_m shr_r shr_s] in *.
  assert (HP : 0 < 2 ^ k) by (apply Z.pow_pos_nonneg; lia).
  assert (HP1 : 2 ^ (k + 1) = 2 * 2 ^ k)
    by (rewrite Z.pow_add_r by lia; change (2 ^ 1) with 2; lia).
  assert (Hs' : orb r s = true <-> 2 * rem <> 0).
  { destruct r; cbn [orb].
    - split; [lia | reflexivity].
    - rewrite Hs. lia. }
  unfold shifted. rewrite HP1.
  destruct m as [|[p|p|]|p]; try lia; cbn [shr_1 shr_m shr_r shr_s];
    (split; [lia|]).
  - exists rem, (2 * rem). repeat split; try lia; apply Hs'.
  - exists (2 ^ k + rem), (2 * rem). rewrite Pos2Z.inj_xI in HM.
    repeat split; try lia; apply Hs'.
  - exists rem, (2 * rem). rewrite Pos2Z.inj_xO in HM.
    repeat split; try lia; apply Hs'.
  - exists (2 ^ k + rem), (2 * rem).
    repeat split; try lia; apply Hs'.
Qed.

Lemma shifted_iter (M : Z) (n : nat) (mrs : shr_record) (k : Z) :
  0 <= k -> shifted M k mrs ->
  shifted M (k + Z.of_nat n) (Nat.iter n shr_1 mrs).
Proof.
  intros Hk H. induction n as [|n IH].
  - now rewrite Z.add_0_r.
  - cbn [Nat.iter]. replace (k + Z.of_nat (S n)) with (k + Z.of_nat n + 1) by lia.
    apply shifted_step; [lia | exact IH].
Qed.

(** [shr] on an exact record: the exponent moves by [max k 0]. *)
Lemma shr_shifted (M e k : Z) :
  0 <= M ->
  let '(mrs, e') := shr (Build_shr_record M false false) e k in
  shifted M (Z.max k 0) mrs /\ e' = e + Z.max k 0.
Proof.
  intros HM. destruct k as [|p|p]; cbn [shr].
  - split; [now apply shifted_init | lia].
  - split; [|lia]. rewrite iter_pos_nat.
    replace (Z.max (Zpos p) 0) with (0 + Z.of_nat (Pos.to_nat p)) by lia.
    apply shifted_iter; [lia | now apply shifted_init].
  - split; [now apply shifted_init | lia].
Qed.

(** Rounding to nearest even after a shift by [k] bits stays at or below
    every integer [b] whose midpoint with [b + 1] is above [M / 2^k], and at
    or above every integer [a] that is at most [M / 2^k]. *)
Lemma round_nearest_even_upper (M k b : Z) (mrs : shr_record) :
  0 <= k -> shifted M k mrs ->
  2 * M < (2 * b + 1) * 2 ^ k ->
  round_nearest_even (shr_m mrs) (loc_of_shr_record mrs) <= b.
Proof.
  intros Hk (Hm & rem & t & HM & Hrem & Ht & Htb & Hs) Hb.
  assert (HP : 0 < 2 ^ k) by (apply Z.pow_pos_nonneg; lia).
  destruct mrs as [m r s]. cbn [shr_m shr_r shr_s] in *.
  assert (Hq : m <= b) by nia.
  destruct r, s; cbn [loc_of_shr_record round_nearest_even];
    try destruct (Z.even m); try lia; nia.
Qed.

Lemma round_nearest_even_lower (M k a : Z) (mrs : shr_record) :
  0 <= k -> shifted M k mrs ->
  a * 2 ^ k <= M ->
  a <= round_nearest_even (shr_m mrs) (loc_of_shr_record mrs).
Proof.
  intros Hk (Hm & rem & t & HM & Hrem & Ht & Htb & Hs) Ha.
  assert (HP : 0 < 2 ^ k) by (apply Z.pow_pos_nonneg; lia).
  destruct mrs as [m r s]. cbn [shr_m shr_r shr_s] in *.
  assert (Hq : a <= m) by nia.
  destruct r, s; cbn [loc_of_shr_record round_nearest_even];
    try destruct (Z.even m); lia.
Qed.

Lemma round_nearest_even_nonneg (M k : Z) (mrs : shr_record) :
  shifted M k mrs ->
  0 <= round_nearest_even (shr_m mrs) (loc_of_shr_record mrs).
Proof.
  intros (Hm & _). destruct mrs as [m r s]. cbn [shr_m] in Hm.
  destruct r, s; cbn [loc_of_shr_record round_nearest_even shr_m];
    try destruct (Z.even m); lia.
Qed.

Lemma Zdigits2_small (m2 : Z) :
  0 < m2 < 2 ^ 53 -> Zdigits2 m2 <= 53.
Proof.
  intros H. destruct m2 as [|p|p]; try lia. cbn [Zdigits2].
  apply digits_le_of_lt_pow2. lia.
Qed.

Lemma binary_round_aux_cases (m : positive) (e : Z) :
  let e1 := fexp (Zpos (digits2_pos m) + e) in
  let k := e1 - e in
  0 <= k ->
  exists m2,
    0 <= m2 <= 2 ^ 53
    /\ (forall b, 2 * Zpos m < (2 * b + 1) * 2 ^ k -> m2 <= b)
    /\ (forall a, a * 2 ^ k <= Zpos m -> a <= m2)
    /\ binary_round_aux prec emax false (Zpos m) e loc_Exact
       = rounded_result m2 e1.
Proof.
  intros e1 k Hk.
  assert (He1 : -1074 <= e1) by (unfold e1; rewrite fexp_unfold; lia).
  assert (Hd : Zpos (digits2_pos m) - 53 <= k)
    by (unfold k, e1; rewrite fexp_unfold; lia).
  pose proof (digits2_pos_bounds m) as [_ Hm].
  unfold binary_round_aux, shr_fexp.
  cbn [Zdigits2 shr_record_of_loc]. fold e1. fold k.
  pose proof (shr_shifted (Zpos m) e k ltac:(lia)) as Hshr.
  destruct (shr (Build_shr_record (Zpos m) false false) e k) as [mrs e'].
  destruct Hshr as [Hsh He']. rewrite Z.max_l in Hsh, He' by lia.
  assert (He'1 : e' = e1) by (unfold k in He'; lia). rewrite He'1. clear He' He'1.
  set (m2 := round_nearest_even (shr_m mrs) (loc_of_shr_record mrs)).
  assert (Hup : forall b, 2 * Zpos m < (2 * b + 1) * 2 ^ k -> m2 <= b)
    by (intros b; apply round_nearest_even_upper; assumption).
  assert (Hlo : forall a, a * 2 ^ k <= Zpos m -> a <= m2)
    by (intros a; apply round_nearest_even_lower; assumption).
  assert (H0 : 0 <= m2) by (eapply round_nearest_even_nonneg; eassumption).
  assert (H53 : m2 <= 2 ^ 53).
  { apply Hup.
    assert (HP : 0 < 2 ^ k) by (apply Z.pow_pos_nonneg; lia).
    assert (Zpos m < 2 ^ 53 * 2 ^ k).
    { rewrite <- Z.pow_add_r by lia.
      eapply Z.lt_le_trans; [exact Hm|]. apply Z.pow_le_mono_r; lia. }
    nia. }
  exists m2. split; [lia|]. split; [exact Hup|]. split; [exact Hlo|].
  unfold rounded_result.
  destruct (Z.eqb_spec m2 0) as [E0|N0].
  - rewrite E0. cbn [Zdigits2].
    replace (fexp (0 + e1) - e1) with (Z.max (e1 - 53) (-1074) - e1)
      by (rewrite fexp_unfold; f_equal; f_equal; lia).
    destruct (Z.max (e1 - 53) (-1074) - e1) as [|p|p] eqn:Ek; try lia;
      reflexivity.
  - destruct (Z.ltb_spec m2 (2 ^ 53)) as [Hlt|Hge].
    + pose proof (Zdigits2_small m2 ltac:(lia)) as Hdig.
      assert (Ek : fexp (Zdigits2 m2 + e1) - e1 <= 0)
        by (rewrite fexp_unfold; lia).
      destruct (fexp (Zdigits2 m2 + e1) - e1) as [|p|p]; try lia;
        cbn [shr shr_m]; destruct m2 as [|q|q]; try lia; reflexivity.
    + assert (E : m2 = 2 ^ 53) by lia. rewrite E.
      replace (fexp (Zdigits2 (2 ^ 53) + e1) - e1) with 1.
      * reflexivity.
      * change (Zdigits2 (2 ^ 53)) with 54. rewrite fexp_unfold. lia.
Qed.

(** *** Bounded mantissas *)

Lemma bounded_facts (m : positive) (e : Z) :
  bounded prec emax m e = true ->
  fexp (Zpos (digits2_pos m) + e) = e
  /\ -1074 <= e <= 971
  /\ Zpos m < 2 ^ 53
  /\ (-1074 < e -> 2 ^ 52 <= Zpos m).
Proof.
  unfold bounded, canonical_mantissa. intros H.
  apply andb_prop in H. destruct H as [Hc He].
  apply Z.eqb_eq in Hc. apply Z.leb_le in He.
  change (emax - prec) with 971 in He.
  pose proof (digits2_pos_bounds m) as [Hlo Hhi].
  rewrite fexp_unfold in Hc.
  split; [rewrite fexp_unfold; exact Hc|]. split; [lia|]. split.
  - eapply Z.lt_le_trans; [exact Hhi|]. apply Z.pow_le_mono_r; lia.
  - intros Hn. eapply Z.le_trans; [|exact Hlo]. apply Z.pow_le_mono_r; lia.
Qed.

Lemma fexp_mono (a b : Z) : a <= b -> fexp a <= fexp b.
Proof. intros H. rewrite !fexp_unfold. lia. Qed.

Lemma SFleb_finite (m1 : positive) (e1 : Z) (m2 : positive) (e2 : Z) :
  SFleb (S754_finite false m1 e1) (S754_finite false m2 e2) = true
  <-> e1 < e2 \/ (e1 = e2 /\ Zpos m1 <= Zpos m2).
Proof.
  unfold SFleb, SFcompare.
  destruct (Z.compare_spec e1 e2) as [E|L|G].
  - rewrite Pos.compare_cont_spec. cbn [Pos.switch_Eq].
    destruct (Pos.compare_spec m1 m2) as [E'|L'|G']; split; intros H;
      try discriminate; try reflexivity; try lia.
  - split; [lia | reflexivity].
  - split; [discriminate | lia].
Qed.

Lemma SFleb_finite_bound (mx : positive) (ex : Z) (mb : positive) (eb : Z) :
  bounded prec emax mx ex = true ->
  2 ^ 52 <= Zpos mb ->
  SFleb (S754_finite false mx ex) (S754_finite false mb eb) = true ->
  ex <= eb /\ Zpos mx <= Zpos mb * 2 ^ (eb - ex).
Proof.
  intros Hx Hb H. apply SFleb_finite in H.
  destruct (bounded_facts mx ex Hx) as (_ & _ & Hm & _).
  destruct H as [Hlt | [-> Hle]].
  - split; [lia|].
    assert (2 <= 2 ^ (eb - ex)).
    { change 2 with (2 ^ 1) at 1. apply Z.pow_le_mono_r; lia. }
    change (2 ^ 53) with (2 * 2 ^ 52) in Hm. nia.
  - split; [lia|]. rewrite Z.sub_diag. cbn. lia.
Qed.

(** *** Rounding against a representable bound *)

Lemma binary_round_aux_le (m : positive) (e : Z) (mb : positive) (eb : Z) :
  e <= fexp (Zpos (digits2_pos m) + e) ->
  bounded prec emax mb eb = true ->
  e <= eb ->
  2 * Zpos m < (2 * Zpos mb + 1) * 2 ^ (eb - e) ->
  SFleb (binary_round_aux prec emax false (Zpos m) e loc_Exact)
    (S754_finite false mb eb) = true.
Proof.
  intros Hk Hb Hee Hv.
  destruct (bounded_facts mb eb Hb) as (Hcb & Heb & Hmb & Hnb).
  pose proof (digits2_pos_bounds mb) as [_ Hdb].
  set (d := Zpos (digits2_pos m)) in *.
  set (db := Zpos (digits2_pos mb)) in *.
  assert (HP : 0 < 2 ^ (eb - e)) by (apply Z.pow_pos_nonneg; lia).
  assert (He1 : fexp (d + e) <= eb).
  { rewrite <- Hcb. apply fexp_mono.
    assert (Zpos m < 2 ^ (db + (eb - e))).
    { rewrite Z.pow_add_r by lia. nia. }
    pose proof (digits_le_of_lt_pow2 m _ H). fold d in H0. lia. }
  destruct (binary_round_aux_cases m e ltac:(fold d; lia))
    as (m2 & Hm2 & Hup & _ & ->).
  fold d in Hup |- *. unfold rounded_result.
  destruct (Z.eqb_spec m2 0) as [E0|N0]; [reflexivity|].
  destruct (Z.eq_dec (fexp (d + e)) eb) as [Eeq|Ene].
  - rewrite Eeq in *. specialize (Hup (Zpos mb) Hv).
    destruct (Z.ltb_spec m2 (2 ^ 53)); [|lia].
    destruct (Z.leb_spec eb 971); [|lia].
    apply SFleb_finite. right. split; [reflexivity|].
    rewrite Z2Pos.id by lia. exact Hup.
  - assert (Hlt : fexp (d + e) < eb) by lia.
    assert (Hnorm : 2 ^ 52 <= Zpos mb).
    { apply Hnb. rewrite fexp_unfold in Hlt. lia. }
    destruct (Z.ltb_spec m2 (2 ^ 53)).
    + destruct (Z.leb_spec (fexp (d + e)) 971); [|lia].
      apply SFleb_finite. now left.
    + destruct (Z.leb_spec (fexp (d + e) + 1) 971); [|lia].
      apply SFleb_finite.
      destruct (Z.eq_dec (fexp (d + e) + 1) eb) as [E|N]; [right|left; lia].
      split; [exact E|]. rewrite Z2Pos.id by lia. exact Hnorm.
Qed.

Lemma binary_round_aux_ge (m : positive) (e : Z) (ma : positive) (ea : Z) :
  e <= fexp (Zpos (digits2_pos m) + e) ->
  bounded prec emax ma ea = true ->
  e <= ea ->
  Zpos ma * 2 ^ (ea - e) <= Zpos m ->
  SFleb (S754_finite false ma ea)
    (binary_round_aux prec emax false (Zpos m) e loc_Exact) = true.
Proof.
  intros Hk Ha Hee Hv.
  destruct (bounded_facts ma ea Ha) as (Hca & Hea & Hma & Hna).
  pose proof (digits2_pos_bounds ma) as [Hda _].
  pose proof (digits2_pos_bounds m) as [Hdm _].
  set (d := Zpos (digits2_pos m)) in *.
  set (da := Zpos (digits2_pos ma)) in *.
  assert (HP : 0 < 2 ^ (ea - e)) by (apply Z.pow_pos_nonneg; lia).
  assert (Hda1 : 1 <= da) by (unfold da; lia).
  assert (He1 : ea <= fexp (d + e)).
  { rewrite <- Hca. apply fexp_mono.
    assert (2 ^ (da - 1 + (ea - e)) <= Zpos m).
    { rewrite Z.pow_add_r by lia. nia. }
    pose proof (digits_ge_of_ge_pow2 m _ H). fold d in H0. lia. }
  destruct (binary_round_aux_cases m e ltac:(fold d; lia))
    as (m2 & Hm2 & _ & Hlo & ->).
  fold d in Hlo |- *. unfold rounded_result.
  assert (Hfin : forall mr er, ea < er ->
            SFleb (S754_finite false ma ea)
              (if er <=? 971 then S754_finite false mr er
               else S754_infinity false) = true).
  { intros mr er Her. destruct (er <=? 971); [|reflexivity].
    apply SFleb_finite. now left. }
  destruct (Z.eq_dec (fexp (d + e)) ea) as [Eeq|Ene].
  - rewrite Eeq in *. specialize (Hlo (Zpos ma) Hv).
    destruct (Z.eqb_spec m2 0); [lia|].
    destruct (Z.ltb_spec m2 (2 ^ 53)); [|apply Hfin; lia].
    destruct (Z.leb_spec ea 971); [|lia].
    apply SFleb_finite. right. split; [reflexivity|].
    rewrite Z2Pos.id by lia. exact Hlo.
  - assert (Hgt : ea < fexp (d + e)) by lia.
    assert (Hk53 : fexp (d + e) - e = d - 53)
      by (rewrite fexp_unfold in Hgt |- *; lia).
    assert (H52 : 2 ^ 52 <= m2).
    { apply Hlo. rewrite Hk53, <- Z.pow_add_r by lia.
      replace (52 + (d - 53)) with (d - 1) by lia. exact Hdm. }
    destruct (Z.eqb_spec m2 0); [lia|].
    destruct (Z.ltb_spec m2 (2 ^ 53)); apply Hfin; lia.
Qed.

(** *** Alignment, [binary_round], and the operations on positive numbers *)

Lemma iter_xO_pow2 (m d : positive) :
  Zpos (Pos.iter xO m d) = Zpos m * 2 ^ Zpos d.
Proof.
  induction d as [|d IH] using Pos.peano_ind.
  - cbn [Pos.iter]. rewrite Pos2Z.inj_xO. lia.
  - rewrite Pos.iter_succ, Pos2Z.inj_xO, IH, Pos2Z.inj_succ, Z.pow_succ_r by lia.
    lia.
Qed.

Lemma shl_align_spec (m : positive) (e e' : Z) :
  exists mz ez,
    shl_align m e e' = (mz, ez)
    /\ ez = Z.min e e'
    /\ Zpos mz = Zpos m * 2 ^ (e - ez).
Proof.
  unfold shl_align. destruct (e' - e) as [|p|p] eqn:E.
  - exists m, e. repeat split; [lia|].
    rewrite Z.sub_diag. cbn. lia.
  - exists m, e. repeat split; [lia|].
    rewrite Z.sub_diag. cbn. lia.
  - exists (Pos.iter xO m p), e'. repeat split; [lia|].
    rewrite iter_xO_pow2. f_equal. f_equal. lia.
Qed.

Lemma digits_shift (m mz : positive) (n : Z) :
  0 <= n -> Zpos mz = Zpos m * 2 ^ n ->
  Zpos (digits2_pos mz) = Zpos (digits2_pos m) + n.
Proof.
  intros Hn Hmz.
  pose proof (digits2_pos_bounds m) as [Hlo Hhi].
  assert (HP : 0 < 2 ^ n) by (apply Z.pow_pos_nonneg; lia).
  assert (H1 : Zpos (digits2_pos mz) <= Zpos (digits2_pos m) + n).
  { apply digits_le_of_lt_pow2. rewrite Hmz, Z.pow_add_r by lia. nia. }
  assert (H2 : Zpos (digits2_pos m) - 1 + n + 1 <= Zpos (digits2_pos mz)).
  { apply digits_ge_of_ge_pow2. rewrite Hmz, Z.pow_add_r by lia. nia. }
  lia.
Qed.

Lemma binary_round_spec (M : positive) (e : Z) :
  exists mz ez,
    binary_round prec emax false M e
    = binary_round_aux prec emax false (Zpos mz) ez loc_Exact
    /\ ez <= e
    /\ Zpos mz = Zpos M * 2 ^ (e - ez)
    /\ ez <= fexp (Zpos (digits2_pos mz) + ez).
Proof.
  unfold binary_round.
  destruct (shl_align_spec M e (fexp (Zpos (digits2_pos M) + e)))
    as (mz & ez & -> & Hez & Hmz).
  exists mz, ez. split; [reflexivity|]. split; [lia|]. split; [exact Hmz|].
  rewrite (digits_shift M mz (e - ez)) by (lia || exact Hmz).
  replace (Zpos (digits2_pos M) + (e - ez) + ez)
    with (Zpos (digits2_pos M) + e) by lia.
  lia.
Qed.

Lemma binary_round_le (M : positive) (e : Z) (mb : positive) (eb : Z) :
  bounded prec emax mb eb = true ->
  e <= eb ->
  2 * Zpos M < (2 * Zpos mb + 1) * 2 ^ (eb - e) ->
  SFleb (binary_round prec emax false M e) (S754_finite false mb eb) = true.
Proof.
  intros Hb Hee Hv.
  destruct (binary_round_spec M e) as (mz & ez & -> & Hez & Hmz & Hk).
  apply binary_round_aux_le; try assumption; [lia|].
  rewrite Hmz. replace (eb - ez) with ((eb - e) + (e - ez)) by lia.
  rewrite Z.pow_add_r by lia.
  assert (0 < 2 ^ (e - ez)) by (apply Z.pow_pos_nonneg; lia).
  nia.
Qed.

Lemma binary_round_ge (M : positive) (e : Z) (ma : positive) (ea : Z) :
  bounded prec emax ma ea = true ->
  e <= ea ->
  Zpos ma * 2 ^ (ea - e) <= Zpos M ->
  SFleb (S754_finite false ma ea) (binary_round prec emax false M e) = true.
Proof.
  intros Ha Hee Hv.
  destruct (binary_round_spec M e) as (mz & ez & -> & Hez & Hmz & Hk).
  apply binary_round_aux_ge; try assumption; [lia|].
  rewrite Hmz. replace (ea - ez) with ((ea - e) + (e - ez)) by lia.
  rewrite Z.pow_add_r by lia.
  assert (0 < 2 ^ (e - ez)) by (apply Z.pow_pos_nonneg; lia).
  nia.
Qed.

(** The sum of two positive finite numbers is the rounding of the exact
    sum of the aligned mantissas. *)
Lemma SFadd_pos (mx : positive) (ex : Z) (my : positive) (ey : Z) :
  exists M,
    SFadd prec emax (S754_finite false mx ex) (S754_finite false my ey)
    = binary_round prec emax false M (Z.min ex ey)
    /\ Zpos M = Zpos mx * 2 ^ (ex - Z.min ex ey)
                + Zpos my * 2 ^ (ey - Z.min ex ey).
Proof.
  cbn [SFadd cond_Zopp].
  destruct (shl_align_spec mx ex (Z.min ex ey)) as (ax & e1 & -> & He1 & Hax).
  destruct (shl_align_spec my ey (Z.min ex ey)) as (ay & e2 & -> & He2 & Hay).
  cbn [fst]. exists (ax + ay)%positive. split; [reflexivity|].
  rewrite Pos2Z.inj_add, Hax, Hay.
  replace e1 with (Z.min ex ey) by lia. replace e2 with (Z.min ex ey) by lia.
  reflexivity.
Qed.

(** The product of two positive bounded numbers, one of them normal, is
    the rounding of the exact product. *)
Lemma SFmul_pos_shift (mx : positive) (ex : Z) (my : positive) (ey : Z) :
  bounded prec emax mx ex = true ->
  2 ^ 52 <= Zpos my ->
  ex + ey <= fexp (Zpos (digits2_pos (mx * my)) + (ex + ey)).
Proof.
  intros Hx Hy.
  assert (H : 52 + 1 <= Zpos (digits2_pos (mx * my))).
  { apply digits_ge_of_ge_pow2. rewrite Pos2Z.inj_mul. nia. }
  rewrite fexp_unfold. lia.
Qed.

(** *** Primitive floats between 0 and a positive bound *)

Lemma Prim2SF_zero : Prim2SF 0 = S754_zero false.
Proof. vm_compute. reflexivity. Qed.

Lemma Prim2SF_one : Prim2SF 1 = S754_finite false 4503599627370496 (-52).
Proof. vm_compute. reflexivity. Qed.

Lemma bounded_of_Prim2SF (b : float) (mb : positive) (eb : Z) :
  Prim2SF b = S754_finite false mb eb -> bounded prec emax mb eb = true.
Proof.
  intros Hb. pose proof (Prim2SF_valid b) as Hv. rewrite Hb in Hv. exact Hv.
Qed.

Lemma rounded_result_nonneg (m2 e1 : Z) :
  SFleb (S754_zero false) (rounded_result m2 e1) = true.
Proof.
  unfold rounded_result.
  repeat match goal with
         | |- context [if ?b then _ else _] => destruct b
         end; reflexivity.
Qed.

(** A float between 0 and a positive finite bound is a zero or a positive
    bounded number below the bound. *)
Lemma Prim2SF_between (x b : float) (mb : positive) (eb : Z) :
  Prim2SF b = S754_finite false mb eb ->
  (0 <=? x)%float = true -> (x <=? b)%float = true ->
  (exists s, Prim2SF x = S754_zero s)
  \/ (exists m e, Prim2SF x = S754_finite false m e
                  /\ bounded prec emax m e = true
                  /\ SFleb (S754_finite false m e) (S754_finite false mb eb) = true).
Proof.
  intros Hb H0 Hx. rewrite leb_spec in H0, Hx. rewrite Hb in Hx.
  rewrite Prim2SF_zero in H0.
  pose proof (Prim2SF_valid x) as Hv.
  destruct (Prim2SF x) as [s|s| |s m e]; try discriminate.
  - left. now exists s.
  - destruct s; discriminate.
  - destruct s; [discriminate|]. right. exists m, e. repeat split; assumption.
Qed.

(** A float in [0, 1) is a zero or a positive bounded number with exponent
    at most -53. *)
Lemma Prim2SF_unit (r : float) :
  (0 <=? r)%float = true -> (r <? 1)%float = true ->
  (exists s, Prim2SF r = S754_zero s)
  \/ (exists m e, Prim2SF r = S754_finite false m e
                  /\ bounded prec emax m e = true /\ e <= -53).
Proof.
  intros H0 H1.
  assert (Hle : (r <=? 1)%float = true).
  { rewrite leb_spec. rewrite ltb_spec in H1. unfold SFleb, SFltb in *.
    destruct (SFcompare (Prim2SF r) (Prim2SF 1)) as [[| |]|];
      try discriminate; reflexivity. }
  destruct (Prim2SF_between r 1 4503599627370496 (-52) Prim2SF_one H0 Hle)
    as [Hz | (m & e & Hr & Hb & _)]; [now left|].
  right. exists m, e. split; [exact Hr|]. split; [exact Hb|].
  rewrite ltb_spec, Hr, Prim2SF_one in H1.
  unfold SFltb, SFcompare in H1.
  destruct (bounded_facts m e Hb) as (_ & _ & _ & Hn).
  assert (E52 : 2 ^ 52 = 4503599627370496) by (vm_compute; reflexivity).
  rewrite E52 in Hn.
  destruct (Z.compare_spec e (-52)) as [E|L|G]; try discriminate; [|lia].
  rewrite Pos.compare_cont_spec in H1. cbn [Pos.switch_Eq] in H1.
  destruct (m ?= 4503599627370496)%positive eqn:Ec; try discriminate.
  assert (Hz : Zpos m < 4503599627370496) by exact Ec.
  clear Ec H1. lia.
Qed.

(** [r * c] for [r] in [0, 1) and a normal positive constant [c] lies
    between 0 and every bounded [b] whose midpoint with its successor is
    above every product. *)
Lemma mul_unit_bounds (r c b : float) (mc : positive) (ec : Z)
  (mb : positive) (eb : Z) :
  Prim2SF c = S754_finite false mc ec ->
  Prim2SF b = S754_finite false mb eb ->
  2 ^ 52 <= Zpos mc ->
  ec - 53 <= eb ->
  (forall m e, Zpos m < 2 ^ 53 -> e <= -53 ->
     2 * (Zpos m * Zpos mc) < (2 * Zpos mb + 1) * 2 ^ (eb - (e + ec))) ->
  (0 <=? r)%float = true -> (r <? 1)%float = true ->
  (0 <=? r * c)%float = true /\ (r * c <=? b)%float = true.
Proof.
  intros Hc Hb Hnorm Hexp Hval H0 H1.
  pose proof (bounded_of_Prim2SF b mb eb Hb) as Hvb.
  rewrite !leb_spec, mul_spec, Hc, Hb, Prim2SF_zero.
  destruct (Prim2SF_unit r H0 H1) as [[s ->] | (m & e & -> & Hbm & He)].
  - unfold SF64mul, SFmul. cbn [xorb]. split; reflexivity.
  - unfold SF64mul, SFmul. cbn [xorb].
    pose proof (SFmul_pos_shift m e mc ec Hbm Hnorm) as Hk.
    destruct (bounded_facts m e Hbm) as (_ & _ & Hm53 & _).
    split.
    + destruct (binary_round_aux_cases (m * mc) (e + ec) ltac:(lia))
        as (m2 & _ & _ & _ & ->).
      apply rounded_result_nonneg.
    + apply binary_round_aux_le; try assumption; [lia|].
      rewrite Pos2Z.inj_mul. now apply Hval.
Qed.

(** [c + t] for a positive constant [c] and [t] between 0 and a normal
    bound [bt], against a lower bound [c] and an upper bound [b]. *)
Lemma add_const_bounds (c t bt b : float) (mc : positive) (ec : Z)
  (mt : positive) (et : Z) (mb : positive) (eb : Z) :
  Prim2SF c = S754_finite false mc ec ->
  Prim2SF bt = S754_finite false mt et ->
  Prim2SF b = S754_finite false mb eb ->
  2 ^ 52 <= Zpos mt ->
  et <= ec -> ec <= eb ->
  (c <=? b)%float = true ->
  (forall m e, e <= et -> Zpos m <= Zpos mt * 2 ^ (et - e) ->
     2 * (Zpos mc * 2 ^ (ec - e) + Zpos m) < (2 * Zpos mb + 1) * 2 ^ (eb - e)) ->
  (0 <=? t)%float = true -> (t <=? bt)%float = true ->
  (c <=? c + t)%float = true /\ (c + t <=? b)%float = true.
Proof.
  intros Hc Hbt Hb Hnorm Hetc Hecb Hcb Hval H0 Ht.
  pose proof (bounded_of_Prim2SF b mb eb Hb) as Hvb.
  pose proof (bounded_of_Prim2SF c mc ec Hc) as Hvc.
  rewrite leb_spec, Hc, Hb in Hcb.
  rewrite !leb_spec, add_spec, Hc, Hb.
  destruct (Prim2SF_between t bt mt et Hbt H0 Ht)
    as [[s ->] | (m & e & -> & Hbm & Hle)].
  - unfold SF64add, SFadd. split; [|exact Hcb].
    apply SFleb_finite. right. split; [reflexivity | lia].
  - destruct (SFleb_finite_bound m e mt et Hbm Hnorm Hle) as [He Hm].
    unfold SF64add.
    destruct (SFadd_pos mc ec m e) as (M & -> & HM).
    rewrite Z.min_r in * by lia. rewrite Z.sub_diag in HM.
    change (2 ^ 0) with 1 in HM. rewrite Z.mul_1_r in HM.
    assert (HP : 0 < 2 ^ (ec - e)) by (apply Z.pow_pos_nonneg; lia).
    split.
    + apply binary_round_ge; [assumption | lia | lia].
    + apply binary_round_le; [assumption | lia |].
      rewrite HM. now apply Hval.
Qed.

(** [x <= a] gives [x < b] when [b] is the successor of [a] in its binade. *)
Lemma leb_ltb_next (x a b : float) (ma : positive) (ea : Z) :
  Prim2SF a = S754_finite false ma ea ->
  Prim2SF b = S754_finite false (ma + 1) ea ->
  (x <=? a)%float = true -> (x <? b)%float = true.
Proof.
  intros Ha Hb Hx. rewrite leb_spec, Ha in Hx. rewrite ltb_spec, Hb.
  destruct (Prim2SF x) as [s|s| |s m e]; try discriminate.
  - reflexivity.
  - destruct s; [reflexivity | discriminate].
  - destruct s; [reflexivity|].
    apply SFleb_finite in Hx. unfold SFltb, SFcompare.
    destruct (Z.compare_spec e ea) as [E|L|G]; [|reflexivity|lia].
    rewrite Pos.compare_cont_spec. cbn [Pos.switch_Eq].
    assert (Hlt : (m < ma + 1)%positive) by lia.
    apply Pos.compare_lt_iff in Hlt. now rewrite Hlt.
Qed.

Lemma pow2_split (a b : Z) : 0 <= a -> 0 <= b -> 2 ^ (a + b) = 2 ^ a * 2 ^ b.
Proof. intros. apply Z.pow_add_r; assumption. Qed.

(** The price of the fallback: [45 + r * 10] for a draw [r] in [0, 1). *)
Lemma fallback_price_bounds (r : float) :
  (0 <=? r)%float = true -> (r <? 1)%float = true ->
  (45 <=? 45 + r * 10)%float = true /\ (45 + r * 10 <=? 55)%float = true.
Proof.
  intros H0 H1.
  assert (H10 : Prim2SF 10 = S754_finite false 5629499534213120 (-49))
    by (vm_compute; reflexivity).
  assert (H45 : Prim2SF 45 = S754_finite false 6333186975989760 (-47))
    by (vm_compute; reflexivity).
  assert (H55 : Prim2SF 55 = S754_finite false 7740561859543040 (-47))
    by (vm_compute; reflexivity).
  assert (E52 : 2 ^ 52 = 4503599627370496) by (vm_compute; reflexivity).
  assert (E53 : 2 ^ 53 = 9007199254740992) by (vm_compute; reflexivity).
  destruct (mul_unit_bounds r 10 10 _ _ _ _ H10 H10) as [Ht0 Ht10];
    try assumption; try (rewrite E52; lia); try lia.
  { intros m e Hm He. rewrite E53 in Hm.
    replace (-49 - (e + -49)) with (53 + (- e - 53)) by lia.
    rewrite pow2_split, E53 by lia.
    assert (0 < 2 ^ (- e - 53)) by (apply Z.pow_pos_nonneg; lia).
    lia. }
  apply (add_const_bounds 45 (r * 10) 10 55 _ _ _ _ _ _ H45 H10 H55);
    try assumption; try (rewrite E52; lia); try lia.
  - vm_compute. reflexivity.
  - intros m e He Hm.
    replace (-47 - e) with (2 + (-49 - e)) by lia.
    rewrite pow2_split by lia. change (2 ^ 2) with 4.
    assert (0 < 2 ^ (-49 - e)) by (apply Z.pow_pos_nonneg; lia).
    lia.
Qed.

(** The confidence of the fallback: [0.5 + r * 0.3] for a draw [r] in
    [0, 1). *)
Lemma fallback_confidence_bounds (r : float) :
  (0 <=? r)%float = true -> (r <? 1)%float = true ->
  (0.5 <=? 0.5 + r * 0.3)%float = true /\ (0.5 + r * 0.3 <? 0.8)%float = true.
Proof.
  intros H0 H1.
  assert (H03 : Prim2SF 0.3 = S754_finite false 5404319552844595 (-54))
    by (vm_compute; reflexivity).
  assert (H03' : Prim2SF 0.29999999999999993
                 = S754_finite false 5404319552844594 (-54))
    by (vm_compute; reflexivity).
  assert (H05 : Prim2SF 0.5 = S754_finite false 4503599627370496 (-53))
    by (vm_compute; reflexivity).
  assert (H08 : Prim2SF 0.8 = S754_finite false (7205759403792793 + 1) (-53))
    by (vm_compute; reflexivity).
  assert (H08' : Prim2SF 0.79999999999999993
                 = S754_finite false 7205759403792793 (-53))
    by (vm_compute; reflexivity).
  assert (E52 : 2 ^ 52 = 4503599627370496) by (vm_compute; reflexivity).
  assert (E53 : 2 ^ 53 = 9007199254740992) by (vm_compute; reflexivity).
  destruct (mul_unit_bounds r 0.3 0.29999999999999993 _ _ _ _ H03 H03')
    as [Hu0 Hu]; try assumption; try (rewrite E52; lia); try lia.
  { intros m e Hm He. rewrite E53 in Hm.
    replace (-54 - (e + -54)) with (53 + (- e - 53)) by lia.
    rewrite pow2_split, E53 by lia.
    assert (HP : 0 < 2 ^ (- e - 53)) by (apply Z.pow_pos_nonneg; lia).
    lia. }
  destruct (add_const_bounds 0.5 (r * 0.3) 0.29999999999999993
              0.79999999999999993 _ _ _ _ _ _ H05 H03' H08') as [Hlo Hhi];
    try assumption; try (rewrite E52; lia); try lia.
  - vm_compute. reflexivity.
  - intros m e He Hm.
    replace (-53 - e) with (1 + (-54 - e)) by lia.
    rewrite pow2_split by lia. change (2 ^ 1) with 2.
    assert (0 < 2 ^ (-54 - e)) by (apply Z.pow_pos_nonneg; lia).
    lia.
  - split; [exact Hlo|]. exact (leb_ltb_next _ _ _ _ _ H08' H08 Hhi).
Qed.

(* ================================================================== *)
(** ** Properties of the trend analyzer *)
(* ================================================================== *)

Lemma slice_last_length {A : Type} (l : list A) (k : nat) :
  (0 < k)%nat ->
  List.length (JS.slice l (- Z.of_nat k) None) = Nat.min k (List.length l).
Proof.
  intros Hk. unfold JS.slice.
  assert (Hneg : (- Z.of_nat k <? 0) = true) by (apply Z.ltb_lt; lia).
  rewrite Hneg, length_firstn, length_skipn. lia.
Qed.

Lemma recent_window_length (priceData : list Candle.t) :
  List.length (recent_window priceData) = Nat.min 10 (List.length priceData).
Proof.
  unfold recent_window. change (-10) with (- Z.of_nat 10).
  apply slice_last_length. lia.
Qed.

Lemma last_elem_nonempty {A : Type} (l : list A) :
  l <> [] -> exists x, JS.last_elem l = Some x.
Proof.
  intros Hl. unfold JS.last_elem.
  destruct (nth_error l (List.length l - 1)) as [x|] eqn:E.
  - now exists x.
  - apply nth_error_None in E. destruct l; [congruence | simpl in E; lia].
Qed.

Lemma findSupportResistance_defined (data : list Candle.t) :
  data <> [] -> exists s, findSupportResistance data = Some s.
Proof.
  intros Hd. unfold findSupportResistance.
  destruct (last_elem_nonempty data Hd) as [x ->]. eauto.
Qed.

(** [analyzeTrend] never throws. *)
Lemma analyzeTrend_total (priceData : list Candle.t) :
  exists t, analyzeTrend priceData = Some t.
Proof.
  unfold analyzeTrend.
  destruct (List.length priceData <? 3)%nat eqn:Hlen; [eauto|].
  apply Nat.ltb_ge in Hlen.
  destruct (findSupportResistance_defined (recent_window priceData)) as [s ->];
    [|eauto].
  intros Hnil. pose proof (recent_window_length priceData) as Hw.
  rewrite Hnil in Hw. cbn [List.length] in Hw. lia.
Qed.

(** C6.  On fewer than 3 candles [analyzeTrend] returns exactly the
    degenerate result: colour green (up), confidence 0.5, no price change,
    no indicators, and the text "Insufficient data". *)
Theorem analyzeTrend_insufficient_data (priceData : list Candle.t) :
  (List.length priceData < 3)%nat ->
  analyzeTrend priceData
  = Some (Trend.mk green 0.5%float 0%float None "Insufficient data").
Proof.
  intros Hlen. unfold analyzeTrend.
  apply Nat.ltb_lt in Hlen. now rewrite Hlen.
Qed.

Lemma analyzeTrend_insufficient_data_witness :
  (List.length [candle 1000 45.0 46.0 44.5 45.5;
                candle 2000 45.5 47.0 45.0 46.2] < 3)%nat
  /\ analyzeTrend [candle 1000 45.0 46.0 44.5 45.5;
                   candle 2000 45.5 47.0 45.0 46.2]
     = Some (Trend.mk green 0.5%float 0%float None "Insufficient data").
Proof.
  split; [simpl; lia | apply analyzeTrend_insufficient_data; simpl; lia].
Defined.

(** The colour is decided by the strict majority test
    [bullishCount > bearishCount] on the fused signals. *)
Lemma analyzeTrend_color (priceData : list Candle.t) (m ma v sr : Z) :
  (3 <= List.length priceData)%nat ->
  indicator_signals priceData = (m, ma, v, Some sr) ->
  exists t, analyzeTrend priceData = Some t
    /\ Trend.color t
       = if (count_bearish (fuse m ma v sr) <? count_bullish (fuse m ma v sr))%nat
         then green else red.
Proof.
  intros Hlen Hsig.
  pose proof (f_equal (fun x => fst (fst (fst x))) Hsig) as Hm.
  pose proof (f_equal (fun x => snd (fst (fst x))) Hsig) as Hma.
  pose proof (f_equal (fun x => snd (fst x)) Hsig) as Hv.
  pose proof (f_equal snd Hsig) as Hsr.
  cbv beta in Hm, Hma, Hv. unfold indicator_signals in Hm, Hma, Hv, Hsr.
  cbn [fst snd] in Hm, Hma, Hv, Hsr.
  unfold analyzeTrend.
  apply Nat.ltb_ge in Hlen. rewrite Hlen, Hsr, Hm, Hma, Hv.
  eexists. split; [reflexivity|]. reflexivity.
Qed.

(** C3, as the code has it.  When all four indicator signals are zero on a
    sequence of at least 3 candles, the fused list is empty, the bullish
    count 0 is not greater than the bearish count 0, and [analyzeTrend]
    returns colour red (down). *)
Theorem analyzeTrend_no_signal_is_red (priceData : list Candle.t) :
  (3 <= List.length priceData)%nat ->
  all_signals_zero priceData ->
  exists t, analyzeTrend priceData = Some t /\ Trend.color t = red.
Proof.
  intros Hlen Hzero.
  destruct (analyzeTrend_color priceData 0 0 0 0 Hlen Hzero) as (t & Ht & Hc).
  exists t. split; [exact Ht|]. rewrite Hc. reflexivity.
Qed.

Lemma flatData_signals : all_signals_zero flatData.
Proof. vm_compute. reflexivity. Qed.

Lemma analyzeTrend_no_signal_is_red_witness :
  (3 <= List.length flatData)%nat
  /\ all_signals_zero flatData
  /\ exists t, analyzeTrend flatData = Some t /\ Trend.color t = red.
Proof.
  split; [simpl; lia|]. split; [exact flatData_signals|].
  apply analyzeTrend_no_signal_is_red; [simpl; lia | exact flatData_signals].
Defined.

(** C3 as stated fails: on [flatData] (3 candles, all four signals zero)
    the colour is not green. *)
Lemma analyzeTrend_no_signal_not_green :
  (3 <= List.length flatData)%nat
  /\ all_signals_zero flatData
  /\ option_map Trend.color (analyzeTrend flatData) <> Some green.
Proof.
  split; [simpl; lia|]. split; [exact flatData_signals|].
  vm_compute. discriminate.
Qed.

(** C1 at its failing input.  On [flatData] all four signals are zero, the
    agreement is [0 / 0 = NaN], the clamps propagate it, and the returned
    confidence is [NaN]: neither 0.5, nor in [0.55, 0.95], nor in [0, 1]. *)
Theorem analyzeTrend_confidence_nan_without_signals :
  (3 <= List.length flatData)%nat
  /\ all_signals_zero flatData
  /\ exists t, analyzeTrend flatData = Some t
       /\ PrimFloat.is_nan (Trend.confidence t) = true
       /\ (Trend.confidence t =? 0.5)%float = false
       /\ within 0.55 0.95 (Trend.confidence t) = false
       /\ within 0 1 (Trend.confidence t) = false.
Proof.
  split; [simpl; lia|]. split; [exact flatData_signals|].
  eexists. split; [vm_compute; reflexivity|].
  repeat split; vm_compute; reflexivity.
Qed.

(** C4, as the code has it.  On the mock window of the test the momentum
    signal is +1, the moving-average signal 0 (fewer than 5 candles) and the
    volume signal 0, but the last close 47.2 is within 2% of the highest
    high 47.8, so the support/resistance signal is -1; the counts tie 1-1
    and the result is red (down), with confidence 0.75. *)
Theorem analyzeTrend_mockData :
  analyzeTrend mockData
  = Some (Trend.mk red 0.75%float 0.56666666666666765%float
            (Some (Indicators.mk 1 0 0 0.013823907003762455%float (-1)))
            "RED (75%): bullish momentum, near resistance").
Proof. vm_compute. reflexivity. Qed.

(** C4 as stated fails: the direction on the mock window is not up, although
    the momentum, moving-average and volume signals are +1, 0 and 0. *)
Lemma analyzeTrend_mockData_not_green :
  indicator_signals mockData = (1, 0, 0, Some (-1))
  /\ option_map Trend.color (analyzeTrend mockData) <> Some green.
Proof.
  split; [vm_compute; reflexivity | vm_compute; discriminate].
Qed.

(* ================================================================== *)
(** ** Properties of the price projector and of the batch driver *)
(* ================================================================== *)

(** [generatePricePrediction] never throws; it makes 3 draws on an empty
    sequence and 1 draw otherwise. *)
Lemma generatePricePrediction_total (random : nat -> float)
  (priceData : list Candle.t) (interval : string) (s : nat) :
  exists p,
    generatePricePrediction random priceData interval s
    = Some (p, (s + if (List.length priceData =? 0)%nat then 3 else 1)%nat).
Proof.
  unfold generatePricePrediction, bind, lift, ret, throw, Math_random.
  destruct (List.length priceData =? 0)%nat eqn:Hlen.
  - eexists. f_equal. f_equal. lia.
  - apply Nat.eqb_neq in Hlen.
    destruct (last_elem_nonempty priceData) as [x ->].
    { intros ->. now apply Hlen. }
    destruct (analyzeTrend_total priceData) as [t ->].
    eexists. f_equal. f_equal. lia.
Qed.

Lemma generatePredictions_loop_spec (random : nat -> float)
  (historicalData : list Candle.t) (c : Cadence) (baseTimestamp : Z) :
  forall (n : nat) (i : Z) (acc : list Prediction.t) (s : nat),
  exists (new : list Prediction.t) (s' : nat),
    generatePredictions_loop random historicalData (Cadence_token c)
      baseTimestamp n i acc s = Some ((acc ++ new)%list, s')
    /\ List.length new = n
    /\ forall k, (k < n)%nat ->
         option_map Prediction.timestamp (nth_error new k)
         = Some (Some (baseTimestamp + (i + Z.of_nat k) * Cadence_period c)).
Proof.
  induction n as [|n IH]; intros i acc s.
  - exists [], s. cbn [generatePredictions_loop]. unfold ret.
    rewrite app_nil_r. repeat split. intros k Hk. lia.
  - cbn [generatePredictions_loop]. unfold bind at 1.
    destruct (generatePricePrediction_total random historicalData
                (Cadence_token c) s) as [p ->].
    match goal with
    | |- context [generatePredictions_loop _ _ _ _ n (i + 1) (acc ++ [?x])%list ?s1] =>
        destruct (IH (i + 1) (acc ++ [x])%list s1) as (new & s' & Hrun & Hlen & Hts);
        exists (x :: new), s'
    end.
    rewrite Hrun, <- app_assoc. split; [reflexivity|].
    split; [cbn [List.length]; now rewrite Hlen|].
    intros [|k] Hk.
    + cbn [nth_error option_map Prediction.timestamp].
      replace (i + Z.of_nat 0) with i by lia.
      destruct c; reflexivity.
    + cbn [nth_error]. rewrite Hts by lia. do 3 f_equal; lia.
Qed.

(** C2.  For each of the three cadences, every count and every candle
    sequence (and whatever the random draws), [generatePredictions] returns
    exactly [count] records; record [i] carries the timestamp
    [firstAligned + i * period] with period 3600, 86400 or 604800 seconds,
    so timestamps are strictly increasing and consecutive ones differ by
    exactly one period. *)
Theorem generatePredictions_count_and_timestamps (random : nat -> float)
  (nextTimestamps : NextTimestamps.t) (historicalData : list Candle.t)
  (c : Cadence) (count s : nat) :
  exists (predictions : list Prediction.t) (s' : nat),
    generatePredictions random nextTimestamps historicalData
      (Cadence_token c) count s = Some (predictions, s')
    /\ List.length predictions = count
    /\ (forall i, (i < count)%nat ->
          option_map Prediction.timestamp (nth_error predictions i)
          = Some (Some (Cadence_firstAligned nextTimestamps c
                        + Z.of_nat i * Cadence_period c)))
    /\ (forall i j pi pj, (i < j)%nat ->
          nth_error predictions i = Some pi ->
          nth_error predictions j = Some pj ->
          exists ti tj, Prediction.timestamp pi = Some ti
                        /\ Prediction.timestamp pj = Some tj /\ ti < tj)
    /\ (forall i pi pj,
          nth_error predictions i = Some pi ->
          nth_error predictions (S i) = Some pj ->
          exists ti, Prediction.timestamp pi = Some ti
                     /\ Prediction.timestamp pj = Some (ti + Cadence_period c)).
Proof.
  unfold generatePredictions.
  replace (if String.eqb (Cadence_token c) "hours"
           then NextTimestamps.hourly nextTimestamps
           else if String.eqb (Cadence_token c) "days"
                then NextTimestamps.daily nextTimestamps
                else NextTimestamps.weekly nextTimestamps)
    with (Cadence_firstAligned nextTimestamps c) by (destruct c; reflexivity).
  destruct (generatePredictions_loop_spec random historicalData c
              (Cadence_firstAligned nextTimestamps c) count 0 [] s)
    as (new & s' & Hrun & Hlen & Hts).
  exists new, s'. cbn [app] in Hrun.
  assert (Hat : forall i p, nth_error new i = Some p ->
            Prediction.timestamp p
            = Some (Cadence_firstAligned nextTimestamps c
                    + Z.of_nat i * Cadence_period c)).
  { intros i p Hp.
    assert (Hi : (i < count)%nat).
    { rewrite <- Hlen. apply nth_error_Some. congruence. }
    specialize (Hts i Hi). rewrite Hp in Hts. cbn [option_map] in Hts.
    injection Hts as ->. f_equal; lia. }
  assert (Hpos : 0 < Cadence_period c) by (destruct c; reflexivity).
  split; [exact Hrun|]. split; [exact Hlen|]. split; [|split].
  - intros i Hi. rewrite Hts by assumption. do 3 f_equal; lia.
  - intros i j pi pj Hij Hpi Hpj.
    exists (Cadence_firstAligned nextTimestamps c + Z.of_nat i * Cadence_period c),
           (Cadence_firstAligned nextTimestamps c + Z.of_nat j * Cadence_period c).
    rewrite (Hat i pi Hpi), (Hat j pj Hpj). repeat split. nia.
  - intros i pi pj Hpi Hpj.
    exists (Cadence_firstAligned nextTimestamps c + Z.of_nat i * Cadence_period c).
    rewrite (Hat i pi Hpi), (Hat (S i) pj Hpj). split; [reflexivity|].
    f_equal; lia.
Qed.

(** [NaN] absorbs addition. *)
Lemma add_nan_r (x : float) : (x + nan)%float = nan.
Proof.
  apply Prim2SF_inj. rewrite add_spec.
  assert (E : Prim2SF nan = S754_nan) by (vm_compute; reflexivity).
  rewrite E. unfold SF64add, SFadd. destruct (Prim2SF x); reflexivity.
Qed.

Lemma analyzeTrend_flatData :
  analyzeTrend flatData
  = Some (Trend.mk red nan 0%float
            (Some (Indicators.mk 0 0 0 0%float 0))
            "RED (NaN%): mixed signals").
Proof. vm_compute. reflexivity. Qed.

(** C8 at its failing input.  On [flatData] the confidence returned by
    [analyzeTrend] is [NaN]; the confidence component of the price is then
    [NaN], [Math.max(0.1, NaN)] is [NaN], and the projected price is [NaN]
    for every cadence and every random draw: it is not greater than 0. *)
Theorem generatePricePrediction_price_nan_without_signals
  (random : nat -> float) (c : Cadence) (s : nat) :
  exists p, generatePricePrediction random flatData (Cadence_token c) s = Some (p, S s)
    /\ PrimFloat.is_nan (PricePrediction.price p) = true
    /\ (0 <? PricePrediction.price p)%float = false.
Proof.
  destruct c; unfold generatePricePrediction, bind, lift, ret, Math_random;
  change (List.length flatData =? 0)%nat with false; cbv iota;
  change (JS.last_elem flatData) with (Some (candle 3000 100 110 90 100));
  rewrite analyzeTrend_flatData; cbv beta iota;
  (eexists; split; [reflexivity|]);
  cbn [PricePrediction.price Trend.confidence Trend.color Trend.priceChange
       Color_eqb candle Candle.close];
  match goal with
  | |- context [(?a + ?cc)%float] =>
      match cc with
      | context [nan] =>
          replace cc with nan by (vm_compute; reflexivity)
      end
  end;
  rewrite !add_nan_r; split; vm_compute; reflexivity.
Qed.

(* ================================================================== *)
(** ** Properties of the normalization *)
(* ================================================================== *)

Lemma insert_by_timestamp_perm (x : Candle.t) (l : list Candle.t) :
  Permutation (x :: l) (insert_by_timestamp x l).
Proof.
  induction l as [|y l IH]; cbn [insert_by_timestamp]; [reflexivity|].
  destruct (Candle.timestamp x <=? Candle.timestamp y); [reflexivity|].
  rewrite perm_swap. now apply perm_skip.
Qed.

Lemma sort_by_timestamp_perm (l : list Candle.t) :
  Permutation l (sort_by_timestamp l).
Proof.
  induction l as [|x l IH]; cbn [sort_by_timestamp fold_right]; [reflexivity|].
  rewrite <- insert_by_timestamp_perm. now apply perm_skip.
Qed.

Lemma insert_by_timestamp_sorted (x : Candle.t) (l : list Candle.t) :
  StronglySorted timestamp_le l ->
  StronglySorted timestamp_le (insert_by_timestamp x l).
Proof.
  induction 1 as [|y l Hl IH Hy]; cbn [insert_by_timestamp].
  - repeat constructor.
  - destruct (Candle.timestamp x <=? Candle.timestamp y) eqn:Hxy.
    + apply Z.leb_le in Hxy. constructor; [now constructor|].
      constructor; [exact Hxy|].
      eapply Forall_impl; [|exact Hy]. unfold timestamp_le. intros; lia.
    + apply Z.leb_gt in Hxy. constructor; [exact IH|].
      eapply Permutation_Forall; [apply insert_by_timestamp_perm|].
      constructor; [unfold timestamp_le; lia | exact Hy].
Qed.

Lemma sort_by_timestamp_sorted (l : list Candle.t) :
  StronglySorted timestamp_le (sort_by_timestamp l).
Proof.
  induction l as [|x l IH]; cbn [sort_by_timestamp fold_right].
  - constructor.
  - now apply insert_by_timestamp_sorted.
Qed.

(** The volume signal is 0 as soon as no candle has a positive volume. *)
Lemma calculateVolumeTrend_zero_volume (data : list Candle.t) :
  Forall zero_volume data -> calculateVolumeTrend data = 0.
Proof.
  intros Hz. unfold calculateVolumeTrend.
  assert (E : existsb has_positive_volume data = false).
  { induction Hz as [|d data Hd _ IH]; [reflexivity|].
    cbn [existsb]. rewrite IH. unfold has_positive_volume. rewrite Hd.
    reflexivity. }
  now rewrite E.
Qed.

Lemma slice_incl {A : Type} (l : list A) (start : Z) (stop : option Z) :
  incl (JS.slice l start stop) l.
Proof.
  unfold JS.slice. intros x Hx.
  set (n := Z.to_nat _) in Hx. set (k := Z.to_nat _) in Hx.
  rewrite <- (firstn_skipn k l). apply in_or_app. right.
  rewrite <- (firstn_skipn n (skipn k l)). apply in_or_app. now left.
Qed.

(** C9.  [normalizeOHLCData] returns the normalized rows rearranged in
    ascending timestamp order, every one with volume exactly 0; hence the
    volume signal of [calculateVolumeTrend] is 0 on every window made of
    normalized candles, in particular on every slice of the normalized data
    and on the window of [analyzeTrend]. *)
Theorem normalizeOHLCData_sorted_zero_volume (ohlcData : list Raw.t) :
  Forall zero_volume (normalizeOHLCData ohlcData)
  /\ StronglySorted timestamp_le (normalizeOHLCData ohlcData)
  /\ Permutation (map normalize_item ohlcData) (normalizeOHLCData ohlcData)
  /\ (forall window, incl window (normalizeOHLCData ohlcData) ->
        calculateVolumeTrend window = 0)
  /\ (forall start stop,
        calculateVolumeTrend (JS.slice (normalizeOHLCData ohlcData) start stop) = 0)
  /\ calculateVolumeTrend (recent_window (normalizeOHLCData ohlcData)) = 0.
Proof.
  assert (Hvol : Forall zero_volume (normalizeOHLCData ohlcData)).
  { unfold normalizeOHLCData.
    eapply Permutation_Forall; [apply sort_by_timestamp_perm|].
    apply Forall_forall. intros c Hc. apply in_map_iff in Hc.
    destruct Hc as (item & <- & _). reflexivity. }
  assert (Hwin : forall window, incl window (normalizeOHLCData ohlcData) ->
            calculateVolumeTrend window = 0).
  { intros window Hincl. apply calculateVolumeTrend_zero_volume.
    apply Forall_forall. intros c Hc.
    exact (proj1 (Forall_forall _ _) Hvol c (Hincl c Hc)). }
  split; [exact Hvol|].
  split; [apply sort_by_timestamp_sorted|].
  split; [apply sort_by_timestamp_perm|].
  split; [exact Hwin|].
  split; [intros; apply Hwin, slice_incl | apply Hwin, slice_incl].
Qed.

(* ================================================================== *)
(** ** The interval table of the price projector *)
(* ================================================================== *)

Lemma get_unknown {A : Type} (table : list (string * A)) (key : string) :
  ~ In key (map fst table) ->
  ~ In key JS.Object_prototype_keys ->
  JS.get table key = JS.Undefined.
Proof.
  intros Hown Hproto. unfold JS.get.
  assert (E : JS.own_lookup table key = None).
  { induction table as [|[k v] table IH]; [reflexivity|].
    cbn [JS.own_lookup]. cbn [map fst In] in Hown.
    destruct (String.eqb_spec k key) as [->|Hk]; [tauto|].
    apply IH. tauto. }
  rewrite E.
  destruct (existsb (String.eqb key) JS.Object_prototype_keys) eqn:Hex;
    [|reflexivity].
  apply existsb_exists in Hex. destruct Hex as (k & Hin & Hk).
  apply String.eqb_eq in Hk. subst k. contradiction.
Qed.

(** Where the fallback of [maxChange] works.  On a non-empty candle
    sequence [generatePricePrediction] returns a prediction (after one
    draw) for every interval token.  For a token that is neither one of
    hours, days, weeks nor the name of a member of [Object.prototype], the
    table lookup is [undefined] and [maxChange] is the price times the
    hourly 0.025, so the prediction is the one computed for "hours". *)
Theorem generatePricePrediction_unknown_interval (random : nat -> float)
  (priceData : list Candle.t) (s : nat) :
  priceData <> [] ->
  (forall interval,
     exists p, generatePricePrediction random priceData interval s
               = Some (p, S s))
  /\ (forall interval,
        ~ In interval (map fst volatilityMultiplier) ->
        ~ In interval JS.Object_prototype_keys ->
        (forall price, maxChange_for price interval = (price * 0.025)%float)
        /\ generatePricePrediction random priceData interval s
           = generatePricePrediction random priceData "hours" s).
Proof.
  intros Hne. split.
  - intros interval.
    destruct (generatePricePrediction_total random priceData interval s)
      as [p Hp].
    exists p. rewrite Hp. do 2 f_equal.
    destruct priceData; [congruence|]. cbn [List.length Nat.eqb]. lia.
  - intros interval Hown Hproto.
    assert (Hmax : forall price,
              maxChange_for price interval = (price * 0.025)%float).
    { intros price. unfold maxChange_for.
      now rewrite (get_unknown volatilityMultiplier interval Hown Hproto). }
    split; [exact Hmax|].
    unfold generatePricePrediction.
    destruct (List.length priceData =? 0)%nat; [reflexivity|].
    unfold bind. destruct (lift (JS.last_elem priceData) s) as [[x s1]|];
      [|reflexivity].
    destruct (lift (analyzeTrend priceData) s1) as [[t s2]|]; [|reflexivity].
    rewrite Hmax. reflexivity.
Qed.

Lemma generatePricePrediction_unknown_interval_witness :
  mockData <> []
  /\ (exists p, generatePricePrediction (fun _ => 0.25%float) mockData
                  "months" 0%nat = Some (p, 1%nat))
  /\ maxChange_for 47.2 "months" = (47.2 * 0.025)%float.
Proof.
  assert (Hne : mockData <> []) by discriminate.
  destruct (generatePricePrediction_unknown_interval
              (fun _ => 0.25%float) mockData 0%nat Hne) as [Htotal Hfallback].
  split; [exact Hne|]. split; [apply Htotal|].
  apply (Hfallback "months").
  - cbn. intros [H|[H|[H|[]]]]; discriminate.
  - cbn. intuition discriminate.
Defined.

(** C10 at its failing input.  The token "constructor" is outside hours,
    days, weeks, so [|| 0.025] is meant to apply; but the table lookup finds
    [Object.prototype.constructor], a function, which is truthy and
    multiplies to [NaN]: [maxChange] is [NaN], not the price times 0.025,
    and the projected price on the mock window is [NaN], where the token
    "hours" gives 46.76. *)
Lemma maxChange_for_constructor :
  ~ In "constructor" (map fst volatilityMultiplier)
  /\ PrimFloat.is_nan (maxChange_for 47.2 "constructor") = true
  /\ (maxChange_for 47.2 "constructor" =? 47.2 * 0.025)%float = false
  /\ option_map (fun r => PrimFloat.is_nan (PricePrediction.price (fst r)))
       (generatePricePrediction (fun _ => 0.25%float) mockData "constructor" 0%nat)
     = Some true
  /\ option_map (fun r => PricePrediction.price (fst r))
       (generatePricePrediction (fun _ => 0.25%float) mockData "hours" 0%nat)
     = Some 46.76%float.
Proof.
  split; [cbn; intros [H|[H|[H|[]]]]; discriminate|].
  repeat split; vm_compute; reflexivity.
Qed.

(* ================================================================== *)
(** ** Properties of the CSV serializer *)
(* ================================================================== *)

Lemma all_chars_app (f : ascii -> bool) (a b : string) :
  all_chars f (a ++ b) = all_chars f a && all_chars f b.
Proof.
  induction a as [|c a IH]; cbn [append all_chars]; [reflexivity|].
  now rewrite IH, andb_assoc.
Qed.

Lemma all_chars_substring (f : ascii -> bool) (s : string) :
  all_chars f s = true ->
  forall n m, all_chars f (substring n m s) = true.
Proof.
  induction s as [|c s IH]; intros Hs n m.
  - destruct n, m; reflexivity.
  - cbn [all_chars] in Hs. apply andb_prop in Hs. destruct Hs as [Hc Hs].
    destruct n as [|n]; cbn [substring].
    + destruct m as [|m]; [reflexivity|].
      cbn [all_chars]. now rewrite Hc, (IH Hs).
    + now apply IH.
Qed.

Lemma field_text_zeros (n : nat) : field_text (JS.zeros n) = true.
Proof. induction n as [|n IH]; [reflexivity | exact IH]. Qed.

Lemma field_text_uint (d : Decimal.uint) :
  field_text (NilEmpty.string_of_uint d) = true.
Proof. induction d; cbn; auto. Qed.

Lemma field_text_digits (n : Z) : field_text (JS.digits n) = true.
Proof.
  unfold JS.digits, NilZero.string_of_uint.
  destruct (N.to_uint (Z.to_N n)); try reflexivity; apply field_text_uint.
Qed.

Ltac field_text_tac :=
  repeat first
    [ reflexivity
    | apply field_text_digits
    | apply field_text_zeros
    | apply all_chars_substring
    | progress (unfold field_text; rewrite all_chars_app; apply andb_true_intro; split) ].

Lemma field_text_render_digits (s n : Z) :
  field_text (JS.render_digits s n) = true.
Proof.
  unfold JS.render_digits.
  repeat match goal with
         | |- context [if ?b then _ else _] => destruct b
         end; field_text_tac.
Qed.

Lemma field_text_Number_toString (x : float) :
  field_text (JS.Number_toString x) = true.
Proof.
  unfold JS.Number_toString.
  destruct (Prim2SF x) as [s|s| |s m e]; try reflexivity.
  - destruct s; reflexivity.
  - destruct (JS.shortest _ _ _ _ _ _) as [d n].
    unfold field_text. rewrite all_chars_app.
    apply andb_true_intro. split; [destruct s; reflexivity|].
    apply field_text_render_digits.
Qed.

Lemma field_text_timestamp (t : option Z) :
  field_text (timestamp_toString t) = true.
Proof.
  destruct t as [z|]; [|reflexivity]. unfold timestamp_toString, field_text.
  rewrite all_chars_app. apply andb_true_intro.
  split; [destruct (z <? 0); reflexivity | apply field_text_digits].
Qed.

Lemma field_text_Color (c : Color) : field_text (Color_toString c) = true.
Proof. destruct c; reflexivity. Qed.

(** A field text contains neither the separator of fields nor the
    separator of rows. *)
Lemma field_char_not_sep (c : ascii) :
  field_char c = true ->
  Ascii.eqb c comma = false /\ Ascii.eqb c newline_char = false.
Proof.
  intros Hc. split; apply Ascii.eqb_neq; intros ->; discriminate.
Qed.

Lemma split_on_free (sep : ascii) (s : string) :
  all_chars (fun c => negb (Ascii.eqb c sep)) s = true ->
  split_on sep s = [s].
Proof.
  induction s as [|c s IH]; [reflexivity|]. cbn [all_chars split_on].
  intros H. apply andb_prop in H. destruct H as [Hc Hs].
  apply negb_true_iff in Hc. now rewrite Hc, (IH Hs).
Qed.

Lemma split_on_app (sep : ascii) (a b : string) :
  all_chars (fun c => negb (Ascii.eqb c sep)) a = true ->
  split_on sep (a ++ String sep b) = a :: split_on sep b.
Proof.
  induction a as [|c a IH]; cbn [all_chars append split_on].
  - intros _. now rewrite Ascii.eqb_refl.
  - intros H. apply andb_prop in H. destruct H as [Hc Ha].
    apply negb_true_iff in Hc. now rewrite Hc, (IH Ha).
Qed.

Lemma split_on_concat (sep : ascii) (x : string) (l : list string) :
  Forall (fun s => all_chars (fun c => negb (Ascii.eqb c sep)) s = true)
    (x :: l) ->
  split_on sep (String.concat (String sep EmptyString) (x :: l)) = x :: l.
Proof.
  revert x. induction l as [|y l IH]; intros x H.
  - cbn [String.concat]. apply split_on_free. now inversion H.
  - inversion H as [|? ? Hx Hrest]; subst.
    change (String.concat (String sep EmptyString) (x :: y :: l))
      with (x ++ String sep EmptyString
              ++ String.concat (String sep EmptyString) (y :: l)).
    cbn [append]. rewrite split_on_app by exact Hx. now rewrite IH.
Qed.

Lemma all_chars_impl (f g : ascii -> bool) (s : string) :
  (forall c, f c = true -> g c = true) ->
  all_chars f s = true -> all_chars g s = true.
Proof.
  intros Hfg. induction s as [|c s IH]; [reflexivity|]. cbn [all_chars].
  intros H. apply andb_prop in H. destruct H as [Hc Hs].
  now rewrite (Hfg c Hc), (IH Hs).
Qed.

Lemma field_text_free (sep : ascii) (s : string) :
  sep = comma \/ sep = newline_char ->
  field_text s = true ->
  all_chars (fun c => negb (Ascii.eqb c sep)) s = true.
Proof.
  intros Hsep. apply all_chars_impl. intros c Hc.
  destruct (field_char_not_sep c Hc) as [H1 H2].
  destruct Hsep as [-> | ->]; apply negb_true_iff; assumption.
Qed.

Lemma csv_fields_text (p : Prediction.t) :
  Forall (fun s => field_text s = true) (csv_fields p).
Proof.
  repeat constructor;
    auto using field_text_timestamp, field_text_Color, field_text_Number_toString.
Qed.

Lemma csv_row_fields (p : Prediction.t) :
  csv_row p = String.concat "," (csv_fields p).
Proof. reflexivity. Qed.

Lemma csv_row_free_of_newline (p : Prediction.t) :
  all_chars (fun c => negb (Ascii.eqb c newline_char)) (csv_row p) = true.
Proof.
  unfold csv_row. rewrite !all_chars_app.
  rewrite (field_text_free newline_char _ (or_intror eq_refl)
             (field_text_timestamp _)).
  rewrite (field_text_free newline_char _ (or_intror eq_refl)
             (field_text_Color _)).
  rewrite !(field_text_free newline_char _ (or_intror eq_refl)
              (field_text_Number_toString _)).
  reflexivity.
Qed.

(** The lines and the fields of the CSV text.  The text [predictionsToCSV]
    returns splits at line breaks into the header
    [timestamp,color,confidence,price] followed by one row per record, in
    order; each row splits at commas into exactly four fields: the
    timestamp, the colour, and the confidence and the price as
    [Number::toString] writes them. *)
Theorem predictionsToCSV_rows (predictions : list Prediction.t) :
  split_on newline_char (predictionsToCSV predictions)
  = csv_headers :: map csv_row predictions
  /\ Forall (fun p =>
       split_on comma (csv_row p)
       = [ timestamp_toString (Prediction.timestamp p);
           Color_toString (Prediction.color p);
           JS.Number_toString (Prediction.confidence p);
           JS.Number_toString (Prediction.price p) ])
       predictions.
Proof.
  split.
  - unfold predictionsToCSV. apply (split_on_concat newline_char).
    constructor; [reflexivity|].
    apply Forall_forall. intros row Hrow. apply in_map_iff in Hrow.
    destruct Hrow as (p & <- & _). apply csv_row_free_of_newline.
  - apply Forall_forall. intros p _.
    rewrite csv_row_fields. apply (split_on_concat comma).
    eapply Forall_impl; [|apply csv_fields_text].
    intros s Hs. apply (field_text_free comma); [now left | exact Hs].
Qed.

(** A batch the generator makes.  Two hourly predictions generated from the
    mock window with every draw equal to 0.5 both have price 47; the price
    field of their rows is the text 47, which does not have 2 decimal
    places. *)
Lemma predictionsToCSV_price_not_two_decimals :
  exists predictions,
    option_map fst
      (generatePredictions (fun _ => 0.5%float) sampleTimestamps mockData
         "hours" 2 0%nat) = Some predictions
    /\ predictionsToCSV predictions
       = "timestamp,color,confidence,price" ++ newline
         ++ "1762066800,red,0.75,47" ++ newline
         ++ "1762070400,red,0.75,47"
    /\ map (fun p => nth 3 (split_on comma (csv_row p)) "") predictions
       = ["47"; "47"]
    /\ two_decimals "47" = false.
Proof.
  eexists. split; [vm_compute; reflexivity|].
  repeat split; vm_compute; reflexivity.
Qed.

(* ================================================================== *)
(** ** The fallback of the price projector *)
(* ================================================================== *)

(** C7, as the code has it.  On an empty candle sequence, for every interval
    token and all draws in [0, 1), [generatePricePrediction] does not throw
    and returns, after three draws, a record with price in the closed
    interval [45, 55], confidence at least 0.5 and below 0.8, the text
    "No historical data - random prediction" and no indicators. *)
Theorem generatePricePrediction_fallback (random : nat -> float)
  (interval : string) (s : nat) :
  unit_draws random ->
  exists p,
    generatePricePrediction random [] interval s = Some (p, (s + 3)%nat)
    /\ within 45 55 (PricePrediction.price p) = true
    /\ (0.5 <=? PricePrediction.confidence p)%float = true
    /\ (PricePrediction.confidence p <? 0.8)%float = true
    /\ PricePrediction.analysis p = "No historical data - random prediction"
    /\ PricePrediction.indicators p = None.
Proof.
  intros Hdraws.
  destruct (Hdraws (S s)) as [Hc0 Hc1]. destruct (Hdraws (S (S s))) as [Hp0 Hp1].
  destruct (fallback_price_bounds _ Hp0 Hp1) as [Hlo Hhi].
  destruct (fallback_confidence_bounds _ Hc0 Hc1) as [Hclo Hchi].
  eexists. split.
  - unfold generatePricePrediction, bind, ret, Math_random. cbn [List.length Nat.eqb].
    do 2 f_equal. lia.
  - cbn [PricePrediction.price PricePrediction.confidence
         PricePrediction.analysis PricePrediction.indicators].
    unfold within. rewrite Hlo, Hhi, Hclo, Hchi. repeat split.
Qed.

Lemma unit_draws_quarter : unit_draws (fun _ => 0.25%float).
Proof. intros n. split; vm_compute; reflexivity. Qed.

Lemma generatePricePrediction_fallback_witness :
  unit_draws (fun _ => 0.25%float)
  /\ exists p,
       generatePricePrediction (fun _ => 0.25%float) [] "hours" 0%nat
       = Some (p, 3%nat)
       /\ within 45 55 (PricePrediction.price p) = true
       /\ (0.5 <=? PricePrediction.confidence p)%float = true
       /\ (PricePrediction.confidence p <? 0.8)%float = true
       /\ PricePrediction.analysis p = "No historical data - random prediction"
       /\ PricePrediction.indicators p = None.
Proof.
  split; [exact unit_draws_quarter|].
  exact (generatePricePrediction_fallback (fun _ => 0.25%float) "hours" 0%nat
           unit_draws_quarter).
Defined.

(** C7 as stated fails.  When [Math.random()] returns the largest number
    below 1, [r * 10] rounds to [10 - 2^-49] and [45 + r * 10] rounds to 55:
    the fallback price is 55 itself, which is not below 55.  The same holds
    for the largest multiple of [2^-52] below 1. *)
Lemma generatePricePrediction_fallback_price_55 :
  unit_draws (fun _ => largest_draw)
  /\ (largest_draw * 10)%float = 9.999999999999998%float
  /\ (exists p,
        generatePricePrediction (fun _ => largest_draw) [] "hours" 0%nat
        = Some (p, 3%nat)
        /\ PricePrediction.price p = 55%float
        /\ (PricePrediction.price p <? 55)%float = false)
  /\ (45 + 0.9999999999999998 * 10)%float = 55%float.
Proof.
  split; [intros n; split; vm_compute; reflexivity|].
  split; [vm_compute; reflexivity|].
  split; [|vm_compute; reflexivity].
  eexists. split; [vm_compute; reflexivity|].
  split; vm_compute; reflexivity.
Qed.

(* ================================================================== *)
(** ** The confidence of the trend analyzer when a signal has an opinion *)
(* ================================================================== *)

Lemma SFcompare_refl (x : spec_float) :
  x <> S754_nan -> SFcompare x x = Some Eq.
Proof.
  destruct x as [s|s| |s m e]; intros Hx; try congruence.
  - reflexivity.
  - destruct s; reflexivity.
  - cbn [SFcompare]. rewrite Z.compare_refl, Pos.compare_cont_refl.
    destruct s; reflexivity.
Qed.

Lemma is_nan_spec (x : float) :
  PrimFloat.is_nan x = true <-> Prim2SF x = S754_nan.
Proof.
  unfold PrimFloat.is_nan. rewrite eqb_spec. unfold SFeqb.
  destruct (Prim2SF x) as [s|s| |s m e] eqn:E.
  4: rewrite SFcompare_refl by discriminate.
  all: cbn; try (destruct s; cbn); split; congruence.
Qed.

Lemma not_nan_spec (x : float) :
  PrimFloat.is_nan x = false <-> Prim2SF x <> S754_nan.
Proof.
  rewrite <- is_nan_spec. destruct (PrimFloat.is_nan x); split; congruence.
Qed.

Lemma SFcompare_antisym (x y : spec_float) :
  SFcompare y x = option_map CompOpp (SFcompare x y).
Proof.
  destruct x as [s1|s1| |s1 m1 e1], y as [s2|s2| |s2 m2 e2];
    try reflexivity; try (destruct s1; reflexivity);
    try (destruct s2; reflexivity);
    try (destruct s1, s2; reflexivity).
  cbn [SFcompare option_map].
  rewrite (Z.compare_antisym e1 e2).
  change (Pos.compare_cont Eq m2 m1)
    with (Pos.compare_cont (CompOpp Eq) m2 m1).
  rewrite <- (Pos.compare_cont_antisym m1 m2 Eq).
  destruct s1, s2; try reflexivity;
    destruct (e1 ?= e2); cbn [CompOpp]; try reflexivity;
    destruct (Pos.compare_cont Eq m1 m2); reflexivity.
Qed.

Lemma ltb_leb (a b : float) : (a <? b)%float = true -> (a <=? b)%float = true.
Proof.
  rewrite ltb_spec, leb_spec. unfold SFltb, SFleb.
  destruct (SFcompare (Prim2SF a) (Prim2SF b)) as [[| |]|]; congruence.
Qed.

Lemma leb_refl (a : float) :
  PrimFloat.is_nan a = false -> (a <=? a)%float = true.
Proof.
  intros Ha. apply not_nan_spec in Ha. rewrite leb_spec. unfold SFleb.
  now rewrite SFcompare_refl.
Qed.

Lemma not_ltb_leb (a b : float) :
  PrimFloat.is_nan a = false -> PrimFloat.is_nan b = false ->
  (a <? b)%float = false -> (b <=? a)%float = true.
Proof.
  intros Ha Hb. apply not_nan_spec in Ha. apply not_nan_spec in Hb.
  rewrite ltb_spec, leb_spec. unfold SFltb, SFleb.
  rewrite (SFcompare_antisym (Prim2SF a) (Prim2SF b)).
  destruct (Prim2SF a) as [s1|s1| |s1 m1 e1]; try congruence;
    destruct (Prim2SF b) as [s2|s2| |s2 m2 e2]; try congruence;
    destruct (SFcompare _ _) as [[| |]|] eqn:E; cbn; try congruence;
    cbn in E; try (destruct s1; discriminate); try (destruct s2; discriminate);
    try (destruct s1, s2; discriminate).
Qed.

(** [Math.min(hi, Math.max(lo, y))] clamps every number into [lo, hi]. *)
Lemma clamp_within (lo hi y : float) :
  PrimFloat.is_nan lo = false -> PrimFloat.is_nan hi = false ->
  PrimFloat.get_sign lo = false -> PrimFloat.get_sign hi = false ->
  (lo <=? hi)%float = true ->
  PrimFloat.is_nan y = false ->
  within lo hi (JS.Math_min hi (JS.Math_max lo y)) = true.
Proof.
  intros Hlo Hhi Hslo Hshi Hle Hy. unfold within.
  assert (HM : PrimFloat.is_nan (JS.Math_max lo y) = false
               /\ (lo <=? JS.Math_max lo y)%float = true).
  { unfold JS.Math_max. rewrite Hlo, Hy, Hslo. cbn [orb].
    destruct (lo <? y)%float eqn:E1; [split; [exact Hy | now apply ltb_leb]|].
    destruct (y <? lo)%float; split; auto using leb_refl. }
  destruct HM as [HnM HloM]. set (M := JS.Math_max lo y) in *.
  unfold JS.Math_min. rewrite Hhi, HnM, Hshi. cbn [orb].
  destruct (hi <? M)%float eqn:E1.
  - rewrite Hle, (leb_refl hi Hhi). reflexivity.
  - destruct (M <? hi)%float eqn:E2.
    + rewrite HloM, (ltb_leb _ _ E2). reflexivity.
    + rewrite HloM, (not_ltb_leb hi M Hhi HnM E1). reflexivity.
Qed.

(** Rounding a positive mantissa never yields [NaN]. *)
Lemma binary_round_aux_not_nan (sx : bool) (m : positive) (e : Z) :
  binary_round_aux prec emax sx (Zpos m) e loc_Exact <> S754_nan.
Proof.
  unfold binary_round_aux, shr_fexp. cbn [shr_record_of_loc].
  pose proof (shr_shifted (Zpos m) e
                (fexp (Zdigits2 (Zpos m) + e) - e) ltac:(lia)) as H1.
  destruct (shr _ e _) as [mrs e'] in H1 |- *. destruct H1 as [Hsh _].
  pose proof (round_nearest_even_nonneg _ _ _ Hsh) as H0.
  set (m2 := round_nearest_even (shr_m mrs) (loc_of_shr_record mrs)) in *.
  pose proof (shr_shifted m2 e' (fexp (Zdigits2 m2 + e') - e') H0) as H2.
  destruct (shr _ e' _) as [mrs2 e2] in H2 |- *. destruct H2 as [[Hm _] _].
  destruct (shr_m mrs2) as [|p|p]; try lia; [discriminate|].
  destruct (e2 <=? emax - prec); discriminate.
Qed.

Lemma binary_normalize_not_nan (m e : Z) (szero : bool) :
  binary_normalize prec emax m e szero <> S754_nan.
Proof.
  unfold binary_normalize, binary_round.
  destruct m as [|p|p]; [discriminate| |];
    destruct (shl_align _ _ _) as [mz ez]; apply binary_round_aux_not_nan.
Qed.

(** Products with a finite constant, and sums and differences with a finite
    first operand, are [NaN] only on a [NaN] operand. *)
Lemma mul_not_nan (x c : float) (sc : bool) (mc : positive) (ec : Z) :
  Prim2SF c = S754_finite sc mc ec ->
  PrimFloat.is_nan x = false -> PrimFloat.is_nan (x * c) = false.
Proof.
  intros Hc Hx. apply not_nan_spec in Hx. apply not_nan_spec.
  rewrite mul_spec, Hc. unfold SF64mul, SFmul.
  destruct (Prim2SF x) as [s|s| |s m e]; try congruence; try discriminate.
  apply binary_round_aux_not_nan.
Qed.

Lemma add_not_nan (a y : float) (sa : bool) (ma : positive) (ea : Z) :
  Prim2SF a = S754_finite sa ma ea ->
  PrimFloat.is_nan y = false -> PrimFloat.is_nan (a + y) = false.
Proof.
  intros Ha Hy. apply not_nan_spec in Hy. apply not_nan_spec.
  rewrite add_spec, Ha. unfold SF64add, SFadd.
  destruct (Prim2SF y) as [s|s| |s m e]; try congruence; try discriminate.
  apply binary_normalize_not_nan.
Qed.

Lemma sub_not_nan (a y : float) (sa : bool) (ma : positive) (ea : Z) :
  Prim2SF a = S754_finite sa ma ea ->
  PrimFloat.is_nan y = false -> PrimFloat.is_nan (a - y) = false.
Proof.
  intros Ha Hy. apply not_nan_spec in Hy. apply not_nan_spec.
  rewrite sub_spec, Ha. unfold SF64sub, SFsub.
  destruct (Prim2SF y) as [s|s| |s m e]; try congruence; try discriminate.
  apply binary_normalize_not_nan.
Qed.

Lemma Math_max_not_nan (a b : float) :
  PrimFloat.is_nan a = false -> PrimFloat.is_nan b = false ->
  PrimFloat.is_nan (JS.Math_max a b) = false.
Proof.
  intros Ha Hb. unfold JS.Math_max. rewrite Ha, Hb. cbn [orb].
  repeat match goal with
         | |- context [if ?c then _ else _] => destruct c
         end; assumption.
Qed.

(** Every two-decimal number from 0.55 to 0.95 reads back within
    [0.55, 0.95]. *)
Lemma hundredths_within (n : Z) :
  55 <= n <= 95 ->
  within 0.55 0.95 (JS.fixed_number (JS.FixedDigits false n 2)) = true.
Proof.
  intros Hn.
  assert (Hall : forallb
                   (fun k => within 0.55 0.95
                               (JS.fixed_number
                                  (JS.FixedDigits false (Z.of_nat k) 2)))
                   (seq 55 41) = true) by (vm_compute; reflexivity).
  rewrite forallb_forall in Hall.
  rewrite <- (Z2Nat.id n) by lia. apply Hall. apply in_seq. lia.
Qed.

(** Rounding a confidence in [0.55, 0.95] to 2 decimals keeps it there. *)
Lemma Number_toFixed_confidence (c : float) :
  within 0.55 0.95 c = true ->
  within 0.55 0.95 (JS.Number_toFixed c 2) = true.
Proof.
  unfold within at 1. intros H. apply andb_prop in H. destruct H as [H1 H2].
  assert (E055 : Prim2SF 0.55 = S754_finite false 4953959590107546 (-53))
    by (vm_compute; reflexivity).
  assert (E095 : Prim2SF 0.95 = S754_finite false 8556839292003942 (-53))
    by (vm_compute; reflexivity).
  assert (E21 : Prim2SF 1e21 = S754_finite false 7629394531250000 17)
    by (vm_compute; reflexivity).
  rewrite leb_spec, E055 in H1. rewrite leb_spec, E095 in H2.
  unfold JS.Number_toFixed, JS.toFixed_parts.
  assert (Habs : (1e21 <=? abs c)%float = false).
  { rewrite leb_spec, abs_spec, E21.
    destruct (Prim2SF c) as [s|s| |s m e]; try discriminate;
      try (destruct s; discriminate).
    destruct s; [discriminate|]. apply SFleb_finite in H2. cbn [SFabs].
    destruct (SFleb (S754_finite false 7629394531250000 17)
                (S754_finite false m e)) eqn:E; [|reflexivity].
    apply SFleb_finite in E. lia. }
  rewrite Habs.
  destruct (Prim2SF c) as [s|s| |s m e]; try discriminate;
    try (destruct s; discriminate).
  destruct s; [discriminate|].
  apply SFleb_finite in H1. apply SFleb_finite in H2.
  assert (He : e = -53) by lia. subst e.
  apply hundredths_within. unfold JS.scaled_round.
  change (0 <=? -53) with false. cbv iota.
  change (10 ^ Z.of_nat 2) with 100. change (- -53) with 53.
  change (1 - -53) with 54.
  assert (E53 : 2 ^ 53 = 9007199254740992) by (vm_compute; reflexivity).
  assert (E54 : 2 ^ 54 = 18014398509481984) by (vm_compute; reflexivity).
  rewrite E53, E54. split.
  - apply Z.div_le_lower_bound; lia.
  - apply Z.lt_succ_r. apply Z.div_lt_upper_bound; lia.
Qed.

Lemma fuse_counts (l : list Z) :
  (count_bullish (filter has_opinion l) + count_bearish (filter has_opinion l)
   = List.length (filter has_opinion l))%nat.
Proof.
  unfold count_bullish, count_bearish.
  induction l as [|a l IH]; [reflexivity|]. cbn [filter].
  destruct (has_opinion a) eqn:Ha; [|exact IH].
  unfold has_opinion in Ha. apply negb_true_iff, Z.eqb_neq in Ha.
  cbn [filter List.length].
  destruct (Z.ltb_spec 0 a), (Z.ltb_spec a 0); cbn [List.length]; lia.
Qed.

Lemma fuse_length (m ma v sr : Z) :
  (List.length (fuse m ma v sr) <= 4)%nat
  /\ (fuse m ma v sr = [] -> m = 0 /\ ma = 0 /\ v = 0 /\ sr = 0).
Proof.
  unfold fuse. cbn [filter]. unfold has_opinion.
  destruct (Z.eqb_spec m 0), (Z.eqb_spec ma 0), (Z.eqb_spec v 0),
    (Z.eqb_spec sr 0); cbn [negb List.length];
    (split; [lia | intros H; try discriminate H; auto]).
Qed.

(** With at least one and at most four opinions, [0.6 + agreement * 0.25]
    is a finite number. *)
Lemma agreement_term_finite (b r : nat) :
  (1 <= b + r <= 4)%nat ->
  exists s m e,
    Prim2SF (0.6 + abs (JS.of_nat b - JS.of_nat r) / JS.of_nat (b + r) * 0.25)
    = S754_finite s m e.
Proof.
  intros H.
  destruct b as [|[|[|[|[|b]]]]]; destruct r as [|[|[|[|[|r]]]]];
    try lia; vm_compute; eauto.
Qed.

(** X1.  The confidence of [analyzeTrend] when a signal has an opinion.  On at
    least 3 candles, if at least one of the four signals is non-zero and
    the volatility of the window is a number, the returned confidence lies
    within [0.55, 0.95]. *)
Theorem analyzeTrend_confidence_range (priceData : list Candle.t) :
  (3 <= List.length priceData)%nat ->
  ~ all_signals_zero priceData ->
  PrimFloat.is_nan (calculateVolatility (recent_window priceData)) = false ->
  exists t, analyzeTrend priceData = Some t
    /\ within 0.55 0.95 (Trend.confidence t) = true.
Proof.
  intros Hlen Hsome Hvol.
  assert (Hne : recent_window priceData <> []).
  { intros Hnil. pose proof (recent_window_length priceData) as Hw.
    rewrite Hnil in Hw. cbn [List.length] in Hw. lia. }
  destruct (findSupportResistance_defined _ Hne) as [sr Hsr].
  unfold analyzeTrend. apply Nat.ltb_ge in Hlen. rewrite Hlen, Hsr.
  eexists. split; [reflexivity|]. cbn [Trend.confidence].
  set (m := snd (calculateMomentum (recent_window priceData))).
  set (ma := calculateMovingAverageTrend (recent_window priceData)).
  set (v := calculateVolumeTrend (recent_window priceData)).
  destruct (fuse_length m ma v sr) as [Hle4 Hnil].
  pose proof (fuse_counts [m; ma; v; sr]) as Hcount. fold (fuse m ma v sr) in Hcount.
  assert (Hpos : (1 <= List.length (fuse m ma v sr))%nat).
  { destruct (fuse m ma v sr) eqn:E; [|cbn; lia]. exfalso. apply Hsome.
    destruct (Hnil eq_refl) as (Em & Ema & Ev & Esr).
    unfold all_signals_zero, indicator_signals.
    fold m ma v. rewrite Hsr. congruence. }
  rewrite <- Hcount in Hle4, Hpos |- *.
  destruct (agreement_term_finite _ _ (conj Hpos Hle4)) as (s & ma' & ea & HA).
  apply Number_toFixed_confidence.
  apply clamp_within; [vm_compute; reflexivity .. |].
  assert (E015 : Prim2SF 0.15 = S754_finite false 5404319552844595 (-55))
    by (vm_compute; reflexivity).
  assert (E2 : Prim2SF 2 = S754_finite false 4503599627370496 (-51))
    by (vm_compute; reflexivity).
  apply (add_not_nan _ _ _ _ _ HA).
  apply (mul_not_nan _ _ _ _ _ E015).
  apply Math_max_not_nan; [vm_compute; reflexivity|].
  apply (sub_not_nan _ _ _ _ _ Prim2SF_one).
  apply (mul_not_nan _ _ _ _ _ E2). exact Hvol.
Qed.

Lemma analyzeTrend_confidence_range_witness :
  (3 <= List.length mockData)%nat
  /\ ~ all_signals_zero mockData
  /\ PrimFloat.is_nan (calculateVolatility (recent_window mockData)) = false
  /\ exists t, analyzeTrend mockData = Some t
       /\ within 0.55 0.95 (Trend.confidence t) = true.
Proof.
  assert (H1 : (3 <= List.length mockData)%nat) by (cbn; lia).
  assert (H2 : ~ all_signals_zero mockData) by (vm_compute; discriminate).
  assert (H3 : PrimFloat.is_nan (calculateVolatility (recent_window mockData))
               = false) by (vm_compute; reflexivity).
  repeat (split; [assumption|]).
  exact (analyzeTrend_confidence_range mockData H1 H2 H3).
Defined.

(* ================================================================== *)
(** ** Further properties of the analyzer and of the projector *)
(* ================================================================== *)

Lemma recent_window_app (older recent : list Candle.t) :
  List.length recent = 10%nat ->
  recent_window (older ++ recent)%list = recent.
Proof.
  intros Hlen. unfold recent_window, JS.slice.
  change (-10 <? 0) with true. cbv iota.
  rewrite length_app, Hlen.
  replace (Z.to_nat (Z.max (Z.of_nat (List.length older + 10) + -10) 0))
    with (List.length older) by lia.
  rewrite skipn_app, skipn_all, Nat.sub_diag.
  cbn [skipn app]. apply firstn_all2. lia.
Qed.

(** X3.  Only the last 10 candles matter to [analyzeTrend]. *)
Theorem analyzeTrend_last_ten (older recent : list Candle.t) :
  List.length recent = 10%nat ->
  analyzeTrend (older ++ recent)%list = analyzeTrend recent.
Proof.
  intros Hlen. unfold analyzeTrend.
  rewrite (recent_window_app older recent Hlen).
  rewrite (recent_window_app [] recent Hlen : recent_window recent = recent).
  rewrite length_app, Hlen.
  replace (List.length older + 10 <? 3)%nat with false
    by (symmetry; apply Nat.ltb_ge; lia).
  reflexivity.
Qed.

Lemma analyzeTrend_last_ten_witness :
  List.length risingData = 10%nat
  /\ analyzeTrend (flatData ++ risingData)%list = analyzeTrend risingData.
Proof.
  split; [reflexivity|]. apply analyzeTrend_last_ten. reflexivity.
Defined.

(** X4.  On a non-empty candle sequence the projector does not throw, makes
    one draw, and passes the colour, the confidence, the text and the
    indicators of [analyzeTrend] through unchanged. *)
Theorem generatePricePrediction_passes_trend (random : nat -> float)
  (priceData : list Candle.t) (interval : string) (s : nat) :
  priceData <> [] ->
  exists t p,
    analyzeTrend priceData = Some t
    /\ generatePricePrediction random priceData interval s = Some (p, S s)
    /\ PricePrediction.color p = Trend.color t
    /\ PricePrediction.confidence p = Trend.confidence t
    /\ PricePrediction.analysis p = Trend.analysis t
    /\ PricePrediction.indicators p = Trend.indicators t.
Proof.
  intros Hne. destruct (analyzeTrend_total priceData) as [t Ht].
  destruct (last_elem_nonempty priceData Hne) as [x Hx].
  exists t. unfold generatePricePrediction, bind, lift, ret, Math_random.
  destruct priceData as [|c0 rest]; [congruence|].
  cbn [List.length Nat.eqb]. rewrite Hx, Ht.
  eexists. split; [reflexivity|]. split; [reflexivity|]. repeat split.
Qed.

Lemma generatePricePrediction_passes_trend_witness :
  mockData <> []
  /\ exists t p,
       analyzeTrend mockData = Some t
       /\ generatePricePrediction (fun _ => 0.25%float) mockData "days" 0%nat
          = Some (p, 1%nat)
       /\ PricePrediction.color p = Trend.color t
       /\ PricePrediction.confidence p = Trend.confidence t
       /\ PricePrediction.analysis p = Trend.analysis t
       /\ PricePrediction.indicators p = Trend.indicators t.
Proof.
  assert (Hne : mockData <> []) by discriminate.
  split; [exact Hne|].
  exact (generatePricePrediction_passes_trend (fun _ => 0.25%float) mockData
           "days" 0%nat Hne).
Defined.

(* ================================================================== *)
(** ** The clock *)
(* ================================================================== *)

Ltac date_unfold :=
  unfold getNextTimestamps, Date.addHours, Date.addDays, Date.setMinutes_zero,
    Date.setHours_zero, Date.getDay, Date.WeekDay, Date.Day, Date.LocalTime,
    Date.UTC, Date.msPerHour, Date.msPerDay;
  cbn [NextTimestamps.hourly NextTimestamps.daily NextTimestamps.weekly].

(** X5.  The hourly and daily timestamps of [getNextTimestamps].  When local
    time is UTC plus a whole number of seconds, the hourly timestamp is the
    next start of a local hour and the daily one the next local midnight:
    each is strictly after the clock reading, at most one period after it,
    and on the boundary; the daily one is never before the hourly one. *)
Theorem getNextTimestamps_hourly_daily (tza now : Z) :
  tza mod 1000 = 0 ->
  let ts := getNextTimestamps tza now in
  now < 1000 * NextTimestamps.hourly ts <= now + 3600000
  /\ (1000 * NextTimestamps.hourly ts + tza) mod 3600000 = 0
  /\ now < 1000 * NextTimestamps.daily ts <= now + 86400000
  /\ (1000 * NextTimestamps.daily ts + tza) mod 86400000 = 0
  /\ NextTimestamps.hourly ts <= NextTimestamps.daily ts.
Proof.
  intros Htza ts. subst ts. date_unfold.
  Z.to_euclidean_division_equations. lia.
Qed.


Lemma getNextTimestamps_hourly_daily_witness :
  19800000 mod 1000 = 0
  /\ NextTimestamps.hourly (getNextTimestamps 19800000 1762074123456)
     <= NextTimestamps.daily (getNextTimestamps 19800000 1762074123456).
Proof.
  split; [reflexivity|].
  apply (getNextTimestamps_hourly_daily 19800000 1762074123456). reflexivity.
Defined.

(** The daily and weekly timestamps in closed form: with [q] the local day
    of the clock reading, the daily one is the start of day [q + 1] and the
    weekly one the start of day [q + k], the first Monday after day [q]. *)
Lemma weekly_timestamp_closed_form (tza now : Z) :
  tza mod 1000 = 0 ->
  exists q k,
    q * 86400000 <= now + tza < q * 86400000 + 86400000
    /\ 1 <= k <= 7
    /\ (q + k + 4) mod 7 = 1
    /\ 1000 * NextTimestamps.daily (getNextTimestamps tza now)
       = (q + 1) * 86400000 - tza
    /\ 1000 * NextTimestamps.weekly (getNextTimestamps tza now)
       = (q + k) * 86400000 - tza.
Proof.
  intros Htza. date_unfold.
  pose proof (Z.div_mod (now + tza) 86400000 ltac:(lia)) as Hq.
  pose proof (Z.mod_pos_bound (now + tza) 86400000 ltac:(lia)) as Hr.
  set (q := (now + tza) / 86400000) in *.
  replace (now + tza - (now + tza) mod 86400000 - tza + tza)
    with (q * 86400000) by lia.
  rewrite Z.div_mul by lia.
  pose proof (Z.mod_pos_bound (q + 4) 7 ltac:(lia)) as Hw.
  pose proof (Z.div_mod (q + 4) 7 ltac:(lia)) as Hwq.
  set (w := (q + 4) mod 7) in *.
  rewrite Z.rem_mod_nonneg by lia.
  pose proof (Z.mod_pos_bound (8 - w) 7 ltac:(lia)) as Hk.
  pose proof (Z.div_mod (8 - w) 7 ltac:(lia)) as Hkq.
  set (k := (8 - w) mod 7) in *.
  set (k' := if k =? 0 then 7 else k).
  assert (Hk' : 1 <= k' <= 7 /\ (k' - k) mod 7 = 0).
  { subst k'. destruct (Z.eqb_spec k 0) as [->|]; [now split|].
    split; [lia|]. now rewrite Z.sub_diag. }
  destruct Hk' as [Hk1 Hk2].
  pose proof (Z.div_mod tza 1000 ltac:(lia)) as Ht. rewrite Htza in Ht.
  set (t := tza / 1000) in *.
  replace (q * 86400000 + k' * 86400000 - tza)
    with ((86400 * (q + k') - t) * 1000) by lia.
  replace (q * 86400000 + 1 * 86400000 - tza)
    with ((86400 * (q + 1) - t) * 1000) by lia.
  rewrite !Z.div_mul by lia.
  exists q, k'. split; [lia|]. split; [exact Hk1|]. split; [|lia].
  pose proof (Z.div_mod (k' - k) 7 ltac:(lia)) as Hd. rewrite Hk2 in Hd.
  pose proof (Z.mod_pos_bound (q + k' + 4) 7 ltac:(lia)) as Hb.
  pose proof (Z.div_mod (q + k' + 4) 7 ltac:(lia)) as He.
  lia.
Qed.

(** X6.  The weekly timestamp of [getNextTimestamps].  When local time is UTC
    plus a whole number of seconds, the weekly timestamp is a local
    midnight that starts a Monday, strictly after the clock reading and at
    most seven days after it: on a Monday it is the Monday of the week
    after, never the current day.  It is never before the daily one. *)
Theorem getNextTimestamps_weekly (tza now : Z) :
  tza mod 1000 = 0 ->
  let ts := getNextTimestamps tza now in
  now < 1000 * NextTimestamps.weekly ts <= now + 604800000
  /\ (1000 * NextTimestamps.weekly ts + tza) mod 86400000 = 0
  /\ Date.WeekDay (1000 * NextTimestamps.weekly ts + tza) = 1
  /\ NextTimestamps.daily ts <= NextTimestamps.weekly ts.
Proof.
  intros Htza ts. subst ts.
  destruct (weekly_timestamp_closed_form tza now Htza)
    as (q & k & Hq & Hk & Hmonday & Hdaily & Hweekly).
  unfold Date.WeekDay, Date.Day, Date.msPerDay.
  replace (1000 * NextTimestamps.weekly (getNextTimestamps tza now) + tza)
    with ((q + k) * 86400000) by lia.
  rewrite Z.mod_mul, Z.div_mul by lia.
  split; [lia|]. split; [reflexivity|]. split; [exact Hmonday | lia].
Qed.

Lemma getNextTimestamps_weekly_witness :
  0 mod 1000 = 0
  /\ Date.WeekDay (1000 * NextTimestamps.weekly (getNextTimestamps 0 1762128000000) + 0) = 1
  /\ 1762128000000 + 604800000
     = 1000 * NextTimestamps.weekly (getNextTimestamps 0 1762128000000).
Proof.
  split; [reflexivity|].
  pose proof (getNextTimestamps_weekly 0 1762128000000 eq_refl) as H.
  split; [apply H | reflexivity].
Defined.

(* ================================================================== *)
(** ** The command line *)
(* ================================================================== *)





(* ================================================================== *)
(** ** Batches *)
(* ================================================================== *)

(** The loop of [generatePredictions] never throws: it appends one record
    per iteration, record [k] being the projection made after the draws of
    the records before it, under the timestamp of step [i + k]. *)
Lemma generatePredictions_loop_records (random : nat -> float)
  (historicalData : list Candle.t) (interval : string) (baseTimestamp : Z) :
  forall (n : nat) (i : Z) (acc : list Prediction.t) (s : nat),
  exists new : list Prediction.t,
    generatePredictions_loop random historicalData interval baseTimestamp
      n i acc s
    = Some ((acc ++ new)%list, (s + n * draws_per_record historicalData)%nat)
    /\ List.length new = n
    /\ forall k, (k < n)%nat ->
         exists pp,
           generatePricePrediction random historicalData interval
             (s + k * draws_per_record historicalData)%nat
           = Some (pp, (s + S k * draws_per_record historicalData)%nat)
           /\ nth_error new k
              = Some (Prediction.mk
                        (interval_timestamp interval baseTimestamp
                           (i + Z.of_nat k))
                        (PricePrediction.color pp)
                        (PricePrediction.confidence pp)
                        (PricePrediction.price pp)
                        (PricePrediction.analysis pp)
                        (PricePrediction.indicators pp)).
Proof.
  induction n as [|n IH]; intros i acc s.
  - exists []. cbn [generatePredictions_loop]. unfold ret.
    rewrite app_nil_r. split; [do 2 f_equal; lia|]. split; [reflexivity|].
    intros k Hk. lia.
  - cbn [generatePredictions_loop]. unfold bind at 1.
    destruct (generatePricePrediction_total random historicalData interval s)
      as [p Hp].
    fold (draws_per_record historicalData) in Hp. rewrite Hp.
    match goal with
    | |- context [generatePredictions_loop _ _ _ _ n (i + 1) (acc ++ [?x])%list ?s1] =>
        destruct (IH (i + 1) (acc ++ [x])%list s1) as (new & Hrun & Hlen & Hrec);
        exists (x :: new)
    end.
    rewrite Hrun, <- app_assoc. split; [cbn [app]; do 2 f_equal; lia|].
    split; [cbn [List.length]; now rewrite Hlen|].
    intros [|k] Hk.
    + exists p. split.
      * replace (s + 0 * draws_per_record historicalData)%nat
          with s by lia. rewrite Hp. do 2 f_equal. lia.
      * cbn [nth_error]. unfold interval_timestamp.
        replace (i + Z.of_nat 0) with i by lia. reflexivity.
    + destruct (Hrec k ltac:(lia)) as (pp & Hpp & Hnth). exists pp. split.
      * replace (s + S k * draws_per_record historicalData)%nat
          with (s + draws_per_record historicalData
                + k * draws_per_record historicalData)%nat by lia.
        replace (s + S (S k) * draws_per_record historicalData)%nat
          with (s + draws_per_record historicalData
                + S k * draws_per_record historicalData)%nat by lia.
        exact Hpp.
      * cbn [nth_error]. rewrite Hnth.
        replace (i + 1 + Z.of_nat k) with (i + Z.of_nat (S k)) by lia.
        reflexivity.
Qed.

Lemma map_of_nth_error {A B : Type} (g : A -> B) :
  forall (l : list A) (f : nat -> B) (n : nat),
  List.length l = n ->
  (forall k, (k < n)%nat -> option_map g (nth_error l k) = Some (f k)) ->
  map g l = map f (seq 0 n).
Proof.
  induction l as [|x l IH]; intros f n Hlen H; subst n; [reflexivity|].
  cbn [List.length seq map]. f_equal.
  - specialize (H 0%nat ltac:(cbn [List.length]; lia)).
    cbn [nth_error option_map] in H. congruence.
  - rewrite <- seq_shift, map_map. apply IH; [reflexivity|].
    intros k Hk. apply (H (S k)). cbn [List.length]. lia.
Qed.

Lemma Forall_of_nth_error {A : Type} (P : A -> Prop) (l : list A) :
  (forall k, (k < List.length l)%nat ->
     exists x, nth_error l k = Some x /\ P x) ->
  Forall P l.
Proof.
  intros H. apply Forall_forall. intros x Hin.
  destruct (In_nth_error _ _ Hin) as [k Hk].
  assert (Hlt : (k < List.length l)%nat)
    by (apply nth_error_Some; congruence).
  destruct (H k Hlt) as (y & Hy & HP). congruence.
Qed.

Lemma interval_timestamp_cadence (c : Cadence) (baseTimestamp i : Z) :
  interval_timestamp (Cadence_token c) baseTimestamp i
  = Some (baseTimestamp + i * Cadence_period c).
Proof. destruct c; reflexivity. Qed.

Lemma interval_timestamp_unknown (interval : string) (baseTimestamp i : Z) :
  (forall c, interval <> Cadence_token c) ->
  interval_timestamp interval baseTimestamp i = None.
Proof.
  intros H. unfold interval_timestamp, JS.get, intervalSeconds.
  cbn [JS.own_lookup].
  destruct (String.eqb_spec "hours" interval) as [E|_];
    [exfalso; apply (H Hourly); now rewrite <- E|].
  destruct (String.eqb_spec "days" interval) as [E|_];
    [exfalso; apply (H Daily); now rewrite <- E|].
  destruct (String.eqb_spec "weeks" interval) as [E|_];
    [exfalso; apply (H Weekly); now rewrite <- E|].
  now destruct (existsb _ _).
Qed.

Lemma generatePricePrediction_carries (random : nat -> float)
  (priceData : list Candle.t) (interval : string) (s s' : nat)
  (t : Trend.t) (pp : PricePrediction.t) :
  priceData <> [] ->
  analyzeTrend priceData = Some t ->
  generatePricePrediction random priceData interval s = Some (pp, s') ->
  PricePrediction.color pp = Trend.color t
  /\ PricePrediction.confidence pp = Trend.confidence t
  /\ PricePrediction.analysis pp = Trend.analysis t
  /\ PricePrediction.indicators pp = Trend.indicators t.
Proof.
  intros Hne Ht. destruct (last_elem_nonempty priceData Hne) as [x Hx].
  unfold generatePricePrediction, bind, lift, ret, throw, Math_random.
  destruct (List.length priceData =? 0)%nat eqn:Hlen.
  { apply Nat.eqb_eq in Hlen. destruct priceData; [congruence|discriminate]. }
  rewrite Hx, Ht. intros H. injection H as <- _. repeat split.
Qed.

Lemma draws_per_record_nonempty (historicalData : list Candle.t) :
  historicalData <> [] -> draws_per_record historicalData = 1%nat.
Proof. unfold draws_per_record. destruct historicalData; [congruence|reflexivity]. Qed.

(** The records of a batch over a non-empty candle sequence all carry the
    trend of that sequence. *)
Lemma generatePredictions_loop_uniform (random : nat -> float)
  (historicalData : list Candle.t) (interval : string) (baseTimestamp : Z)
  (t : Trend.t) (n : nat) (s : nat) :
  historicalData <> [] ->
  analyzeTrend historicalData = Some t ->
  exists new,
    generatePredictions_loop random historicalData interval baseTimestamp
      n 0 [] s = Some (new, (s + n)%nat)
    /\ List.length new = n
    /\ map Prediction.timestamp new
       = map (fun k => interval_timestamp interval baseTimestamp (Z.of_nat k))
           (seq 0 n)
    /\ Forall (carries_trend t) new.
Proof.
  intros Hne Ht.
  destruct (generatePredictions_loop_records random historicalData interval
              baseTimestamp n 0 [] s) as (new & Hrun & Hlen & Hrec).
  rewrite (draws_per_record_nonempty _ Hne) in Hrun.
  exists new. cbn [app] in Hrun.
  split; [rewrite Hrun; do 2 f_equal; lia|]. split; [exact Hlen|]. split.
  - apply map_of_nth_error; [exact Hlen|]. intros k Hk.
    destruct (Hrec k Hk) as (pp & _ & ->). reflexivity.
  - apply Forall_of_nth_error. intros k Hk. rewrite Hlen in Hk.
    destruct (Hrec k Hk) as (pp & Hpp & ->). eexists. split; [reflexivity|].
    destruct (generatePricePrediction_carries _ _ _ _ _ _ _ Hne Ht Hpp)
      as (H1 & H2 & H3 & H4).
    repeat split; assumption.
Qed.

(** X8.  A batch has one direction.  Over a non-empty candle sequence
    [generatePredictions] makes exactly one draw per record, and every
    record of the batch carries the same direction, confidence, text and
    indicators, those [analyzeTrend] gives on the sequence: the records of a
    batch differ in timestamp and price only. *)
Theorem generatePredictions_uniform_batch (random : nat -> float)
  (nextTimestamps : NextTimestamps.t) (historicalData : list Candle.t)
  (interval : string) (count s : nat) :
  historicalData <> [] ->
  exists t predictions,
    analyzeTrend historicalData = Some t
    /\ generatePredictions random nextTimestamps historicalData interval
         count s = Some (predictions, (s + count)%nat)
    /\ List.length predictions = count
    /\ Forall (carries_trend t) predictions.
Proof.
  intros Hne. destruct (analyzeTrend_total historicalData) as [t Ht].
  unfold generatePredictions.
  match goal with
  | |- context [generatePredictions_loop _ _ _ ?b _ _ _ _] =>
      destruct (generatePredictions_loop_uniform random historicalData
                  interval b t count s Hne Ht) as (new & Hrun & Hlen & _ & Hall)
  end.
  exists t, new. auto.
Qed.

Lemma generatePredictions_uniform_batch_witness :
  mockData <> []
  /\ exists t predictions,
       analyzeTrend mockData = Some t
       /\ generatePredictions (fun _ => 0.25%float) sampleTimestamps mockData
            "hours" 48 0%nat = Some (predictions, 48%nat)
       /\ List.length predictions = 48%nat
       /\ Forall (carries_trend t) predictions.
Proof.
  assert (Hne : mockData <> []) by discriminate.
  split; [exact Hne|].
  exact (generatePredictions_uniform_batch (fun _ => 0.25%float)
           sampleTimestamps mockData "hours" 48 0%nat Hne).
Defined.

(** The timestamp column of the CSV text holds the timestamps of the
    records, in order. *)
Lemma csv_timestamps_spec (predictions : list Prediction.t) :
  csv_timestamps (predictionsToCSV predictions)
  = map (fun p => timestamp_toString (Prediction.timestamp p)) predictions.
Proof.
  unfold csv_timestamps, predictionsToCSV.
  rewrite (split_on_concat newline_char).
  - cbn [tl]. rewrite map_map. apply map_ext. intros p.
    assert (E : split_on comma (csv_row p) = csv_fields p).
    { rewrite csv_row_fields. apply (split_on_concat comma).
      eapply Forall_impl; [|apply csv_fields_text].
      intros s Hs. apply (field_text_free comma); [now left | exact Hs]. }
    rewrite E. reflexivity.
  - constructor; [reflexivity|].
    apply Forall_forall. intros row Hrow. apply in_map_iff in Hrow.
    destruct Hrow as (p & <- & _). apply csv_row_free_of_newline.
Qed.

Lemma generatePredictions_base (nextTimestamps : NextTimestamps.t) (c : Cadence) :
  (if String.eqb (Cadence_token c) "hours"
   then NextTimestamps.hourly nextTimestamps
   else if String.eqb (Cadence_token c) "days"
        then NextTimestamps.daily nextTimestamps
        else NextTimestamps.weekly nextTimestamps)
  = Cadence_firstAligned nextTimestamps c.
Proof. destruct c; reflexivity. Qed.

(** A batch never throws, whatever the interval token and the candles. *)
Lemma generatePredictions_records (random : nat -> float)
  (nextTimestamps : NextTimestamps.t) (historicalData : list Candle.t)
  (interval : string) (count s : nat) :
  exists predictions baseTimestamp,
    generatePredictions random nextTimestamps historicalData interval count s
    = Some (predictions,
            (s + count * draws_per_record historicalData)%nat)
    /\ List.length predictions = count
    /\ map Prediction.timestamp predictions
       = map (fun k => interval_timestamp interval baseTimestamp (Z.of_nat k))
           (seq 0 count)
    /\ (forall c, interval = Cadence_token c ->
          baseTimestamp = Cadence_firstAligned nextTimestamps c).
Proof.
  unfold generatePredictions.
  match goal with
  | |- context [generatePredictions_loop _ _ _ ?b _ _ _ _] =>
      destruct (generatePredictions_loop_records random historicalData
                  interval b count 0 [] s) as (new & Hrun & Hlen & Hrec);
      exists new, b
  end.
  cbn [app] in Hrun. split; [exact Hrun|]. split; [exact Hlen|]. split.
  - apply map_of_nth_error; [exact Hlen|]. intros k Hk.
    destruct (Hrec k Hk) as (pp & _ & ->). reflexivity.
  - intros c ->. apply generatePredictions_base.
Qed.

Lemma map_const_repeat {A B : Type} (b : B) (l : list A) :
  map (fun _ => b) l = repeat b (List.length l).
Proof. induction l as [|x l IH]; [reflexivity|]. cbn. now rewrite IH. Qed.

(** X9.  An interval token other than [hours], [days] and [weeks] is not
    rejected: [generatePredictions] still returns [count] records, and
    every one of them has the timestamp [NaN], which the CSV text then
    carries as the word [NaN] in each row. *)
Theorem generatePredictions_unknown_interval_timestamps
  (random : nat -> float) (nextTimestamps : NextTimestamps.t)
  (historicalData : list Candle.t) (interval : string) (count s : nat) :
  (forall c, interval <> Cadence_token c) ->
  exists predictions s',
    generatePredictions random nextTimestamps historicalData interval count s
    = Some (predictions, s')
    /\ List.length predictions = count
    /\ Forall (fun p => Prediction.timestamp p = None) predictions
    /\ csv_timestamps (predictionsToCSV predictions) = repeat "NaN" count.
Proof.
  intros Hunknown.
  destruct (generatePredictions_records random nextTimestamps historicalData
              interval count s) as (preds & b & Hrun & Hlen & Hts & _).
  exists preds, (s + count * draws_per_record historicalData)%nat.
  split; [exact Hrun|]. split; [exact Hlen|].
  assert (Hnone : map Prediction.timestamp preds = repeat None count).
  { rewrite Hts.
    rewrite (map_ext _ (fun _ => None)
               (fun k => interval_timestamp_unknown interval b (Z.of_nat k)
                           Hunknown)).
    now rewrite map_const_repeat, length_seq. }
  split.
  - apply Forall_forall. intros p Hp.
    apply (in_map Prediction.timestamp) in Hp. rewrite Hnone in Hp.
    now apply repeat_spec in Hp.
  - rewrite csv_timestamps_spec.
    rewrite <- (map_map Prediction.timestamp timestamp_toString), Hnone.
    rewrite map_repeat. reflexivity.
Qed.

Lemma generatePredictions_unknown_interval_timestamps_witness :
  (forall c, "monthly" <> Cadence_token c)
  /\ exists predictions s',
       generatePredictions (fun _ => 0.25%float) sampleTimestamps mockData
         "monthly" 5 0%nat = Some (predictions, s')
       /\ List.length predictions = 5%nat
       /\ Forall (fun p => Prediction.timestamp p = None) predictions
       /\ csv_timestamps (predictionsToCSV predictions) = repeat "NaN" 5.
Proof.
  assert (H : forall c, "monthly" <> Cadence_token c)
    by (intros c; destruct c; discriminate).
  split; [exact H|].
  exact (generatePredictions_unknown_interval_timestamps (fun _ => 0.25%float)
           sampleTimestamps mockData "monthly" 5 0%nat H).
Defined.

(* ================================================================== *)
(** ** The preview table *)
(* ================================================================== *)

Lemma slice_all {A : Type} (l : list A) :
  JS.slice l 0 (Some (Z.of_nat (List.length l))) = l.
Proof.
  unfold JS.slice. cbn [Z.ltb Z.compare].
  destruct (Z.ltb_spec (Z.of_nat (List.length l)) 0) as [H|_]; [lia|].
  rewrite Z.min_id.
  replace (Z.min 0 (Z.of_nat (List.length l))) with 0 by lia.
  cbn [Z.to_nat skipn]. rewrite Z.sub_0_r, Z.max_l, Nat2Z.id by lia.
  apply firstn_all.
Qed.

(** X10.  [previewPredictions] on an interval token other than [hours],
    [days] and [weeks] does not print a table: asked for at least one row,
    it throws after the batch has been generated, because the [NaN]
    timestamp of the first record is not a valid date for
    [toISOString]. *)
Theorem previewPredictions_unknown_interval_throws (random : nat -> float)
  (nextTimestamps : NextTimestamps.t) (historicalData : list Candle.t)
  (interval : string) (count s : nat) :
  (forall c, interval <> Cadence_token c) ->
  (0 < count)%nat ->
  previewPredictions random nextTimestamps historicalData interval count s
  = None.
Proof.
  intros Hunknown Hcount. unfold previewPredictions, bind.
  destruct (generatePredictions_records random nextTimestamps historicalData
              interval count s) as (preds & b & -> & Hlen & Hts & _).
  rewrite <- Hlen, slice_all.
  destruct preds as [|p preds]; [cbn [List.length] in Hlen; lia|].
  destruct count as [|count]; [lia|].
  cbn [map seq] in Hts. injection Hts as Hp _.
  rewrite interval_timestamp_unknown in Hp by exact Hunknown.
  cbn [preview_rows]. unfold preview_row. rewrite Hp. reflexivity.
Qed.

Lemma previewPredictions_unknown_interval_throws_witness :
  (forall c, "monthly" <> Cadence_token c)
  /\ (0 < 5)%nat
  /\ previewPredictions (fun _ => 0.25%float) sampleTimestamps mockData
       "monthly" 5 0%nat = None.
Proof.
  assert (H : forall c, "monthly" <> Cadence_token c)
    by (intros c; destruct c; discriminate).
  assert (H5 : (0 < 5)%nat) by lia.
  split; [exact H|]. split; [exact H5|].
  exact (previewPredictions_unknown_interval_throws (fun _ => 0.25%float)
           sampleTimestamps mockData "monthly" 5 0%nat H H5).
Defined.




(* ================================================================== *)
(** ** The three files *)
(* ================================================================== *)


(* ================================================================== *)
(** ** The network *)
(* ================================================================== *)

Lemma sort_by_timestamp_length (l : list Candle.t) :
  List.length (sort_by_timestamp l) = List.length l.
Proof.
  apply Permutation_length, Permutation_sym, sort_by_timestamp_perm.
Qed.

Lemma analyzeTrend_analysis (priceData : list Candle.t) (t : Trend.t) :
  analyzeTrend priceData = Some t ->
  Trend.analysis t <> "No historical data - random prediction".
Proof.
  unfold analyzeTrend.
  destruct (List.length priceData <? 3)%nat.
  - intros H. injection H as <-. discriminate.
  - destruct (findSupportResistance _); [|discriminate].
    intros H. injection H as <-. cbn [Trend.analysis].
    unfold generateAnalysisText.
    match goal with
    | |- context [Color_toUpperCase ?c] => destruct c
    end; cbn [Color_toUpperCase append]; discriminate.
Qed.

(** [generatePredictions] with usable answers is the batch over the
    normalized candles, which are not empty; otherwise it throws. *)
Lemma generatePredictions_fetching_spec (random : nat -> float)
  (nextTimestamps : NextTimestamps.t) (fetched : Fetched)
  (currentPrice : option CurrentPrice.t) (interval : string) (count s : nat) :
  if answers_usable fetched currentPrice
  then exists historicalData,
         historicalData <> []
         /\ generatePredictions_fetching random nextTimestamps fetched
              currentPrice interval count s
            = generatePredictions random nextTimestamps historicalData
                interval count s
  else generatePredictions_fetching random nextTimestamps fetched
         currentPrice interval count s = None.
Proof.
  unfold answers_usable, generatePredictions_fetching, fetchOHLCData.
  destruct fetched as [|response]; [reflexivity|].
  destruct (Response.ok response); cbn [negb andb];
    [|destruct (Response.text response); reflexivity].
  destruct (Response.json response) as [| |[|]|[|row rows]]; cbn [andb];
    try reflexivity.
  cbn [List.length Nat.eqb]. unfold bind, lift.
  destruct (logCurrentPrice currentPrice) as [[]|]; [|reflexivity].
  unfold ret. exists (normalizeOHLCData (row :: rows)). split; [|reflexivity].
  intros E. apply (f_equal (@List.length _)) in E.
  unfold normalizeOHLCData in E.
  rewrite sort_by_timestamp_length, length_map in E. discriminate E.
Qed.

Lemma answers_usable_spec (fetched : Fetched)
  (currentPrice : option CurrentPrice.t) :
  answers_usable fetched currentPrice = true
  <-> (exists response row rows,
         fetched = Resolved response
         /\ Response.ok response = true
         /\ Response.json response = Body.Rows (row :: rows))
      /\ logCurrentPrice currentPrice = Some tt.
Proof.
  unfold answers_usable. split.
  - intros H. apply andb_prop in H. destruct H as [Hf Hl]. split.
    + destruct fetched as [|response]; [discriminate Hf|].
      apply andb_prop in Hf. destruct Hf as [Hok Hj].
      destruct (Response.json response) as [| | |[|row rows]] eqn:E;
        try discriminate Hj.
      exists response, row, rows. auto.
    + destruct (logCurrentPrice currentPrice) as [[]|];
        [reflexivity | discriminate Hl].
  - intros [(response & row & rows & -> & Hok & Hj) Hl].
    now rewrite Hok, Hj, Hl.
Qed.

(** X12.  The whole of [generatePredictions].  It returns a batch exactly when
    the fetch resolves to an [ok] response whose JSON body is an array of
    at least one row, and the current-price object is [null] or has a
    number for its price and for its 24 h change; in every other case (a
    rejected fetch, a status that is not [ok], a body that is not JSON, a
    body that is [null], falsy, not an array or an empty array, a log line
    that throws on [toFixed]) it throws.  When it returns, the candle
    sequence it worked on is not empty, so one draw was made per record and
    no record is the random fallback of [generatePricePrediction]. *)
Theorem generatePredictions_fetching_outcome (random : nat -> float)
  (nextTimestamps : NextTimestamps.t) (fetched : Fetched)
  (currentPrice : option CurrentPrice.t) (interval : string) (count s : nat) :
  ((exists predictions s',
      generatePredictions_fetching random nextTimestamps fetched currentPrice
        interval count s = Some (predictions, s'))
   <-> (exists response row rows,
          fetched = Resolved response
          /\ Response.ok response = true
          /\ Response.json response = Body.Rows (row :: rows))
       /\ logCurrentPrice currentPrice = Some tt)
  /\ forall predictions s',
       generatePredictions_fetching random nextTimestamps fetched currentPrice
         interval count s = Some (predictions, s') ->
       s' = (s + count)%nat
       /\ List.length predictions = count
       /\ Forall (fun p => Prediction.analysis p
                           <> "No historical data - random prediction")
            predictions.
Proof.
  rewrite <- answers_usable_spec.
  pose proof (generatePredictions_fetching_spec random nextTimestamps fetched
                currentPrice interval count s) as Hspec.
  destruct (answers_usable fetched currentPrice).
  - destruct Hspec as (hist & Hne & ->).
    destruct (analyzeTrend_total hist) as [t Ht].
    unfold generatePredictions.
    match goal with
    | |- context [generatePredictions_loop _ _ _ ?b _ _ _ _] =>
        destruct (generatePredictions_loop_uniform random hist interval b t
                    count s Hne Ht) as (new & Hrun & Hlen & _ & Hall)
    end.
    rewrite Hrun. split.
    + split; [reflexivity | eauto].
    + intros preds s' E. injection E as <- <-.
      split; [reflexivity|]. split; [exact Hlen|].
      eapply Forall_impl; [|exact Hall].
      intros p (_ & _ & Ha & _). rewrite Ha.
      exact (analyzeTrend_analysis _ _ Ht).
  - rewrite Hspec. split.
    + split; [intros (p & s' & H); discriminate H | discriminate].
    + discriminate.
Qed.


Lemma filter_insert_by_timestamp (tau : Z) (x : Candle.t) (l : list Candle.t) :
  filter (same_timestamp tau) (insert_by_timestamp x l)
  = filter (same_timestamp tau) (x :: l).
Proof.
  induction l as [|y l IH]; [reflexivity|]. cbn [insert_by_timestamp].
  destruct (Z.leb_spec (Candle.timestamp x) (Candle.timestamp y)) as [_|Hlt];
    [reflexivity|].
  cbn [filter] in IH |- *. rewrite IH. unfold same_timestamp.
  destruct (Z.eqb_spec (Candle.timestamp x) tau) as [Ex|_]; [|reflexivity].
  destruct (Z.eqb_spec (Candle.timestamp y) tau) as [Ey|_]; [lia|reflexivity].
Qed.

(** X14.  [normalizeOHLCData] keeps every row, and its sort is stable: the
    candles that share a timestamp come out in the order their rows came
    in. *)
Theorem normalizeOHLCData_stable (ohlcData : list Raw.t) :
  List.length (normalizeOHLCData ohlcData) = List.length ohlcData
  /\ forall tau,
       filter (same_timestamp tau) (normalizeOHLCData ohlcData)
       = filter (same_timestamp tau) (map normalize_item ohlcData).
Proof.
  unfold normalizeOHLCData. split.
  - now rewrite sort_by_timestamp_length, length_map.
  - intros tau. induction (map normalize_item ohlcData) as [|x l IH];
      [reflexivity|].
    cbn [sort_by_timestamp fold_right].
    fold (sort_by_timestamp l). rewrite filter_insert_by_timestamp.
    cbn [filter]. now rewrite IH.
Qed.

(* ================================================================== *)
(** ** Further properties of the trend analyzer *)
(* ================================================================== *)

(** X15.  The values the confidence of [analyzeTrend] can take.  The analyzer
    never throws; below 3 candles the confidence is 0.5, and from 3 candles
    on it is either [NaN] or a number within [0.55, 0.95]. *)
Theorem analyzeTrend_confidence_values (priceData : list Candle.t) :
  exists t,
    analyzeTrend priceData = Some t
    /\ if (List.length priceData <? 3)%nat
       then Trend.confidence t = 0.5%float
       else PrimFloat.is_nan (Trend.confidence t) = true
            \/ within 0.55 0.95 (Trend.confidence t) = true.
Proof.
  destruct (analyzeTrend_total priceData) as [t Ht]. exists t.
  split; [exact Ht|]. revert Ht. unfold analyzeTrend.
  destruct (List.length priceData <? 3)%nat.
  - intros H. injection H as <-. reflexivity.
  - destruct (findSupportResistance _) as [sr|]; [|discriminate].
    intros H. injection H as <-. cbn [Trend.confidence].
    match goal with
    | |- context [JS.Math_max 0.55 ?x] =>
        generalize x; intros c; destruct (PrimFloat.is_nan c) eqn:Hc
    end.
    + left. unfold JS.Math_max. rewrite Hc, orb_true_r.
      vm_compute. reflexivity.
    + right. apply Number_toFixed_confidence.
      apply clamp_within; (vm_compute; reflexivity) || exact Hc.
Qed.

Lemma calculateVolumeTrend_short (data : list Candle.t) :
  (List.length data <= 3)%nat -> calculateVolumeTrend data = 0.
Proof.
  intros Hlen. unfold calculateVolumeTrend.
  destruct (negb (existsb has_positive_volume data)); [reflexivity|].
  assert (E : JS.slice data (-6) (Some (-3)) = []).
  { unfold JS.slice. change (-6 <? 0) with true. change (-3 <? 0) with true.
    cbv iota.
    replace (Z.max (Z.of_nat (List.length data) + -3) 0) with 0 by lia.
    replace (Z.max (Z.of_nat (List.length data) + -6) 0) with 0 by lia.
    reflexivity. }
  rewrite E. reflexivity.
Qed.

(** X16.  What a short history cannot say.  With fewer than 5 candles the
    moving-average signal is 0, and with only 3 candles the volume signal is
    0 whatever the volumes are, because there is no older group to compare
    with: on the minimum of 3 candles only momentum and support/resistance
    can have an opinion. *)
Theorem analyzeTrend_short_history (priceData : list Candle.t) :
  (3 <= List.length priceData)%nat ->
  exists t ind,
    analyzeTrend priceData = Some t
    /\ Trend.indicators t = Some ind
    /\ ((List.length priceData < 5)%nat -> Indicators.movingAverage ind = 0)
    /\ ((List.length priceData <= 3)%nat -> Indicators.volume ind = 0).
Proof.
  intros Hlen3. destruct (analyzeTrend_total priceData) as [t Ht].
  exists t. revert Ht. unfold analyzeTrend.
  destruct (Nat.ltb_spec (List.length priceData) 3) as [H|_]; [lia|].
  destruct (findSupportResistance _) as [sr|]; [|discriminate].
  intros H. injection H as <-. cbn [Trend.indicators].
  eexists. split; [reflexivity|]. split; [reflexivity|].
  cbn [Indicators.movingAverage Indicators.volume].
  pose proof (recent_window_length priceData) as Hw. split; intros Hlen.
  - unfold calculateMovingAverageTrend.
    destruct (Nat.ltb_spec (List.length (recent_window priceData)) 5);
      [reflexivity | lia].
  - apply calculateVolumeTrend_short. lia.
Qed.

Lemma analyzeTrend_short_history_witness :
  (3 <= List.length tradedData)%nat
  /\ exists t ind,
       analyzeTrend tradedData = Some t
       /\ Trend.indicators t = Some ind
       /\ ((List.length tradedData < 5)%nat -> Indicators.movingAverage ind = 0)
       /\ ((List.length tradedData <= 3)%nat -> Indicators.volume ind = 0).
Proof.
  assert (H : (3 <= List.length tradedData)%nat) by (cbn; lia).
  split; [exact H|]. exact (analyzeTrend_short_history tradedData H).
Defined.

(* ================================================================== *)
(** ** The price column of the preview *)
(* ================================================================== *)

Lemma string_length_app (a b : string) :
  String.length (a ++ b) = (String.length a + String.length b)%nat.
Proof. induction a as [|c a IH]; cbn [append String.length]; [reflexivity | now rewrite IH]. Qed.

Lemma string_app_assoc (a b c : string) : (a ++ b) ++ c = a ++ (b ++ c).
Proof. induction a as [|x a IH]; cbn [append]; [reflexivity | now rewrite IH]. Qed.

Lemma substring_length (s : string) :
  forall n m, (n + m <= String.length s)%nat ->
  String.length (substring n m s) = m.
Proof.
  induction s as [|c s IH]; intros n m H; cbn [String.length] in H.
  - destruct n, m; try lia; reflexivity.
  - destruct n as [|n]; cbn [substring].
    + destruct m as [|m]; [reflexivity|]. cbn [String.length].
      rewrite (IH 0%nat m) by lia. reflexivity.
    + apply IH. lia.
Qed.

Lemma list_ascii_of_string_app (a b : string) :
  list_ascii_of_string (a ++ b)
  = (list_ascii_of_string a ++ list_ascii_of_string b)%list.
Proof.
  induction a as [|c a IH]; cbn [append list_ascii_of_string app];
    [reflexivity | now rewrite IH].
Qed.

Lemma zeros_length (n : nat) : String.length (JS.zeros n) = n.
Proof. induction n as [|n IH]; cbn [JS.zeros String.length]; [reflexivity | now rewrite IH]. Qed.

Lemma is_digit_zeros (n : nat) : all_chars is_digit (JS.zeros n) = true.
Proof. induction n as [|n IH]; [reflexivity | exact IH]. Qed.

Lemma is_digit_uint (d : Decimal.uint) :
  all_chars is_digit (NilEmpty.string_of_uint d) = true.
Proof. induction d; cbn; auto. Qed.

Lemma is_digit_digits (n : Z) : all_chars is_digit (JS.digits n) = true.
Proof.
  unfold JS.digits, NilZero.string_of_uint.
  destruct (N.to_uint (Z.to_N n)); try reflexivity; apply is_digit_uint.
Qed.

Lemma digits_nonempty (n : Z) : (1 <= String.length (JS.digits n))%nat.
Proof.
  unfold JS.digits, NilZero.string_of_uint.
  destruct (N.to_uint (Z.to_N n)); cbn [NilEmpty.string_of_uint String.length]; lia.
Qed.

Lemma two_decimals_suffix (pre : string) (a b : ascii) :
  is_digit a = true -> is_digit b = true ->
  two_decimals (pre ++ String "." (String a (String b EmptyString))) = true.
Proof.
  intros Ha Hb. unfold two_decimals.
  rewrite list_ascii_of_string_app, rev_app_distr.
  cbn [list_ascii_of_string rev app]. now rewrite Ha, Hb.
Qed.

(** The text of a number to 2 decimals ends in a point and two digits. *)
Lemma fixed_string_two_decimals (neg : bool) (n : Z) :
  two_decimals (JS.fixed_string (JS.FixedDigits neg n 2)) = true.
Proof.
  unfold JS.fixed_string.
  set (m := if (String.length (JS.digits n) <=? 2)%nat
            then JS.zeros (2 + 1 - String.length (JS.digits n))
                 ++ JS.digits n
            else JS.digits n).
  assert (Hlen : (3 <= String.length m)%nat).
  { subst m. pose proof (digits_nonempty n).
    destruct (Nat.leb_spec (String.length (JS.digits n)) 2); [|lia].
    rewrite string_length_app, zeros_length. lia. }
  assert (Hdig : all_chars is_digit m = true).
  { subst m. destruct (String.length (JS.digits n) <=? 2)%nat;
      [rewrite all_chars_app, is_digit_zeros|]; apply is_digit_digits. }
  cbn [Nat.eqb].
  pose proof (substring_length m (String.length m - 2) 2 ltac:(lia)) as Hl.
  pose proof (all_chars_substring is_digit m Hdig (String.length m - 2) 2) as Hd.
  destruct (substring (String.length m - 2) 2 m) as [|a [|b [|c r]]];
    try discriminate Hl.
  cbn [all_chars] in Hd. apply andb_prop in Hd. destruct Hd as [Ha Hb].
  apply andb_prop in Hb. destruct Hb as [Hb _].
  rewrite <- string_app_assoc.
  change ("." ++ String a (String b EmptyString))
    with (String "." (String a (String b EmptyString))).
  now apply two_decimals_suffix.
Qed.

Lemma toFixed_two_decimals (x : float) :
  (abs x <? 1e21)%float = true -> two_decimals (JS.toFixed x 2) = true.
Proof.
  intros Hx. unfold JS.toFixed, JS.toFixed_parts.
  assert (E21 : Prim2SF 1e21 = S754_finite false 7629394531250000 17)
    by (vm_compute; reflexivity).
  pose proof Hx as Hlt. rewrite ltb_spec, abs_spec, E21 in Hlt.
  destruct (Prim2SF x) as [s|s| |s m e] eqn:E.
  - apply fixed_string_two_decimals.
  - discriminate Hlt.
  - discriminate Hlt.
  - assert (Hle : (1e21 <=? abs x)%float = false).
    { rewrite leb_spec, abs_spec, E, E21. unfold SFleb.
      rewrite SFcompare_antisym. unfold SFltb in Hlt.
      destruct (SFcompare (SFabs (S754_finite s m e))
                  (S754_finite false 7629394531250000 17)) as [[| |]|];
        try discriminate Hlt; reflexivity. }
    rewrite Hle. apply fixed_string_two_decimals.
Qed.

(** X17.  The preview shows every price with exactly two decimals (a dollar
    sign, then a text that ends in a point and two digits) as long as the
    price is a number below [1e21] in magnitude; the CSV text of the same
    record does not pad the price. *)
Theorem preview_price_two_decimals (p : Prediction.t) :
  (abs (Prediction.price p) <? 1e21)%float = true ->
  exists text,
    preview_price p = String "$" text /\ two_decimals text = true.
Proof.
  intros Hp. exists (JS.toFixed (Prediction.price p) 2).
  split; [reflexivity|]. now apply toFixed_two_decimals.
Qed.

Lemma preview_price_two_decimals_witness :
  (abs 47 <? 1e21)%float = true
  /\ JS.Number_toString 47 = "47"
  /\ exists text,
       preview_price (Prediction.mk (Some 1762066800) green 0.75 47
                        "GREEN (75%): MA uptrend" None)
       = String "$" text /\ two_decimals text = true.
Proof.
  assert (H : (abs 47 <? 1e21)%float = true) by (vm_compute; reflexivity).
  split; [exact H|]. split; [vm_compute; reflexivity|].
  exact (preview_price_two_decimals
           (Prediction.mk (Some 1762066800) green 0.75 47
              "GREEN (75%): MA uptrend" None) H).
Defined.

(* ================================================================== *)
(** ** Rounding of a quotient, and the floor of the projected price *)
(* ================================================================== *)

Lemma scaled_step (N P : Z) (mrs : shr_record) :
  0 < P -> scaled N P mrs -> scaled N (2 * P) (shr_1 mrs).
Proof.
  intros HP (Hm & rem & t & HN & Hrem & Ht & Htb & Hs).
  destruct mrs as [m r s]. cbn [shr_m shr_r shr_s] in *.
  assert (Hs' : orb r s = true <-> 2 * rem <> 0).
  { destruct r; cbn [orb].
    - split; [lia | reflexivity].
    - rewrite Hs. lia. }
  unfold scaled.
  destruct m as [|[p|p|]|p]; try lia; cbn [shr_1 shr_m shr_r shr_s];
    (split; [lia|]).
  - exists rem, (2 * rem). repeat split; try lia; apply Hs'.
  - exists (P + rem), (2 * rem). rewrite Pos2Z.inj_xI in HN.
    repeat split; try lia; apply Hs'.
  - exists rem, (2 * rem). rewrite Pos2Z.inj_xO in HN.
    repeat split; try lia; apply Hs'.
  - exists (P + rem), (2 * rem).
    repeat split; try lia; apply Hs'.
Qed.

Lemma scaled_iter (N P : Z) (n : nat) (mrs : shr_record) :
  0 < P -> scaled N P mrs ->
  scaled N (2 ^ Z.of_nat n * P) (Nat.iter n shr_1 mrs).
Proof.
  intros HP H. induction n as [|n IH].
  - cbn [Nat.iter]. now rewrite Z.pow_0_r, Z.mul_1_l.
  - cbn [Nat.iter]. rewrite Nat2Z.inj_succ, Z.pow_succ_r, <- Z.mul_assoc by lia.
    apply scaled_step; [|exact IH].
    apply Z.mul_pos_pos; [apply Z.pow_pos_nonneg; lia | exact HP].
Qed.

Lemma shr_scaled (N P : Z) (mrs0 : shr_record) (e k : Z) :
  0 < P -> scaled N P mrs0 ->
  let '(mrs, e') := shr mrs0 e k in
  scaled N (2 ^ Z.max k 0 * P) mrs /\ e' = e + Z.max k 0.
Proof.
  intros HP H. destruct k as [|p|p]; cbn [shr].
  - cbn [Z.max Z.compare]. rewrite Z.pow_0_r, Z.mul_1_l. split; [exact H | lia].
  - split; [|lia]. rewrite iter_pos_nat.
    replace (Z.max (Zpos p) 0) with (Z.of_nat (Pos.to_nat p)) by lia.
    now apply scaled_iter.
  - replace (Z.max (Zneg p) 0) with 0 by lia.
    rewrite Z.pow_0_r, Z.mul_1_l. split; [exact H | lia].
Qed.

Lemma scaled_round_upper (N P b : Z) (mrs : shr_record) :
  0 < P -> scaled N P mrs ->
  2 * N < (2 * b + 1) * P ->
  round_nearest_even (shr_m mrs) (loc_of_shr_record mrs) <= b.
Proof.
  intros HP (Hm & rem & t & HN & Hrem & Ht & Htb & Hs) Hb.
  destruct mrs as [m r s]. cbn [shr_m shr_r shr_s] in *.
  assert (Hq : m <= b) by nia.
  destruct r, s; cbn [loc_of_shr_record round_nearest_even];
    try destruct (Z.even m); try lia; nia.
Qed.

Lemma scaled_round_lower (N P a : Z) (mrs : shr_record) :
  0 < P -> scaled N P mrs ->
  a * P <= N ->
  a <= round_nearest_even (shr_m mrs) (loc_of_shr_record mrs).
Proof.
  intros HP (Hm & rem & t & HN & Hrem & Ht & Htb & Hs) Ha.
  destruct mrs as [m r s]. cbn [shr_m shr_r shr_s] in *.
  assert (Hq : a <= m) by nia.
  destruct r, s; cbn [loc_of_shr_record round_nearest_even];
    try destruct (Z.even m); lia.
Qed.

(** The quotient of [N] by an even [D], with the location [SFdiv] gives to
    the remainder. *)
Lemma scaled_quotient (N D : Z) :
  0 < D -> Z.even D = true -> 0 <= N ->
  scaled N D (shr_record_of_loc (N / D) (new_location D (N mod D))).
Proof.
  intros HD Hev HN.
  pose proof (Z.div_mod N D ltac:(lia)) as Hdm.
  pose proof (Z.mod_pos_bound N D HD) as Hr.
  assert (Hq : 0 <= N / D) by (apply Z.div_pos; lia).
  unfold new_location. rewrite Hev. unfold new_location_even.
  destruct (Z.eqb_spec (N mod D) 0) as [E|E].
  - cbn [shr_record_of_loc]. split; [exact Hq|]. exists 0, 0.
    cbn [shr_m shr_r shr_s]. repeat split; try lia; discriminate.
  - destruct (Z.compare_spec (2 * (N mod D)) D) as [C|C|C];
      cbn [shr_record_of_loc]; (split; [exact Hq|]); cbn [shr_m shr_r shr_s].
    + exists (N mod D), 0. repeat split; try lia; discriminate.
    + exists (N mod D), (2 * (N mod D)). repeat split; try lia.
    + exists (N mod D), (2 * (N mod D) - D). repeat split; try lia.
Qed.

Lemma Zdigits2_pos_bounds (q : Z) :
  0 < q -> 2 ^ (Zdigits2 q - 1) <= q < 2 ^ Zdigits2 q.
Proof.
  intros Hq. destruct q as [|p|p]; try lia. cbn [Zdigits2].
  apply digits2_pos_bounds.
Qed.

(** Rounding the quotient [N / D] when it has at least 53 bits: the
    result is a normal number whose mantissa [m2] is bounded below by every
    integer at most [N / (2^k * D)]. *)
Lemma binary_round_aux_quotient (N D e : Z) :
  0 < D -> Z.even D = true ->
  2 ^ 52 <= N / D ->
  -1021 <= e ->
  let q := N / D in
  let k := Zdigits2 q - 53 in
  let e1 := e + k in
  exists m2,
    2 ^ 52 <= m2 <= 2 ^ 53
    /\ (forall a, a * (2 ^ k * D) <= N -> a <= m2)
    /\ binary_round_aux prec emax false q e (new_location D (N mod D))
       = rounded_result m2 e1.
Proof.
  intros HD Hev Hq52 He q k e1.
  assert (Hq : 0 < q) by (unfold q; lia).
  assert (HN : 0 <= N).
  { destruct (Z_lt_le_dec N 0) as [Hneg|]; [|assumption].
    pose proof (Z.div_lt_upper_bound N D 0 HD ltac:(lia)). unfold q in Hq. lia. }
  pose proof (Zdigits2_pos_bounds q Hq) as [Hdlo Hdhi].
  assert (Hd53 : 53 <= Zdigits2 q).
  { destruct (Z_lt_le_dec (Zdigits2 q) 53) as [Hlt|]; [|assumption].
    exfalso.
    assert (2 ^ Zdigits2 q <= 2 ^ 52) by (apply Z.pow_le_mono_r; lia).
    unfold q in *. lia. }
  assert (Hk : 0 <= k) by (unfold k; lia).
  assert (Hfexp : fexp (Zdigits2 q + e) - e = k)
    by (rewrite fexp_unfold; unfold k; lia).
  unfold binary_round_aux, shr_fexp. rewrite Hfexp.
  pose proof (shr_scaled N D (shr_record_of_loc q (new_location D (N mod D)))
                e k HD (scaled_quotient N D HD Hev HN)) as Hshr.
  destruct (shr _ e k) as [mrs e'] in Hshr |- *.
  destruct Hshr as [Hsc He']. rewrite Z.max_l in Hsc, He' by lia.
  fold e1 in He'. rewrite He'. clear He'.
  assert (HP : 0 < 2 ^ k * D).
  { apply Z.mul_pos_pos; [apply Z.pow_pos_nonneg; lia | exact HD]. }
  set (m2 := round_nearest_even (shr_m mrs) (loc_of_shr_record mrs)).
  assert (Hlo : forall a, a * (2 ^ k * D) <= N -> a <= m2)
    by (intros a; apply scaled_round_lower; assumption).
  assert (Hup : forall b, 2 * N < (2 * b + 1) * (2 ^ k * D) -> m2 <= b)
    by (intros b; apply scaled_round_upper; assumption).
  pose proof (Z.div_mod N D ltac:(lia)) as Hdm.
  pose proof (Z.mod_pos_bound N D HD) as Hr. fold q in Hdm.
  assert (Hpk : 0 < 2 ^ k) by (apply Z.pow_pos_nonneg; lia).
  assert (Hqk : 2 ^ 52 * 2 ^ k <= q /\ q < 2 ^ 53 * 2 ^ k).
  { rewrite <- !Z.pow_add_r by lia.
    replace (52 + k) with (Zdigits2 q - 1) by (unfold k; lia).
    replace (53 + k) with (Zdigits2 q) by (unfold k; lia). lia. }
  assert (H52 : 2 ^ 52 <= m2) by (apply Hlo; nia).
  assert (H53 : m2 <= 2 ^ 53) by (apply Hup; nia).
  exists m2. split; [lia|]. split; [exact Hlo|].
  assert (He1 : -1074 <= e1) by (unfold e1; lia).
  unfold rounded_result.
  destruct (Z.eqb_spec m2 0) as [E0|N0]; [lia|].
  destruct (Z.ltb_spec m2 (2 ^ 53)) as [Hlt|Hge].
  - pose proof (Zdigits2_small m2 ltac:(lia)) as Hdig.
    assert (Ek : fexp (Zdigits2 m2 + e1) - e1 <= 0)
      by (rewrite fexp_unfold; lia).
    cbn [shr_record_of_loc].
    destruct (fexp (Zdigits2 m2 + e1) - e1) as [|p|p]; try lia;
      cbn [shr shr_m]; destruct m2 as [|p2|p2]; try lia; reflexivity.
  - assert (E : m2 = 2 ^ 53) by lia. rewrite E.
    replace (fexp (Zdigits2 (2 ^ 53) + e1) - e1) with 1.
    + reflexivity.
    + change (Zdigits2 (2 ^ 53)) with 54. rewrite fexp_unfold. lia.
Qed.

Lemma rounded_result_valid (m2 e1 : Z) :
  2 ^ 52 <= m2 <= 2 ^ 53 -> -1074 <= e1 ->
  valid_binary (rounded_result m2 e1) = true.
Proof.
  intros Hm He. unfold rounded_result.
  destruct (Z.eqb_spec m2 0); [lia|].
  assert (Hcanon : forall (m : positive) (e : Z),
            2 ^ 52 <= Zpos m < 2 ^ 53 -> -1074 <= e <= 971 ->
            valid_binary (S754_finite false m e) = true).
  { intros m e Hmm Hee. cbn [valid_binary]. unfold bounded, canonical_mantissa.
    assert (Hd : Zpos (digits2_pos m) = 53).
    { pose proof (digits_le_of_lt_pow2 m 53 ltac:(lia)).
      pose proof (digits_ge_of_ge_pow2 m 52 ltac:(lia)). lia. }
    rewrite Hd, fexp_unfold. apply andb_true_intro. split.
    - apply Z.eqb_eq. lia.
    - apply Z.leb_le. change (emax - prec) with 971. lia. }
  destruct (Z.ltb_spec m2 (2 ^ 53)).
  - destruct (Z.leb_spec e1 971); [|reflexivity].
    apply Hcanon; [rewrite Z2Pos.id by lia|]; lia.
  - destruct (Z.leb_spec (e1 + 1) 971); [|reflexivity].
    apply Hcanon; [rewrite Z2Pos.id by lia|]; lia.
Qed.

Lemma rounded_result_floor (ma : positive) (ea m2 e1 : Z) :
  2 ^ 52 <= m2 <= 2 ^ 53 ->
  Zpos ma < 2 ^ 53 ->
  ea < e1 \/ (ea = e1 /\ Zpos ma <= m2) ->
  SFleb (S754_finite false ma ea) (rounded_result m2 e1) = true.
Proof.
  intros Hm Hma H. unfold rounded_result.
  destruct (Z.eqb_spec m2 0); [lia|].
  destruct (Z.ltb_spec m2 (2 ^ 53)).
  - destruct (Z.leb_spec e1 971); [|reflexivity].
    apply SFleb_finite. rewrite Z2Pos.id by lia. lia.
  - destruct (Z.leb_spec (e1 + 1) 971); [|reflexivity].
    apply SFleb_finite. left. lia.
Qed.

Lemma shift_match (m sh : Z) :
  0 <= sh ->
  match sh with
  | 0 => m
  | Zpos _ => Z.shiftl m sh
  | Zneg _ => 0
  end = m * 2 ^ sh.
Proof.
  intros H. destruct sh as [|p|p]; try lia.
  apply Z.shiftl_mul_pow2. lia.
Qed.

(** A number of hundredths from 0.11 on, read as a decimal, is at least the
    number nearest to 0.1. *)
Lemma SFdiv_hundredths_floor (s : positive) :
  11 <= Zpos s ->
  valid_binary
    (SFdiv prec emax (S754_finite false s 0) (S754_finite false 100 0))
  = true
  /\ SFleb (S754_finite false 7205759403792794 (-56))
       (SFdiv prec emax (S754_finite false s 0) (S754_finite false 100 0))
     = true.
Proof.
  intros Hs. unfold SFdiv, SFdiv_core_binary. cbn [xorb].
  change (Zdigits2 100) with 7.
  pose proof (Zdigits2_pos_bounds (Zpos s) ltac:(lia)) as [Hdlo Hdhi].
  set (d1 := Zdigits2 (Zpos s)) in *.
  assert (Hd1 : 4 <= d1).
  { destruct (Z_lt_le_dec d1 4) as [Hlt|]; [|assumption]. exfalso.
    assert (2 ^ d1 <= 2 ^ 3) by (apply Z.pow_le_mono_r; lia).
    change (2 ^ 3) with 8 in *. lia. }
  set (e' := Z.min (fexp (d1 + 0 - (7 + 0))) (0 - 0)).
  assert (He' : e' = Z.min (d1 - 60) 0)
    by (unfold e'; rewrite fexp_unfold; lia).
  set (sh := 0 - 0 - e').
  assert (Hsh : sh = Z.max (60 - d1) 0) by (unfold sh; lia).
  set (N := match sh with
            | 0 => Zpos s
            | Zpos _ => Z.shiftl (Zpos s) sh
            | Zneg _ => 0
            end).
  assert (HN : N = Zpos s * 2 ^ sh) by (apply shift_match; lia).
  assert (Hpsh : 0 < 2 ^ sh) by (apply Z.pow_pos_nonneg; lia).
  assert (HN59 : 2 ^ 59 <= N).
  { rewrite HN. destruct (Z_le_gt_dec d1 60) as [Hle|Hgt].
    - replace 59 with ((d1 - 1) + sh) by lia.
      rewrite Z.pow_add_r by lia. nia.
    - assert (2 ^ 59 <= 2 ^ (d1 - 1)) by (apply Z.pow_le_mono_r; lia). nia. }
  destruct (Z.div_eucl N 100) as [q r] eqn:Ediv.
  assert (Eq : q = N / 100) by (unfold Z.div; now rewrite Ediv).
  assert (Er : r = N mod 100) by (unfold Z.modulo; now rewrite Ediv).
  subst q r.
  assert (Hq52 : 2 ^ 52 <= N / 100).
  { apply Z.div_le_lower_bound; [lia|]. change (2 ^ 59) with 576460752303423488 in HN59.
    change (2 ^ 52) with 4503599627370496. lia. }
  destruct (binary_round_aux_quotient N 100 e' ltac:(lia) eq_refl Hq52
              ltac:(lia)) as (m2 & Hm2 & Hlo & ->).
  set (q := N / 100) in *.
  pose proof (Zdigits2_pos_bounds q ltac:(lia)) as [Hqlo Hqhi].
  set (dq := Zdigits2 q) in *.
  assert (Hdq53 : 53 <= dq).
  { destruct (Z_lt_le_dec dq 53) as [Hlt|]; [|assumption]. exfalso.
    assert (2 ^ dq <= 2 ^ 52) by (apply Z.pow_le_mono_r; lia). lia. }
  assert (Hdq : sh - 3 <= dq).
  { destruct (Z_lt_le_dec sh 4) as [Hlt|Hge]; [lia|].
    destruct (Z_lt_le_dec dq (sh - 3)) as [Hlt|]; [|assumption]. exfalso.
    assert (Hpow : 2 ^ dq <= 2 ^ (sh - 4)) by (apply Z.pow_le_mono_r; lia).
    assert (Hq : 2 ^ (sh - 4) <= q).
    { apply Z.div_le_lower_bound; [lia|]. rewrite HN.
      replace sh with ((sh - 4) + 4) at 2 by lia.
      rewrite Z.pow_add_r by lia. change (2 ^ 4) with 16.
      assert (0 < 2 ^ (sh - 4)) by (apply Z.pow_pos_nonneg; lia). nia. }
    lia. }
  split.
  - apply rounded_result_valid; [exact Hm2 | lia].
  - apply rounded_result_floor; [exact Hm2 | reflexivity |].
    destruct (Z.eq_dec (e' + (dq - 53)) (-56)) as [E|E]; [right|left; lia].
    split; [lia|]. apply Hlo.
    assert (Hk : dq - 53 = sh - 56) by lia. rewrite Hk, HN.
    replace sh with (56 + (sh - 56)) at 2 by lia.
    rewrite Z.pow_add_r by lia.
    assert (0 < 2 ^ (sh - 56)) by (apply Z.pow_pos_nonneg; lia).
    change (2 ^ 56) with 72057594037927936.
    assert (7205759403792794 * 100 <= Zpos s * 72057594037927936) by lia.
    nia.
Qed.

Lemma Math_max_floor (lo y : float) :
  PrimFloat.is_nan lo = false -> PrimFloat.get_sign lo = false ->
  PrimFloat.is_nan y = false ->
  PrimFloat.is_nan (JS.Math_max lo y) = false
  /\ (lo <=? JS.Math_max lo y)%float = true.
Proof.
  intros Hlo Hslo Hy. unfold JS.Math_max. rewrite Hlo, Hy, Hslo. cbn [orb].
  destruct (lo <? y)%float eqn:E1; [split; [exact Hy | now apply ltb_leb]|].
  destruct (y <? lo)%float; split; auto using leb_refl.
Qed.

Lemma Prim2SF_price_floor :
  Prim2SF price_floor = S754_finite false 7205759403792794 (-56).
Proof. vm_compute. reflexivity. Qed.

(** A number that is at least 0.1 has at least 10 hundredths. *)
Lemma scaled_round_floor (m : positive) (e : Z) :
  bounded prec emax m e = true ->
  SFleb (S754_finite false 7205759403792794 (-56)) (S754_finite false m e)
  = true ->
  10 <= JS.scaled_round m e 2.
Proof.
  intros Hb H. apply SFleb_finite in H.
  destruct (bounded_facts m e Hb) as (_ & He & Hm & Hnorm).
  unfold JS.scaled_round. change (10 ^ Z.of_nat 2) with 100.
  destruct (Z.leb_spec 0 e) as [Hpos|Hneg].
  - assert (0 < 2 ^ e) by (apply Z.pow_pos_nonneg; lia). nia.
  - apply Z.div_le_lower_bound; [apply Z.pow_pos_nonneg; lia|].
    replace (1 - e) with (1 + - e) by lia.
    rewrite Z.pow_add_r by lia. change (2 ^ 1) with 2.
    destruct H as [Hlt | [<- Hle]].
    + assert (Hp : 2 ^ (- e) <= 2 ^ 55) by (apply Z.pow_le_mono_r; lia).
      specialize (Hnorm ltac:(lia)).
      change (2 ^ 55) with 36028797018963968 in Hp.
      change (2 ^ 52) with 4503599627370496 in Hnorm. lia.
    + change (2 ^ (- -56)) with 72057594037927936. lia.
Qed.

(** Rounding to 2 decimals keeps a number at or above 0.1. *)
Lemma Number_toFixed_floor (y : float) :
  (price_floor <=? y)%float = true ->
  (price_floor <=? JS.Number_toFixed y 2)%float = true.
Proof.
  intros Hy. pose proof Hy as H.
  rewrite leb_spec, Prim2SF_price_floor in H.
  pose proof (Prim2SF_valid y) as Hv.
  unfold JS.Number_toFixed, JS.toFixed_parts.
  destruct (Prim2SF y) as [s|s| |s m e] eqn:E.
  1: destruct s; discriminate H.
  1: exact Hy.
  1: discriminate H.
  destruct s; [discriminate H|].
  destruct (1e21 <=? abs y)%float; [exact Hy|].
  cbn [valid_binary] in Hv.
  pose proof (scaled_round_floor m e Hv H) as Hn.
  cbn [JS.fixed_number].
  destruct (JS.scaled_round m e 2) as [|n|n]; try lia.
  unfold JS.of_decimal. change (0 <=? - Z.of_nat 2) with false. cbv iota.
  change (Z.to_pos (10 ^ (- (- Z.of_nat 2)))) with 100%positive.
  destruct (Z.eq_dec (Zpos n) 10) as [E10|N10].
  - injection E10 as ->. vm_compute. reflexivity.
  - destruct (SFdiv_hundredths_floor n ltac:(lia)) as [Hvalid Hfloor].
    rewrite leb_spec, Prim2SF_price_floor, Prim2SF_SF2Prim by exact Hvalid.
    exact Hfloor.
Qed.

(** X18.  The floor of the projected price.  On a non-empty candle sequence
    the price [generatePricePrediction] returns is either [NaN] or a number
    of at least 0.1, whatever the candles, the interval token and the
    draw: it is never zero, never negative, and rounding it to 2 decimals
    does not take it below the floor. *)
Theorem generatePricePrediction_price_floor (random : nat -> float)
  (priceData : list Candle.t) (interval : string) (s : nat) :
  priceData <> [] ->
  exists p,
    generatePricePrediction random priceData interval s = Some (p, S s)
    /\ (PrimFloat.is_nan (PricePrediction.price p) = true
        \/ (price_floor <=? PricePrediction.price p)%float = true).
Proof.
  intros Hne. destruct (analyzeTrend_total priceData) as [t Ht].
  destruct (last_elem_nonempty priceData Hne) as [x Hx].
  unfold generatePricePrediction, bind, lift, ret, throw, Math_random.
  destruct (List.length priceData =? 0)%nat eqn:Hlen.
  { apply Nat.eqb_eq in Hlen. destruct priceData; [congruence|discriminate]. }
  rewrite Hx, Ht. eexists. split; [reflexivity|].
  cbn [PricePrediction.price].
  match goal with
  | |- context [JS.Math_max 0.1 ?v] =>
      generalize v; intros c; destruct (PrimFloat.is_nan c) eqn:Hc
  end.
  - left. unfold JS.Math_max. rewrite Hc, orb_true_r. vm_compute. reflexivity.
  - right. apply Number_toFixed_floor.
    apply (Math_max_floor price_floor c); (vm_compute; reflexivity) || exact Hc.
Qed.

Lemma generatePricePrediction_price_floor_witness :
  mockData <> []
  /\ exists p,
       generatePricePrediction (fun _ => 0.25%float) mockData "hours" 0%nat
       = Some (p, 1%nat)
       /\ (PrimFloat.is_nan (PricePrediction.price p) = true
           \/ (price_floor <=? PricePrediction.price p)%float = true).
Proof.
  assert (Hne : mockData <> []) by discriminate.
  split; [exact Hne|].
  exact (generatePricePrediction_price_floor (fun _ => 0.25%float) mockData
           "hours" 0%nat Hne).
Defined.

(* ================================================================== *)
(** ** Batches lie in the future *)
(* ================================================================== *)

Lemma getNextTimestamps_future (tza now : Z) (c : Cadence) :
  tza mod 1000 = 0 ->
  now < 1000 * Cadence_firstAligned (getNextTimestamps tza now) c.
Proof.
  intros Htza. destruct c; cbn [Cadence_firstAligned].
  - date_unfold. Z.to_euclidean_division_equations. lia.
  - date_unfold. Z.to_euclidean_division_equations. lia.
  - destruct (weekly_timestamp_closed_form tza now Htza)
      as (q & k & Hq & Hk & _ & _ & Hweekly).
    lia.
Qed.

(** X19.  Every prediction is for a time to come.  When local time is UTC
    plus a whole number of seconds, a batch generated for one of the three
    cadences from the clock reading [now] (in milliseconds) has [count]
    records, and the timestamp of each, in milliseconds, is strictly after
    [now]; record [i] is [i] periods after the first aligned timestamp. *)
Theorem generatePredictions_future (random : nat -> float) (tza now : Z)
  (historicalData : list Candle.t) (c : Cadence) (count s : nat) :
  tza mod 1000 = 0 ->
  exists predictions s',
    generatePredictions random (getNextTimestamps tza now) historicalData
      (Cadence_token c) count s = Some (predictions, s')
    /\ List.length predictions = count
    /\ forall i p, nth_error predictions i = Some p ->
         exists t,
           Prediction.timestamp p = Some t
           /\ t = Cadence_firstAligned (getNextTimestamps tza now) c
                  + Z.of_nat i * Cadence_period c
           /\ now < 1000 * t.
Proof.
  intros Htza.
  destruct (generatePredictions_records random (getNextTimestamps tza now)
              historicalData (Cadence_token c) count s)
    as (preds & b & Hrun & Hlen & Hts & Hb).
  exists preds, (s + count * draws_per_record historicalData)%nat.
  split; [exact Hrun|]. split; [exact Hlen|].
  intros i p Hp.
  assert (Hi : (i < count)%nat)
    by (rewrite <- Hlen; apply nth_error_Some; congruence).
  pose proof (map_nth_error Prediction.timestamp _ _ Hp) as Hmap.
  rewrite Hts in Hmap.
  assert (Hseq : nth_error (seq 0 count) i = Some i).
  { rewrite nth_error_seq. destruct (Nat.ltb_spec i count); [reflexivity | lia]. }
  rewrite (map_nth_error _ _ _ Hseq) in Hmap.
  injection Hmap as Hmap.
  rewrite interval_timestamp_cadence, (Hb c eq_refl) in Hmap.
  eexists. split; [symmetry; exact Hmap|]. split; [reflexivity|].
  pose proof (getNextTimestamps_future tza now c Htza) as Hfut.
  assert (0 < Cadence_period c) by (destruct c; reflexivity).
  nia.
Qed.

Lemma generatePredictions_future_witness :
  19800000 mod 1000 = 0
  /\ exists predictions s',
       generatePredictions (fun _ => 0.25%float)
         (getNextTimestamps 19800000 1762074123456) mockData
         (Cadence_token Weekly) 12 0%nat = Some (predictions, s')
       /\ List.length predictions = 12%nat
       /\ forall i p, nth_error predictions i = Some p ->
            exists t,
              Prediction.timestamp p = Some t
              /\ t = Cadence_firstAligned
                       (getNextTimestamps 19800000 1762074123456) Weekly
                     + Z.of_nat i * Cadence_period Weekly
              /\ 1762074123456 < 1000 * t.
Proof.
  split; [reflexivity|].
  exact (generatePredictions_future (fun _ => 0.25%float) 19800000
           1762074123456 mockData Weekly 12 0%nat eq_refl).
Defined.

(* ================================================================== *)
(** ** Reading the CSV text back *)
(* ================================================================== *)

Lemma string_app_inv_head (a b c : string) : a ++ b = a ++ c -> b = c.
Proof.
  induction a as [|x a IH]; cbn [append]; [auto|].
  intros H. injection H as H. auto.
Qed.

Lemma digits_injective (a b : Z) :
  0 <= a -> 0 <= b -> JS.digits a = JS.digits b -> a = b.
Proof.
  intros Ha Hb H. unfold JS.digits in H.
  assert (Hnil : forall n, N.to_uint n <> Decimal.Nil).
  { intros [|p]; [discriminate | apply DecimalPos.Unsigned.to_uint_nonnil]. }
  apply (f_equal NilZero.uint_of_string) in H.
  rewrite !NilZero.usu in H by apply Hnil.
  injection H as H. apply DecimalN.Unsigned.to_uint_inj in H. lia.
Qed.

Lemma digits_not_sign (n : Z) (rest : string) :
  JS.digits n <> String "-" rest.
Proof.
  intros H. pose proof (is_digit_digits n) as Hd. rewrite H in Hd.
  discriminate Hd.
Qed.

Lemma timestamp_toString_injective (a b : option Z) :
  timestamp_toString a = timestamp_toString b -> a = b.
Proof.
  assert (Hnan : forall z, timestamp_toString (Some z) <> "NaN").
  { intros z H. unfold timestamp_toString in H.
    destruct (z <? 0); [discriminate H|]. cbn [append] in H.
    pose proof (is_digit_digits (Z.abs z)) as Hd. rewrite H in Hd.
    discriminate Hd. }
  destruct a as [x|], b as [y|]; intros H;
    [| exfalso; apply (Hnan x); exact H
     | exfalso; apply (Hnan y); now rewrite <- H
     | reflexivity].
  unfold timestamp_toString in H.
  destruct (Z.ltb_spec x 0), (Z.ltb_spec y 0); cbn [append] in H.
  - injection H as H. apply digits_injective in H; try lia. f_equal. lia.
  - symmetry in H. now apply digits_not_sign in H.
  - now apply digits_not_sign in H.
  - apply digits_injective in H; try lia. f_equal. lia.
Qed.

Lemma Color_toString_injective (a b : Color) :
  Color_toString a = Color_toString b -> a = b.
Proof. destruct a, b; intros H; try discriminate H; reflexivity. Qed.

Lemma map_injective {A B : Type} (f : A -> B) :
  (forall x y, f x = f y -> x = y) ->
  forall l l', map f l = map f l' -> l = l'.
Proof.
  intros Hf. induction l as [|x l IH]; intros [|y l'] H; try discriminate H;
    [reflexivity|].
  cbn [map] in H. injection H as Hx Hl. f_equal; auto.
Qed.

Lemma predictionsToCSV_lines (predictions : list Prediction.t) :
  split_on newline_char (predictionsToCSV predictions)
  = csv_headers :: map csv_row predictions.
Proof.
  unfold predictionsToCSV. apply (split_on_concat newline_char).
  constructor; [reflexivity|].
  apply Forall_forall. intros row Hrow. apply in_map_iff in Hrow.
  destruct Hrow as (p & <- & _). apply csv_row_free_of_newline.
Qed.

Lemma csv_row_split (p : Prediction.t) :
  split_on comma (csv_row p) = csv_fields p.
Proof.
  rewrite csv_row_fields. apply (split_on_concat comma).
  eapply Forall_impl; [|apply csv_fields_text].
  intros s Hs. apply (field_text_free comma); [now left | exact Hs].
Qed.

(** X20.  The CSV text can be read back.  Two batches with the same CSV text
    have the same timestamps and the same directions, record by record:
    splitting the text at line breaks and commas recovers both columns
    without loss ([NaN] timestamps included). *)
Theorem predictionsToCSV_determines_columns (a b : list Prediction.t) :
  predictionsToCSV a = predictionsToCSV b ->
  map Prediction.timestamp a = map Prediction.timestamp b
  /\ map Prediction.color a = map Prediction.color b.
Proof.
  intros H. apply (f_equal (split_on newline_char)) in H.
  rewrite !predictionsToCSV_lines in H. injection H as H.
  apply (f_equal (map (split_on comma))) in H. rewrite !map_map in H.
  rewrite (map_ext _ csv_fields csv_row_split a) in H.
  rewrite (map_ext _ csv_fields csv_row_split b) in H.
  split.
  - apply (map_injective timestamp_toString timestamp_toString_injective).
    rewrite !map_map.
    apply (f_equal (map (fun f => nth 0 f EmptyString))) in H.
    rewrite !map_map in H. exact H.
  - apply (map_injective Color_toString Color_toString_injective).
    rewrite !map_map.
    apply (f_equal (map (fun f => nth 1 f EmptyString))) in H.
    rewrite !map_map in H. exact H.
Qed.

Lemma predictionsToCSV_determines_columns_witness :
  predictionsToCSV
    [Prediction.mk (Some 1762066800) green 0.75 47.2 "MA uptrend" None;
     Prediction.mk None red 0.6 47 "near resistance" None]
  = predictionsToCSV
      [Prediction.mk (Some 1762066800) green 0.75 47.2 "mixed signals" None;
       Prediction.mk None red 0.6 47 "volume decrease" None]
  /\ map Prediction.timestamp
       [Prediction.mk (Some 1762066800) green 0.75 47.2 "MA uptrend" None;
        Prediction.mk None red 0.6 47 "near resistance" None]
     = [Some 1762066800; None].
Proof.
  assert (H : predictionsToCSV
                [Prediction.mk (Some 1762066800) green 0.75 47.2 "MA uptrend" None;
                 Prediction.mk None red 0.6 47 "near resistance" None]
              = predictionsToCSV
                  [Prediction.mk (Some 1762066800) green 0.75 47.2
                     "mixed signals" None;
                   Prediction.mk None red 0.6 47 "volume decrease" None])
    by (vm_compute; reflexivity).
  split; [exact H|].
  destruct (predictionsToCSV_determines_columns _ _ H) as [Hts _].
  rewrite Hts. reflexivity.
Defined.

(* ================================================================== *)
(** ** Where the confidence and the price are [NaN] *)
(* ================================================================== *)

Lemma nan_eq (x : float) : PrimFloat.is_nan x = true -> x = nan.
Proof.
  intros H. apply Prim2SF_inj. apply is_nan_spec in H. rewrite H.
  vm_compute. reflexivity.
Qed.

Lemma Prim2SF_nan : Prim2SF nan = S754_nan.
Proof. vm_compute. reflexivity. Qed.

Lemma add_nan_l (x : float) : (nan + x)%float = nan.
Proof.
  apply Prim2SF_inj. rewrite add_spec, Prim2SF_nan. reflexivity.
Qed.

Lemma sub_nan_l (x : float) : (nan - x)%float = nan.
Proof.
  apply Prim2SF_inj. rewrite sub_spec, Prim2SF_nan. reflexivity.
Qed.

Lemma sub_nan_r (x : float) : (x - nan)%float = nan.
Proof.
  apply Prim2SF_inj. rewrite sub_spec, Prim2SF_nan.
  unfold SF64sub, SFsub. destruct (Prim2SF x); reflexivity.
Qed.

Lemma mul_nan_l (x : float) : (nan * x)%float = nan.
Proof.
  apply Prim2SF_inj. rewrite mul_spec, Prim2SF_nan. reflexivity.
Qed.

Lemma mul_nan_r (x : float) : (x * nan)%float = nan.
Proof.
  apply Prim2SF_inj. rewrite mul_spec, Prim2SF_nan.
  unfold SF64mul, SFmul. destruct (Prim2SF x); reflexivity.
Qed.

Lemma Math_max_nan_r (x : float) : JS.Math_max x nan = nan.
Proof.
  unfold JS.Math_max. change (PrimFloat.is_nan nan) with true.
  now rewrite orb_true_r.
Qed.

(** The clamped confidence is [NaN] when no signal has an opinion or the
    volatility is [NaN]. *)
Lemma confidence_nan (bullish bearish total : nat) (volatility : float) :
  (bullish = 0%nat /\ bearish = 0%nat /\ total = 0%nat)
  \/ PrimFloat.is_nan volatility = true ->
  JS.Math_min 0.95
    (JS.Math_max 0.55
       (0.6
        + abs (JS.of_nat bullish - JS.of_nat bearish) / JS.of_nat total * 0.25
        + JS.Math_max 0.1 (1 - volatility * 2) * 0.15)%float)
  = nan.
Proof.
  intros [(-> & -> & ->) | Hv].
  - replace (0.6 + abs (JS.of_nat 0 - JS.of_nat 0) / JS.of_nat 0 * 0.25)%float
      with nan by (vm_compute; reflexivity).
    rewrite add_nan_l, Math_max_nan_r. vm_compute. reflexivity.
  - rewrite (nan_eq volatility Hv).
    replace (JS.Math_max 0.1 (1 - nan * 2) * 0.15)%float with nan
      by (vm_compute; reflexivity).
    rewrite add_nan_r, Math_max_nan_r.
    vm_compute. reflexivity.
Qed.

Lemma fuse_zero : fuse 0 0 0 0 = [].
Proof. reflexivity. Qed.

(** X21.  Where the confidence is [NaN].  On at least 3 candles, whenever
    none of the four signals has an opinion, or the volatility of the
    window is [NaN], the confidence [analyzeTrend] returns is [NaN] (the
    agreement is 0/0, and the clamp passes [NaN] through).  With no opinion
    at all the direction is red and the text reads
    [RED (NaN%): mixed signals]. *)
Theorem analyzeTrend_confidence_nan (priceData : list Candle.t) :
  (3 <= List.length priceData)%nat ->
  all_signals_zero priceData
  \/ PrimFloat.is_nan (calculateVolatility (recent_window priceData)) = true ->
  exists t,
    analyzeTrend priceData = Some t
    /\ PrimFloat.is_nan (Trend.confidence t) = true
    /\ (all_signals_zero priceData ->
        Trend.color t = red
        /\ Trend.analysis t = "RED (NaN%): mixed signals").
Proof.
  intros Hlen Hcase.
  assert (Hne : recent_window priceData <> []).
  { intros Hnil. pose proof (recent_window_length priceData) as Hw.
    rewrite Hnil in Hw. cbn [List.length] in Hw. lia. }
  destruct (findSupportResistance_defined _ Hne) as [sr Hsr].
  assert (Hzero : all_signals_zero priceData ->
            snd (calculateMomentum (recent_window priceData)) = 0
            /\ calculateMovingAverageTrend (recent_window priceData) = 0
            /\ calculateVolumeTrend (recent_window priceData) = 0
            /\ sr = 0).
  { unfold all_signals_zero, indicator_signals. rewrite Hsr. intros H.
    pose proof (f_equal (fun x => fst (fst (fst x))) H) as Hm.
    pose proof (f_equal (fun x => snd (fst (fst x))) H) as Hma.
    pose proof (f_equal (fun x => snd (fst x)) H) as Hv.
    pose proof (f_equal snd H) as Hs.
    cbn [fst snd] in Hm, Hma, Hv, Hs. injection Hs as Hs. auto. }
  unfold analyzeTrend. apply Nat.ltb_ge in Hlen. rewrite Hlen, Hsr.
  eexists. split; [reflexivity|]. cbn [Trend.confidence Trend.color Trend.analysis].
  rewrite confidence_nan.
  - split; [vm_compute; reflexivity|]. intros Hz.
    destruct (Hzero Hz) as (-> & -> & -> & ->).
    split; [reflexivity|]. vm_compute. reflexivity.
  - destruct Hcase as [Hz|Hv]; [left|right; exact Hv].
    destruct (Hzero Hz) as (-> & -> & -> & ->). rewrite fuse_zero. auto.
Qed.

Lemma analyzeTrend_confidence_nan_witness :
  (3 <= List.length flatData)%nat
  /\ exists t,
       analyzeTrend flatData = Some t
       /\ PrimFloat.is_nan (Trend.confidence t) = true
       /\ (all_signals_zero flatData ->
           Trend.color t = red
           /\ Trend.analysis t = "RED (NaN%): mixed signals").
Proof.
  assert (H : (3 <= List.length flatData)%nat) by (cbn; lia).
  split; [exact H|].
  exact (analyzeTrend_confidence_nan flatData H (or_introl flatData_signals)).
Defined.

(** X22.  Where the price is [NaN].  On a non-empty candle sequence, whenever
    the confidence of [analyzeTrend] is [NaN] the price
    [generatePricePrediction] returns is [NaN] too, for every interval
    token and every draw: the floor [Math.max(0.1, ...)] does not repair
    it.  In particular this is so on every sequence of at least 3 candles
    on which no signal has an opinion. *)
Theorem generatePricePrediction_price_nan (random : nat -> float)
  (priceData : list Candle.t) (interval : string) (s : nat) (t : Trend.t) :
  priceData <> [] ->
  analyzeTrend priceData = Some t ->
  PrimFloat.is_nan (Trend.confidence t) = true ->
  exists p,
    generatePricePrediction random priceData interval s = Some (p, S s)
    /\ PrimFloat.is_nan (PricePrediction.confidence p) = true
    /\ PrimFloat.is_nan (PricePrediction.price p) = true.
Proof.
  intros Hne Ht Hnan.
  destruct (last_elem_nonempty priceData Hne) as [x Hx].
  unfold generatePricePrediction, bind, lift, ret, throw, Math_random.
  destruct (List.length priceData =? 0)%nat eqn:Hlen.
  { apply Nat.eqb_eq in Hlen. destruct priceData; [congruence|discriminate]. }
  rewrite Hx, Ht. eexists. split; [reflexivity|].
  cbn [PricePrediction.confidence PricePrediction.price].
  split; [exact Hnan|].
  rewrite (nan_eq _ Hnan), sub_nan_l, mul_nan_r, mul_nan_l, !add_nan_r,
    Math_max_nan_r.
  vm_compute. reflexivity.
Qed.

Lemma generatePricePrediction_price_nan_witness :
  flatData <> []
  /\ exists p,
       generatePricePrediction (fun _ => 0.25%float) flatData "hours" 0%nat
       = Some (p, 1%nat)
       /\ PrimFloat.is_nan (PricePrediction.confidence p) = true
       /\ PrimFloat.is_nan (PricePrediction.price p) = true.
Proof.
  assert (Hne : flatData <> []) by discriminate.
  assert (Hnan : PrimFloat.is_nan
                   (Trend.confidence
                      (Trend.mk red nan 0%float
                         (Some (Indicators.mk 0 0 0 0%float 0))
                         "RED (NaN%): mixed signals")) = true)
    by (vm_compute; reflexivity).
  split; [exact Hne|].
  exact (generatePricePrediction_price_nan (fun _ => 0.25%float) flatData
           "hours" 0%nat _ Hne analyzeTrend_flatData Hnan).
Defined.

(* ================================================================== *)
(** ** The indicators are signals *)
(* ================================================================== *)

Lemma sign_signal_range (x : float) : is_signal (sign_signal x).
Proof.
  unfold sign_signal, is_signal.
  destruct (0 <? x)%float; [auto|]. destruct (x <? 0)%float; auto.
Qed.

Lemma calculateMovingAverageTrend_range (data : list Candle.t) :
  is_signal (calculateMovingAverageTrend data).
Proof.
  unfold calculateMovingAverageTrend, is_signal.
  repeat match goal with
         | |- context [if ?c then _ else _] => destruct c
         end; auto.
Qed.

Lemma calculateVolumeTrend_range (data : list Candle.t) :
  is_signal (calculateVolumeTrend data).
Proof.
  unfold calculateVolumeTrend, is_signal.
  repeat match goal with
         | |- context [if ?c then _ else _] => destruct c
         end; auto.
Qed.

Lemma findSupportResistance_range (data : list Candle.t) (sr : Z) :
  findSupportResistance data = Some sr -> is_signal sr.
Proof.
  unfold findSupportResistance, is_signal.
  destruct (JS.last_elem data); [|discriminate].
  intros H. injection H as <-.
  repeat match goal with
         | |- context [if ?c then _ else _] => destruct c
         end; auto.
Qed.

(** X23.  The indicators are signals.  Whatever the candles, each of the four
    signals in the [indicators] object of [analyzeTrend] is -1, 0 or 1, and
    the direction is green only if at least one of them is 1. *)
Theorem analyzeTrend_signals (priceData : list Candle.t) :
  (3 <= List.length priceData)%nat ->
  exists t ind,
    analyzeTrend priceData = Some t
    /\ Trend.indicators t = Some ind
    /\ is_signal (Indicators.momentum ind)
    /\ is_signal (Indicators.movingAverage ind)
    /\ is_signal (Indicators.volume ind)
    /\ is_signal (Indicators.supportResistance ind)
    /\ (Trend.color t = green ->
        Indicators.momentum ind = 1 \/ Indicators.movingAverage ind = 1
        \/ Indicators.volume ind = 1 \/ Indicators.supportResistance ind = 1).
Proof.
  intros Hlen. destruct (analyzeTrend_total priceData) as [t Ht].
  exists t. revert Ht. unfold analyzeTrend.
  destruct (Nat.ltb_spec (List.length priceData) 3) as [H|_]; [lia|].
  destruct (findSupportResistance _) as [sr|] eqn:Hsr; [|discriminate].
  intros H. injection H as <-. cbn [Trend.indicators Trend.color].
  eexists. split; [reflexivity|]. split; [reflexivity|].
  cbn [Indicators.momentum Indicators.movingAverage Indicators.volume
       Indicators.supportResistance].
  match goal with
  | |- context [sign_signal ?x] =>
      pose proof (sign_signal_range x) as Hm; set (m := sign_signal x) in *
  end.
  pose proof (calculateMovingAverageTrend_range (recent_window priceData)) as Hma.
  pose proof (calculateVolumeTrend_range (recent_window priceData)) as Hv.
  pose proof (findSupportResistance_range _ _ Hsr) as Hs.
  do 4 (split; [assumption|]).
  set (ma := calculateMovingAverageTrend (recent_window priceData)) in *.
  set (v := calculateVolumeTrend (recent_window priceData)) in *.
  clearbody m ma v. unfold is_signal in *.
  destruct Hm as [-> | [-> | ->]], Hma as [-> | [-> | ->]],
    Hv as [-> | [-> | ->]], Hs as [-> | [-> | ->]];
    intros H; first [ solve [auto 6] | vm_compute in H; discriminate H ].
Qed.

Lemma analyzeTrend_signals_witness :
  (3 <= List.length tradedData)%nat
  /\ exists t ind,
       analyzeTrend tradedData = Some t
       /\ Trend.indicators t = Some ind
       /\ is_signal (Indicators.momentum ind)
       /\ is_signal (Indicators.movingAverage ind)
       /\ is_signal (Indicators.volume ind)
       /\ is_signal (Indicators.supportResistance ind)
       /\ (Trend.color t = green ->
           Indicators.momentum ind = 1 \/ Indicators.movingAverage ind = 1
           \/ Indicators.volume ind = 1
           \/ Indicators.supportResistance ind = 1).
Proof.
  assert (H : (3 <= List.length tradedData)%nat) by (cbn; lia).
  split; [exact H|]. exact (analyzeTrend_signals tradedData H).
Defined.

(* ================================================================== *)
(** ** What the analyzer does not read *)
(* ================================================================== *)

Lemma slice_map {A B : Type} (f : A -> B) (l : list A) (start : Z)
  (stop : option Z) :
  JS.slice (map f l) start stop = map f (JS.slice l start stop).
Proof.
  unfold JS.slice. rewrite length_map. now rewrite skipn_map, firstn_map.
Qed.

Lemma last_elem_map {A B : Type} (f : A -> B) (l : list A) :
  JS.last_elem (map f l) = option_map f (JS.last_elem l).
Proof. unfold JS.last_elem. rewrite length_map. apply nth_error_map. Qed.

Lemma fold_left_map {A B C : Type} (g : C -> B -> C) (f : A -> B)
  (l : list A) (c : C) :
  fold_left g (map f l) c = fold_left (fun s a => g s (f a)) l c.
Proof. revert c. induction l as [|a l IH]; intros c; [reflexivity | apply IH]. Qed.

Lemma existsb_map {A B : Type} (p : B -> bool) (f : A -> B) (l : list A) :
  existsb p (map f l) = existsb (fun a => p (f a)) l.
Proof. induction l as [|a l IH]; [reflexivity|]. cbn. now rewrite IH. Qed.

(** X24.  What the analyzer does not read.  [analyzeTrend] gives the same
    result when the timestamp and the open price of every candle are
    replaced: only the order of the candles and their high, low, close and
    volume matter.  Candles that are out of order by timestamp, or share
    one, are analyzed in the order given. *)
Theorem analyzeTrend_ignores_time_and_open (priceData : list Candle.t) :
  analyzeTrend (map without_time_and_open priceData) = analyzeTrend priceData.
Proof.
  unfold analyzeTrend. rewrite length_map.
  destruct (List.length priceData <? 3)%nat; [reflexivity|].
  unfold recent_window. rewrite slice_map.
  set (recent := JS.slice priceData (-10) None).
  assert (Hclose : map Candle.close (map without_time_and_open recent)
                   = map Candle.close recent)
    by (rewrite map_map; reflexivity).
  assert (Hm : calculateMomentum (map without_time_and_open recent)
               = calculateMomentum recent)
    by (unfold calculateMomentum; now rewrite Hclose).
  assert (Hma : calculateMovingAverageTrend (map without_time_and_open recent)
                = calculateMovingAverageTrend recent).
  { unfold calculateMovingAverageTrend.
    rewrite length_map, !slice_map, !map_map. reflexivity. }
  assert (Hv : calculateVolumeTrend (map without_time_and_open recent)
               = calculateVolumeTrend recent).
  { unfold calculateVolumeTrend.
    rewrite existsb_map, !slice_map, !length_map, !fold_left_map.
    reflexivity. }
  assert (Hvol : calculateVolatility (map without_time_and_open recent)
                 = calculateVolatility recent)
    by (unfold calculateVolatility; now rewrite Hclose).
  assert (Hsr : findSupportResistance (map without_time_and_open recent)
                = findSupportResistance recent).
  { unfold findSupportResistance.
    rewrite last_elem_map, !map_map.
    destruct (JS.last_elem recent); reflexivity. }
  rewrite Hm, Hma, Hv, Hvol, Hsr. reflexivity.
Qed.

(* ================================================================== *)
(** ** The rows the documentation shows *)
(* ================================================================== *)

(** C5 at its failing input.  For the three records whose rows
    [README-predictions.md] shows (prices 45.50, 46.20 and 44.90),
    [predictionsToCSV] writes the prices as 45.5, 46.2 and 44.9: its text is
    not the documented one, and no price field has 2 decimal places.  The
    preview of the same records does pad them, with [toFixed(2)]. *)
Theorem predictionsToCSV_readme_rows :
  predictionsToCSV readmeRecords
  = "timestamp,color,confidence,price" ++ newline
    ++ "1704067200,red,0.85,45.5" ++ newline
    ++ "1704070800,green,0.92,46.2" ++ newline
    ++ "1704074400,red,0.78,44.9"
  /\ String.eqb (predictionsToCSV readmeRecords) readmeCSV = false
  /\ map (fun p => nth 3 (split_on comma (csv_row p)) EmptyString)
       readmeRecords
     = ["45.5"; "46.2"; "44.9"]
  /\ map (fun p =>
            two_decimals (nth 3 (split_on comma (csv_row p)) EmptyString))
       readmeRecords
     = [false; false; false]
  /\ map preview_price readmeRecords = ["$45.50"; "$46.20"; "$44.90"].
Proof. repeat split; vm_compute; reflexivity. Qed.
